(** * X.509 object model of [cryptography.x509.base]

    A shallow embedding of [src/cryptography/x509/base.py]: the key
    identifier derivation, the extension value constructors with their
    validation, the [GeneralName] family and the persistent certificate
    and CSR builders, followed by the properties proved about them. *)

From Stdlib Require Import ZArith List String Ascii Lia.
From Stdlib.Strings Require Import Byte.
From stdpp Require Import gmap strings list.

Local Open Scope Z_scope.

(** ** Byte strings *)

(** A Python [bytes] value is a list of [Byte.byte]. *)
Definition bytes := list byte.

Definition Z_of_byte (b : byte) : Z := Z.of_N (Byte.to_N b).

Definition byte_of_Z (z : Z) : byte :=
  match Byte.of_N (Z.to_N (z mod 256)) with
  | Some b => b
  | None => x00
  end.

(** The eight bits of a byte, most significant first. *)
Definition bits_of_byte (b : byte) : list bool :=
  let z := Z_of_byte b in
  [Z.testbit z 7; Z.testbit z 6; Z.testbit z 5; Z.testbit z 4;
   Z.testbit z 3; Z.testbit z 2; Z.testbit z 1; Z.testbit z 0].

Definition bits_of_bytes (bs : bytes) : list bool :=
  concat (map bits_of_byte bs).

(** The value of a byte string read as a big-endian number. *)
Fixpoint bytes_to_int (l : bytes) : Z :=
  match l with
  | [] => 0
  | b :: r => Z_of_byte b * 256 ^ Z.of_nat (length r) + bytes_to_int r
  end.

(** Big-endian base-256 digits of [x], [n] of them. *)
Fixpoint be_bytes (n : nat) (x : Z) : list Z :=
  match n with
  | O => []
  | S n' => Z.land (Z.shiftr x (8 * Z.of_nat n')) 0xFF :: be_bytes n' x
  end.

Definition hex_bytes (l : list Z) : bytes := map byte_of_Z l.

(** ** SHA-1

    [hashlib.sha1] is an external collaborator; it is modelled by the
    algorithm of FIPS 180-4 over 32-bit words held in [Z]. *)
Module SHA1.

Definition mask32 : Z := 0xFFFFFFFF.

Definition add32 (x y : Z) : Z := Z.land (x + y) mask32.

Definition rotl32 (n x : Z) : Z :=
  Z.land (Z.lor (Z.shiftl x n) (Z.shiftr x (32 - n))) mask32.

Definition not32 (x : Z) : Z := Z.lxor x mask32.

Definition f (t : nat) (b c d : Z) : Z :=
  if (t <? 20)%nat then Z.lor (Z.land b c) (Z.land (not32 b) d)
  else if (t <? 40)%nat then Z.lxor (Z.lxor b c) d
  else if (t <? 60)%nat then
    Z.lor (Z.lor (Z.land b c) (Z.land b d)) (Z.land c d)
  else Z.lxor (Z.lxor b c) d.

Definition K (t : nat) : Z :=
  if (t <? 20)%nat then 0x5A827999
  else if (t <? 40)%nat then 0x6ED9EBA1
  else if (t <? 60)%nat then 0x8F1BBCDC
  else 0xCA62C1D6.

Definition be_word (bs : list Z) : Z :=
  fold_left (fun acc b => Z.lor (Z.shiftl acc 8) b) bs 0.

(** Message padding: a one bit, zero bits up to 448 mod 512, then the
    message length in bits on 64 bits. *)
Definition pad (msg : list Z) : list Z :=
  let len := Z.of_nat (length msg) in
  msg ++ [0x80] ++ repeat 0 (Z.to_nat ((55 - len) mod 64))
      ++ be_bytes 8 (8 * len).

Fixpoint words (n : nat) (block : list Z) : list Z :=
  match n with
  | O => []
  | S n' => be_word (firstn 4 block) :: words n' (skipn 4 block)
  end.

(** One step of the message schedule; [ws] holds the words already
    computed, the latest first. *)
Definition schedule_step (ws : list Z) : list Z :=
  rotl32 1 (Z.lxor (Z.lxor (nth 2 ws 0) (nth 7 ws 0))
                   (Z.lxor (nth 13 ws 0) (nth 15 ws 0))) :: ws.

Definition schedule (block : list Z) : list Z :=
  rev (Nat.iter 64 schedule_step (rev (words 16 block))).

Definition state : Type := Z * Z * Z * Z * Z.

Definition round (s : state) (tw : nat * Z) : state :=
  let '(a, b, c, d, e) := s in
  let '(t, w) := tw in
  let temp := add32 (add32 (add32 (add32 (rotl32 5 a) (f t b c d)) e)
                           (K t)) w in
  (temp, a, rotl32 30 b, c, d).

Definition compress (h : state) (block : list Z) : state :=
  let '(h0, h1, h2, h3, h4) := h in
  let ws := schedule block in
  let '(a, b, c, d, e) :=
    fold_left round (combine (seq 0 80) ws) h in
  (add32 h0 a, add32 h1 b, add32 h2 c, add32 h3 d, add32 h4 e).

Fixpoint process (nblocks : nat) (data : list Z) (h : state) : state :=
  match nblocks with
  | O => h
  | S n => process n (skipn 64 data) (compress h (firstn 64 data))
  end.

Definition initial : state :=
  (0x67452301, 0xEFCDAB89, 0x98BADCFE, 0x10325476, 0xC3D2E1F0).

Definition output (h : state) : bytes :=
  let '(h0, h1, h2, h3, h4) := h in
  map byte_of_Z
      (be_bytes 4 h0 ++ be_bytes 4 h1 ++ be_bytes 4 h2
         ++ be_bytes 4 h3 ++ be_bytes 4 h4).

(** [hashlib.sha1(data).digest()] *)
Definition digest (data : bytes) : bytes :=
  let padded := pad (map Z_of_byte data) in
  output (process (length padded / 64)%nat padded initial).

End SHA1.


(** ** Object identifiers and names *)

(** Modelled from the spec: [ObjectIdentifier] (cryptography/x509/oid.py)
    is not under src/.  The spec describes an "immutable dotted-integer
    sequence" with "equality and ordering by identifier string". *)
Record ObjectIdentifier : Type := { dotted_string : string }.

#[export] Instance ObjectIdentifier_eq_dec : EqDecision ObjectIdentifier.
Proof. solve_decision. Defined.

(** [a == b] on object identifiers. *)
Definition oid_eqb (a b : ObjectIdentifier) : bool := bool_decide (a = b).

(** Modelled from the spec: [Name] (cryptography/x509/name.py) is not under
    src/.  The spec describes a "distinguished-name value type
    (attribute/value pairs)".  The truth value Python gives a name object
    in a condition is decided by that class; it is kept as the field
    [name_truth], so that nothing proved below depends on it. *)
Record Name : Type := {
  name_attributes : list (ObjectIdentifier * string);
  name_truth : bool
}.

(** ** Python exceptions and results *)

Inductive exn : Type :=
| TypeError (msg : string)
| ValueError (msg : string)
| AssertionError
| PyAsn1Error (msg : string)
| InvalidVersion (msg : string) (parsed_version : Z)
| DuplicateExtension (msg : string) (oid : ObjectIdentifier)
| UnsupportedExtension (msg : string) (oid : ObjectIdentifier)
| ExtensionNotFound (msg : string) (oid : ObjectIdentifier)
| UnsupportedGeneralNameType (msg : string) (type : Z).

(** The outcome of a call: a returned value or a raised exception. *)
Inductive result (A : Type) : Type :=
| Ok (a : A)
| Raise (e : exn).
Arguments Ok {A} a.
Arguments Raise {A} e.

#[export] Instance result_ret : MRet result := fun A a => Ok a.
#[export] Instance result_bind : MBind result := fun A B k m =>
  match m with
  | Ok a => k a
  | Raise e => Raise e
  end.

(** ** [_SubjectPublicKeyInfo] and its decoder *)

(** An ASN.1 value decoded without a schema: a primitive encoding keeps
    its content octets, a constructed one holds its components. *)
#[warnings="-register-all"]
Inductive asn1_value : Type :=
| Primitive (tag : byte) (content : bytes)
| Constructed (tag : byte) (components : list asn1_value).

(** The schema class [_SubjectPublicKeyInfo]: [algorithm], a SEQUENCE
    with no declared components, and [subjectPublicKey], a BIT STRING,
    which is a tuple of bits. *)
Record _SubjectPublicKeyInfo : Type := {
  algorithm : list asn1_value;
  subjectPublicKey : list bool
}.

(** [pyasn1.codec.der.decoder] is an external collaborator.  The source
    makes one call on it, [decoder.decode(serialized,
    asn1Spec=_SubjectPublicKeyInfo())], which returns the decoded
    structure and the octets left after it, or raises.  What it does on
    each octet string is its own business: the derivation and everything
    stated about it are over an arbitrary decoder. *)
Class Decoder : Type :=
  decode : bytes -> result (_SubjectPublicKeyInfo * bytes).

(** A decoder for the sample keys.  It reads the encodings DER
    prescribes for the schema: single-octet identifiers, definite
    lengths, a primitive BIT STRING.  Octet strings outside DER, which
    another decoder may accept, it refuses. *)
Module DER.

(** Base-256 value of a run of length octets. *)
Definition length_value (octets : bytes) : Z :=
  fold_left (fun acc b => acc * 256 + Z_of_byte b) octets 0.

(** The length octets: short form below 128, long form otherwise;
    the indefinite form is not DER. *)
Definition read_length (substrate : bytes) : result (nat * bytes) :=
  match substrate with
  | [] => Raise (PyAsn1Error "Short octet stream on length decoding")
  | first :: rest =>
      let n := Z_of_byte first in
      if n <? 128 then Ok (Z.to_nat n, rest)
      else if n =? 128 then
        Raise (PyAsn1Error "Indefinite length encoding not supported")
      else
        let k := Z.to_nat (n - 128) in
        if (length rest <? k)%nat then
          Raise (PyAsn1Error "Short octet stream on long length decoding")
        else Ok (Z.to_nat (length_value (firstn k rest)), skipn k rest)
  end.

(** One tag-length-value with the expected identifier octet: its
    content octets and what follows it. *)
Definition read_tlv (tag : byte) (substrate : bytes)
  : result (bytes * bytes) :=
  match substrate with
  | [] => Raise (PyAsn1Error "Short octet stream on tag decoding")
  | t :: rest =>
      if negb (Z_of_byte t =? Z_of_byte tag) then
        Raise (PyAsn1Error "Tag mismatch")
      else
        '(len, rest') ← read_length rest;
        if (length rest' <? len)%nat then
          Raise (PyAsn1Error "Substrate underrun")
        else Ok (firstn len rest', skipn len rest')
  end.

(** The values a run of octets encodes, one after the other, each with
    whatever identifier octet it has; a constructed one (bit 6 of the
    identifier) is read into its components.  Every value takes at least
    two octets, so [fuel] as large as the run is long is enough. *)
Fixpoint read_values (fuel : nat) (substrate : bytes)
  : result (list asn1_value) :=
  match substrate with
  | [] => Ok []
  | tag :: rest =>
      match fuel with
      | O => Raise (PyAsn1Error "Substrate underrun")
      | S fuel' =>
          '(len, rest') ← read_length rest;
          if (length rest' <? len)%nat then
            Raise (PyAsn1Error "Substrate underrun")
          else
            let content := firstn len rest' in
            value ← (if Z.testbit (Z_of_byte tag) 5 then
                       components ← read_values fuel' content;
                       Ok (Constructed tag components)
                     else Ok (Primitive tag content));
            others ← read_values fuel' (skipn len rest');
            Ok (value :: others)
      end
  end.

(** Content of a primitive BIT STRING: the count of unused trailing
    bits, then the octets. *)
Definition bit_string (content : bytes) : result (list bool) :=
  match content with
  | [] => Raise (PyAsn1Error "Empty substrate")
  | unused :: octets =>
      let u := Z_of_byte unused in
      if 7 <? u then Raise (PyAsn1Error "Trailing bits overflow")
      else
        let bits := bits_of_bytes octets in
        Ok (firstn (length bits - Z.to_nat u) bits)
  end.

(** The decoded structure and the octets left after it. *)
Definition decode_spki (substrate : bytes)
  : result (_SubjectPublicKeyInfo * bytes) :=
  '(content, remaining) ← read_tlv x30 substrate;
  '(alg, after_alg) ← read_tlv x30 content;
  components ← read_values (length alg) alg;
  '(key, after_key) ← read_tlv x03 after_alg;
  match after_key with
  | _ :: _ => Raise (PyAsn1Error "Excessive components detected")
  | [] =>
      bits ← bit_string key;
      Ok ({| algorithm := components; subjectPublicKey := bits |},
          remaining)
  end.

Definition decoder : Decoder := decode_spki.

End DER.

(** ** Key-identifier derivation *)

(** The public-key classes [CertificateBuilder.public_key] accepts, and
    any other object. *)
Inductive key_class : Type :=
| DSAPublicKey
| RSAPublicKey
| EllipticCurvePublicKey
| OtherKeyClass.

(** A public key of the key collaborator: its class and what
    [public_bytes(Encoding.DER, PublicFormat.SubjectPublicKeyInfo)]
    returns. *)
Record PublicKey : Type := {
  key_class_of : key_class;
  public_bytes : bytes
}.

(** The octets the three key classes put into [subjectPublicKey], as far
    as their first octet goes.  The classes are collaborators outside this
    module; their encodings are fixed by RFC 3279 and RFC 5480: an RSA key
    gives the DER encoding of the RSAPublicKey SEQUENCE (identifier 30), a
    DSA key the DER INTEGER of its public value (identifier 02), an
    elliptic-curve key the octets of its point, which start with 04
    (uncompressed), 02 or 03 (compressed), 06 or 07 (hybrid). *)
Definition key_octets (c : key_class) (octets : bytes) : bool :=
  match octets with
  | [] => false
  | first :: _ =>
      let t := Z_of_byte first in
      match c with
      | RSAPublicKey => t =? 0x30
      | DSAPublicKey => t =? 0x02
      | EllipticCurvePublicKey =>
          (t =? 0x02) || (t =? 0x03) || (t =? 0x04) || (t =? 0x06)
          || (t =? 0x07)
      | OtherKeyClass => false
      end
  end.

(** Modelled from the spec: [utils.bit_length] (cryptography/utils.py) is
    not under src/.  The spec bounds the serial number by its
    "bit-length"; for an integer this is the number of binary digits of
    its magnitude, zero for zero. *)
Definition bit_length (x : Z) : Z :=
  if x =? 0 then 0 else Z.log2 (Z.abs x) + 1.

(** Modelled from the spec: [utils.int_to_bytes] (cryptography/utils.py)
    is not under src/.  The spec reassembles into "a byte sequence (bit
    order preserved, no padding/truncation)": the big-endian base-256
    digits of the integer, as many as its bit length needs and at least
    one. *)
Definition int_to_bytes (integer : Z) : bytes :=
  let n := Z.to_nat (Z.max 1 ((bit_length integer + 7) / 8)) in
  map byte_of_Z (be_bytes n integer).

(** The loop [for bit in ...: bits = bits << 1 | bit]. *)
Definition bits_to_int (bits : list bool) : Z :=
  fold_left (fun acc bit => Z.lor (Z.shiftl acc 1) (Z.b2z bit)) bits 0.

Definition _key_identifier_from_public_key {decoder : Decoder}
    (public_key : PublicKey) : result bytes :=
  let serialized := public_bytes public_key in
  '(spki, remaining) ← decode serialized;
  match remaining with
  | _ :: _ => Raise AssertionError
  | [] =>
      let bits := bits_to_int (subjectPublicKey spki) in
      let data := int_to_bytes bits in
      Ok (SHA1.digest data)
  end.

(** ** Versions, times and addresses *)

Inductive Version : Type := v1 | v3.

Definition Version_value (v : Version) : Z :=
  match v with v1 => 0 | v3 => 2 end.

(** The [tzinfo] attribute of an aware or half-aware datetime: which
    time-zone object it is, and what the [utcoffset] of that object
    returns for the datetime, in microseconds, or [None]. *)
Record timezone : Type := {
  tz_object : positive;
  tz_utcoffset : option Z
}.

(** [datetime.datetime]: the calendar fields and the attribute [tzinfo],
    [None] when the datetime has no time zone. *)
Record datetime : Type := {
  year : Z; month : Z; day : Z;
  hour : Z; minute : Z; second : Z; microsecond : Z;
  tzinfo : option timezone
}.

(** [t.utcoffset()]; a datetime is naive when this is [None] and aware
    otherwise. *)
Definition utcoffset (t : datetime) : option Z :=
  tz ← tzinfo t; tz_utcoffset tz.

Definition datetime_fields (t : datetime) : list Z :=
  [year t; month t; day t; hour t; minute t; second t; microsecond t].

(** Lexicographic [a <= b] on equally long lists of fields. *)
Fixpoint fields_le (a b : list Z) : bool :=
  match a, b with
  | x :: a', y :: b' =>
      if x <? y then true else if y <? x then false else fields_le a' b'
  | _, _ => true
  end.

Definition is_leap (y : Z) : bool :=
  (y mod 4 =? 0) && (negb (y mod 100 =? 0) || (y mod 400 =? 0)).

Definition days_in_month (y m : Z) : Z :=
  if m =? 2 then (if is_leap y then 29 else 28)
  else if (m =? 4) || (m =? 6) || (m =? 9) || (m =? 11) then 30
  else 31.

(** The days of year [y] before the first of month [m]. *)
Definition days_before_month (y m : Z) : Z :=
  fold_left (fun acc k => acc + days_in_month y (Z.of_nat k))
            (seq 1 (Z.to_nat (m - 1))) 0.

(** The days before the first of January of year [y], counted from
    0001-01-01. *)
Definition days_before_year (y : Z) : Z :=
  let p := y - 1 in p * 365 + p / 4 - p / 100 + p / 400.

(** [t.toordinal()] *)
Definition toordinal (t : datetime) : Z :=
  days_before_year (year t) + days_before_month (year t) (month t) + day t.

(** The microseconds from 0001-01-01 00:00:00 to the fields of [t]. *)
Definition field_microseconds (t : datetime) : Z :=
  (((toordinal t - 1) * 24 + hour t) * 60 + minute t) * 60 * 1000000
  + second t * 1000000 + microsecond t.

(** [a <= b] on datetimes.  Two datetimes with the same time-zone object
    or the same offset (two naive ones among them) are ordered by their
    fields; a naive one and an aware one are not comparable; two aware
    ones are otherwise ordered as instants. *)
Definition datetime_le (a b : datetime) : result bool :=
  let same_tz :=
    match tzinfo a, tzinfo b with
    | None, None => true
    | Some x, Some y => bool_decide (tz_object x = tz_object y)
    | _, _ => false
    end in
  if same_tz || bool_decide (utcoffset a = utcoffset b) then
    Ok (fields_le (datetime_fields a) (datetime_fields b))
  else
    match utcoffset a, utcoffset b with
    | Some oa, Some ob =>
        Ok (field_microseconds a - oa <=? field_microseconds b - ob)
    | _, _ =>
        Raise (TypeError
                 "can't compare offset-naive and offset-aware datetimes")
    end.

Definition _UNIX_EPOCH : datetime :=
  {| year := 1970; month := 1; day := 1;
     hour := 0; minute := 0; second := 0; microsecond := 0;
     tzinfo := None |}.

(** The values of the [ipaddress] module an [IPAddress] name wraps. *)
Inductive ip_value : Type :=
| IPv4Address (address : Z)
| IPv6Address (address : Z)
| IPv4Network (network_address : Z) (prefixlen : Z)
| IPv6Network (network_address : Z) (prefixlen : Z).

Definition is_ip_network (v : ip_value) : bool :=
  match v with
  | IPv4Network _ _ | IPv6Network _ _ => true
  | IPv4Address _ | IPv6Address _ => false
  end.

(** ** The GeneralName family

    One constructor per class registered on the [GeneralName] interface,
    holding the instance attributes that equality reads.  The derived
    [_encoded] form of [RFC822Name] and [UniformResourceIdentifier] is not
    part of the model. *)
Inductive GeneralName : Type :=
| RFC822Name (value : string)
| DNSName (value : string)
| UniformResourceIdentifier (value : string)
| DirectoryName (value : Name)
| RegisteredID (value : ObjectIdentifier)
| IPAddress (value : ip_value)
| OtherName (type_id : ObjectIdentifier) (value : bytes).

(** The name of the class of an instance. *)
Definition class_name (g : GeneralName) : string :=
  match g with
  | RFC822Name _ => "RFC822Name"
  | DNSName _ => "DNSName"
  | UniformResourceIdentifier _ => "UniformResourceIdentifier"
  | DirectoryName _ => "DirectoryName"
  | RegisteredID _ => "RegisteredID"
  | IPAddress _ => "IPAddress"
  | OtherName _ _ => "OtherName"
  end.

(** The table of the alternatives of the RFC 5280 GeneralName choice, by
    context tag. *)
Definition _GENERAL_NAMES : gmap Z string :=
  list_to_map
    [(0, "otherName"); (1, "rfc822Name"); (2, "dNSName");
     (3, "x400Address"); (4, "directoryName"); (5, "ediPartyName");
     (6, "uniformResourceIdentifier"); (7, "iPAddress");
     (8, "registeredID")].

Definition lower_ascii (c : ascii) : ascii :=
  let n := nat_of_ascii c in
  if ((65 <=? n) && (n <=? 90))%nat then ascii_of_nat (n + 32) else c.

Fixpoint lower (s : string) : string :=
  match s with
  | EmptyString => EmptyString
  | String c r => String (lower_ascii c) (lower r)
  end.

(** The alternative of the table an instance stands for: the tag of the
    entry that names the class of the instance, names compared without
    regard to case (the table writes [dNSName] for the class [DNSName]);
    [None] for an instance of a class the table does not name. *)
Definition alternative_of (g : GeneralName) : option Z :=
  fst <$> List.find
            (fun entry : Z * string =>
               String.eqb (lower entry.2) (lower (class_name g)))
            (map_to_list _GENERAL_NAMES).

(** ** Objects passed as arguments *)

Inductive ReasonFlags : Type :=
| unspecified
| key_compromise
| ca_compromise
| affiliation_changed
| superseded
| cessation_of_operation
| certificate_hold
| privilege_withdrawn
| aa_compromise
| remove_from_crl.

#[export] Instance ReasonFlags_eq_dec : EqDecision ReasonFlags.
Proof. solve_decision. Defined.

(** The objects that reach the constructors below as arguments or as
    items of a container.  A frozenset is held as the list of its
    members; only its truth value, iteration and membership are used. *)
#[warnings="-register-all"]
Inductive PyObject : Type :=
| PyNone
| PyName (n : Name)
| PyGeneralName (g : GeneralName)
| PyReasonFlags (r : ReasonFlags)
| PyList (items : list PyObject)
| PyFrozenset (items : list PyObject).

(** The truth value of an object in a condition. *)
Definition truthy (o : PyObject) : bool :=
  match o with
  | PyNone => false
  | PyName n => name_truth n
  | PyGeneralName _ => true
  | PyReasonFlags _ => true
  | PyList items | PyFrozenset items =>
      match items with [] => false | _ :: _ => true end
  end.

(** The truth value of an argument that is [None] or a list. *)
Definition truthy_list (o : option (list PyObject)) : bool :=
  match o with
  | Some (_ :: _) => true
  | _ => false
  end.

Definition isinstance_GeneralName (o : PyObject) : bool :=
  match o with PyGeneralName _ => true | _ => false end.

Definition isinstance_Name (o : PyObject) : bool :=
  match o with PyName _ => true | _ => false end.

Definition isinstance_ReasonFlags (o : PyObject) : bool :=
  match o with PyReasonFlags _ => true | _ => false end.

Definition isinstance_frozenset (o : PyObject) : bool :=
  match o with PyFrozenset _ => true | _ => false end.

(** The items iterating over a container yields. *)
Definition items_of (o : PyObject) : list PyObject :=
  match o with
  | PyList items | PyFrozenset items => items
  | _ => []
  end.

(** [flag in reasons] over the items of [reasons]. *)
Definition contains_flag (flag : ReasonFlags) (items : list PyObject) : bool :=
  existsb (fun x => match x with
                    | PyReasonFlags r => bool_decide (r = flag)
                    | _ => false
                    end) items.

(** ** Extension values *)

Record KeyUsage : Type := {
  _digital_signature : bool;
  _content_commitment : bool;
  _key_encipherment : bool;
  _data_encipherment : bool;
  _key_agreement : bool;
  _key_cert_sign : bool;
  _crl_sign : bool;
  _encipher_only : bool;
  _decipher_only : bool
}.

Module KeyUsage.

Definition __init__
    (digital_signature content_commitment key_encipherment
       data_encipherment key_agreement key_cert_sign crl_sign
       encipher_only decipher_only : bool) : result KeyUsage :=
  if negb key_agreement && (encipher_only || decipher_only) then
    Raise (ValueError
             "encipher_only and decipher_only can only be true when key_agreement is true")
  else
    Ok {| _digital_signature := digital_signature;
          _content_commitment := content_commitment;
          _key_encipherment := key_encipherment;
          _data_encipherment := data_encipherment;
          _key_agreement := key_agreement;
          _key_cert_sign := key_cert_sign;
          _crl_sign := crl_sign;
          _encipher_only := encipher_only;
          _decipher_only := decipher_only |}.

Definition key_agreement (self : KeyUsage) : bool := _key_agreement self.

Definition encipher_only (self : KeyUsage) : result bool :=
  if negb (key_agreement self) then
    Raise (ValueError
             "encipher_only is undefined unless key_agreement is true")
  else Ok (_encipher_only self).

Definition decipher_only (self : KeyUsage) : result bool :=
  if negb (key_agreement self) then
    Raise (ValueError
             "decipher_only is undefined unless key_agreement is true")
  else Ok (_decipher_only self).

End KeyUsage.

Record NameConstraints : Type := {
  _permitted_subtrees : option (list PyObject);
  _excluded_subtrees : option (list PyObject)
}.

Module NameConstraints.

Definition _validate_ip_name (tree : list PyObject) : result unit :=
  if existsb (fun name =>
                match name with
                | PyGeneralName (IPAddress value) =>
                    negb (is_ip_network value)
                | _ => false
                end) tree
  then Raise (TypeError
                "IPAddress name constraints must be an IPv4Network or IPv6Network object")
  else Ok tt.

(** The block run for one subtree argument when it is not [None]. *)
Definition check_subtrees (msg : string) (subtrees : option (list PyObject))
  : result unit :=
  match subtrees with
  | None => Ok tt
  | Some tree =>
      if negb (forallb isinstance_GeneralName tree) then
        Raise (TypeError msg)
      else _validate_ip_name tree
  end.

Definition __init__ (permitted_subtrees excluded_subtrees
                     : option (list PyObject)) : result NameConstraints :=
  _ ← check_subtrees
        "permitted_subtrees must be a list of GeneralName objects or None"
        permitted_subtrees;
  _ ← check_subtrees
        "excluded_subtrees must be a list of GeneralName objects or None"
        excluded_subtrees;
  match permitted_subtrees, excluded_subtrees with
  | None, None =>
      Raise (ValueError
               "At least one of permitted_subtrees and excluded_subtrees must not be None")
  | _, _ =>
      Ok {| _permitted_subtrees := permitted_subtrees;
            _excluded_subtrees := excluded_subtrees |}
  end.

End NameConstraints.

Record DistributionPoint : Type := {
  _full_name : option (list PyObject);
  _relative_name : PyObject;
  _reasons : PyObject;
  _crl_issuer : option (list PyObject)
}.

Module DistributionPoint.

(** The condition [not isinstance(reasons, frozenset) or not
    all(isinstance(x, ReasonFlags) for x in reasons)]. *)
Definition not_frozenset_of_flags (reasons : PyObject) : bool :=
  negb (isinstance_frozenset reasons)
  || negb (forallb isinstance_ReasonFlags (items_of reasons)).

(** The condition [ReasonFlags.unspecified in reasons or
    ReasonFlags.remove_from_crl in reasons]. *)
Definition has_invalid_reason (reasons : PyObject) : bool :=
  contains_flag unspecified (items_of reasons)
  || contains_flag remove_from_crl (items_of reasons).

Definition all_general_names (names : option (list PyObject)) : bool :=
  match names with
  | Some items => forallb isinstance_GeneralName items
  | None => true
  end.

Definition __init__ (full_name : option (list PyObject))
    (relative_name : PyObject) (reasons : PyObject)
    (crl_issuer : option (list PyObject)) : result DistributionPoint :=
  if truthy_list full_name && truthy relative_name then
    Raise (ValueError
             "You cannot provide both full_name and relative_name, at least one must be None.")
  else if truthy_list full_name && negb (all_general_names full_name) then
    Raise (TypeError "full_name must be a list of GeneralName objects")
  else if truthy relative_name && negb (isinstance_Name relative_name) then
    Raise (TypeError "relative_name must be a Name")
  else if truthy_list crl_issuer && negb (all_general_names crl_issuer) then
    Raise (TypeError "crl_issuer must be None or a list of general names")
  else if truthy reasons && not_frozenset_of_flags reasons then
    Raise (TypeError "reasons must be None or frozenset of ReasonFlags")
  else if truthy reasons && has_invalid_reason reasons then
    Raise (ValueError
             "unspecified and remove_from_crl are not valid reasons in a DistributionPoint")
  else if truthy reasons && negb (truthy_list crl_issuer)
          && negb (truthy_list full_name || truthy relative_name) then
    Raise (ValueError
             "You must supply crl_issuer, full_name, or relative_name when reasons is not None")
  else
    Ok {| _full_name := full_name;
          _relative_name := relative_name;
          _reasons := reasons;
          _crl_issuer := crl_issuer |}.

End DistributionPoint.

Record NoticeReference : Type := {
  _organization : option string;
  _notice_numbers : list Z
}.

Record UserNotice : Type := {
  _notice_reference : option NoticeReference;
  _explicit_text : option string
}.

Record PolicyInformation : Type := {
  _policy_identifier : ObjectIdentifier;
  _policy_qualifiers : option (list (string + UserNotice))
}.

Record AccessDescription : Type := {
  _access_method : ObjectIdentifier;
  _access_location : GeneralName
}.

(** Modelled from the spec: [ExtensionOID] (cryptography/x509/oid.py) is
    not under src/.  The spec gives each variant "its own fixed OID as a
    class-level constant"; the dotted strings are the assignments of
    RFC 5280 and RFC 6960. *)
Module ExtensionOID.
Definition SUBJECT_KEY_IDENTIFIER := {| dotted_string := "2.5.29.14" |}.
Definition KEY_USAGE := {| dotted_string := "2.5.29.15" |}.
Definition SUBJECT_ALTERNATIVE_NAME := {| dotted_string := "2.5.29.17" |}.
Definition ISSUER_ALTERNATIVE_NAME := {| dotted_string := "2.5.29.18" |}.
Definition BASIC_CONSTRAINTS := {| dotted_string := "2.5.29.19" |}.
Definition NAME_CONSTRAINTS := {| dotted_string := "2.5.29.30" |}.
Definition CRL_DISTRIBUTION_POINTS := {| dotted_string := "2.5.29.31" |}.
Definition CERTIFICATE_POLICIES := {| dotted_string := "2.5.29.32" |}.
Definition AUTHORITY_KEY_IDENTIFIER := {| dotted_string := "2.5.29.35" |}.
Definition EXTENDED_KEY_USAGE := {| dotted_string := "2.5.29.37" |}.
Definition INHIBIT_ANY_POLICY := {| dotted_string := "2.5.29.54" |}.
Definition AUTHORITY_INFORMATION_ACCESS :=
  {| dotted_string := "1.3.6.1.5.5.7.1.1" |}.
Definition OCSP_NO_CHECK := {| dotted_string := "1.3.6.1.5.5.7.48.1.5" |}.
End ExtensionOID.

(** The instances of the classes registered on the [ExtensionType]
    interface, each with its instance attributes. *)
Inductive ExtensionType : Type :=
| ExtendedKeyUsageValue (usages : list ObjectIdentifier)
| OCSPNoCheckValue
| BasicConstraintsValue (ca : bool) (path_length : option Z)
| KeyUsageValue (v : KeyUsage)
| AuthorityInformationAccessValue (descriptions : list AccessDescription)
| CertificatePoliciesValue (policies : list PolicyInformation)
| SubjectKeyIdentifierValue (digest : bytes)
| NameConstraintsValue (v : NameConstraints)
| CRLDistributionPointsValue (distribution_points : list DistributionPoint)
| InhibitAnyPolicyValue (skip_certs : Z)
| SubjectAlternativeNameValue (general_names : list GeneralName)
| IssuerAlternativeNameValue (general_names : list GeneralName)
| AuthorityKeyIdentifierValue (key_identifier : option bytes)
    (authority_cert_issuer : option (list GeneralName))
    (authority_cert_serial_number : option Z).

(** The class attribute [oid] of an extension value. *)
Definition oid (extension : ExtensionType) : ObjectIdentifier :=
  match extension with
  | ExtendedKeyUsageValue _ => ExtensionOID.EXTENDED_KEY_USAGE
  | OCSPNoCheckValue => ExtensionOID.OCSP_NO_CHECK
  | BasicConstraintsValue _ _ => ExtensionOID.BASIC_CONSTRAINTS
  | KeyUsageValue _ => ExtensionOID.KEY_USAGE
  | AuthorityInformationAccessValue _ =>
      ExtensionOID.AUTHORITY_INFORMATION_ACCESS
  | CertificatePoliciesValue _ => ExtensionOID.CERTIFICATE_POLICIES
  | SubjectKeyIdentifierValue _ => ExtensionOID.SUBJECT_KEY_IDENTIFIER
  | NameConstraintsValue _ => ExtensionOID.NAME_CONSTRAINTS
  | CRLDistributionPointsValue _ => ExtensionOID.CRL_DISTRIBUTION_POINTS
  | InhibitAnyPolicyValue _ => ExtensionOID.INHIBIT_ANY_POLICY
  | SubjectAlternativeNameValue _ => ExtensionOID.SUBJECT_ALTERNATIVE_NAME
  | IssuerAlternativeNameValue _ => ExtensionOID.ISSUER_ALTERNATIVE_NAME
  | AuthorityKeyIdentifierValue _ _ _ => ExtensionOID.AUTHORITY_KEY_IDENTIFIER
  end.

Record Extension : Type := {
  _oid : ObjectIdentifier;
  _critical : bool;
  _value : ExtensionType
}.

(** ** The object store

    Builders and the lists of extensions they refer to are objects with
    an identity: a builder holds a reference to its list, and several
    builders may hold the same reference. *)

Definition loc : Type := positive.

Record CertificateBuilder : Type := {
  _version : Version;
  _issuer_name : option Name;
  _subject_name : option Name;
  _public_key : option PublicKey;
  _serial_number : option Z;
  _not_valid_before : option datetime;
  _not_valid_after : option datetime;
  _extensions : loc
}.

(** The attributes [_subject_name] and [_extensions] of a
    [CertificateSigningRequestBuilder]. *)
Record CertificateSigningRequestBuilder : Type := {
  csr_subject_name : option Name;
  csr_extensions : loc
}.

Inductive object : Type :=
| ListObject (items : list Extension)
| CertificateBuilderObject (attrs : CertificateBuilder)
| CertificateSigningRequestBuilderObject
    (attrs : CertificateSigningRequestBuilder).

(** Opaque values of the collaborators. *)
Record PrivateKey : Type := { private_key_handle : Z }.
Record HashAlgorithm : Type := { algorithm_name : string }.
Record Artifact : Type := { artifact_encoding : bytes }.

(** A call made on the signing backend. *)
Inductive backend_call : Type :=
| create_x509_certificate_call
    (builder : loc) (private_key : PrivateKey) (algorithm : HashAlgorithm)
| create_x509_csr_call
    (builder : loc) (private_key : PrivateKey) (algorithm : HashAlgorithm).

(** The signing backend: what each of its two operations returns and
    does to the store. *)
Record Backend : Type := {
  create_x509_certificate :
    loc -> PrivateKey -> HashAlgorithm -> gmap loc object ->
    result Artifact * gmap loc object;
  create_x509_csr :
    loc -> PrivateKey -> HashAlgorithm -> gmap loc object ->
    result Artifact * gmap loc object
}.

(** The state a call runs in: the store and the calls made on the backend
    so far. *)
Record state : Type := {
  heap : gmap loc object;
  backend_calls : list backend_call
}.

(** A computation that reads and extends the store and returns or
    raises. *)
Definition M (A : Type) : Type := state -> result A * state.

#[export] Instance M_ret : MRet M := fun A a σ => (Ok a, σ).
#[export] Instance M_bind : MBind M := fun A B k m σ =>
  match m σ with
  | (Ok a, σ') => k a σ'
  | (Raise e, σ') => (Raise e, σ')
  end.

Definition raise {A : Type} (e : exn) : M A := fun σ => (Raise e, σ).

(** Creation of an object at an unused location. *)
Definition alloc (o : object) : M loc := fun σ =>
  let l := fresh (dom (heap σ)) in
  (Ok l, {| heap := <[l := o]> (heap σ); backend_calls := backend_calls σ |}).

Definition read_list (l : loc) : M (list Extension) := fun σ =>
  match heap σ !! l with
  | Some (ListObject items) => (Ok items, σ)
  | _ => (Raise (TypeError "object is not iterable"), σ)
  end.

Definition call_backend (c : backend_call)
    (run : gmap loc object -> result Artifact * gmap loc object)
  : M Artifact := fun σ =>
  let '(r, h) := run (heap σ) in
  (r, {| heap := h; backend_calls := backend_calls σ ++ [c] |}).

(** The loop [for e in extensions: if e.oid == oid: raise ...]. *)
Fixpoint check_not_set (extensions : list Extension) (oid : ObjectIdentifier)
  : result unit :=
  match extensions with
  | [] => Ok tt
  | e :: rest =>
      if oid_eqb (_oid e) oid then
        Raise (ValueError "This extension has already been set.")
      else check_not_set rest oid
  end.

Definition lift {A : Type} (r : result A) : M A := fun σ => (r, σ).

Definition is_set {A : Type} (field : option A) : bool :=
  match field with Some _ => true | None => false end.

(** ** CertificateSigningRequestBuilder

    Arguments are typed: a call with an argument of another Python type
    raises [TypeError] before anything else and is not part of the
    model. *)
Module CertificateSigningRequestBuilder.

(** The object the default argument [extensions=[]] denotes. *)
Definition default_extensions : loc := 1%positive.

(** [CertificateSigningRequestBuilder(...)]: a new object with these
    attributes. *)
Definition __init__ (subject_name : option Name) (extensions : loc)
  : M loc :=
  alloc (CertificateSigningRequestBuilderObject
           {| csr_subject_name := subject_name;
              csr_extensions := extensions |}).

Definition attrs (self : loc) : M CertificateSigningRequestBuilder :=
  fun σ =>
    match heap σ !! self with
    | Some (CertificateSigningRequestBuilderObject b) => (Ok b, σ)
    | _ => (Raise (TypeError "not a CertificateSigningRequestBuilder"), σ)
    end.

Definition subject_name (self : loc) (name : Name) : M loc :=
  b ← attrs self;
  if is_set (csr_subject_name b) then
    raise (ValueError "The subject name may only be set once.")
  else __init__ (Some name) (csr_extensions b).

Definition add_extension (self : loc) (extension : ExtensionType)
    (critical : bool) : M loc :=
  b ← attrs self;
  let extension :=
    {| _oid := oid extension; _critical := critical;
       _value := extension |} in
  extensions ← read_list (csr_extensions b);
  _ ← lift (check_not_set extensions (_oid extension));
  extensions' ← alloc (ListObject (extensions ++ [extension]));
  __init__ (csr_subject_name b) extensions'.

Definition sign (self : loc) (private_key : PrivateKey)
    (algorithm : HashAlgorithm) (backend : Backend) : M Artifact :=
  b ← attrs self;
  if negb (is_set (csr_subject_name b)) then
    raise (ValueError "A CertificateSigningRequest must have a subject")
  else
    call_backend (create_x509_csr_call self private_key algorithm)
                 (create_x509_csr backend self private_key algorithm).

End CertificateSigningRequestBuilder.

(** ** CertificateBuilder *)
Module CertificateBuilder.

(** The object the default argument [extensions=[]] denotes. *)
Definition default_extensions : loc := 2%positive.

(** The attributes [__init__] assigns. *)
Definition instance (issuer_name subject_name : option Name)
    (public_key : option PublicKey) (serial_number : option Z)
    (not_valid_before not_valid_after : option datetime)
    (extensions : loc) : CertificateBuilder :=
  {| _version := v3;
     _issuer_name := issuer_name;
     _subject_name := subject_name;
     _public_key := public_key;
     _serial_number := serial_number;
     _not_valid_before := not_valid_before;
     _not_valid_after := not_valid_after;
     _extensions := extensions |}.

(** [CertificateBuilder(...)]: a new object with these attributes. *)
Definition __init__ (issuer_name subject_name : option Name)
    (public_key : option PublicKey) (serial_number : option Z)
    (not_valid_before not_valid_after : option datetime)
    (extensions : loc) : M loc :=
  alloc (CertificateBuilderObject
           (instance issuer_name subject_name public_key serial_number
                     not_valid_before not_valid_after extensions)).

Definition attrs (self : loc) : M CertificateBuilder := fun σ =>
  match heap σ !! self with
  | Some (CertificateBuilderObject b) => (Ok b, σ)
  | _ => (Raise (TypeError "not a CertificateBuilder"), σ)
  end.

Definition issuer_name (self : loc) (name : Name) : M loc :=
  b ← attrs self;
  if is_set (_issuer_name b) then
    raise (ValueError "The issuer name may only be set once.")
  else
    __init__ (Some name) (_subject_name b) (_public_key b)
             (_serial_number b) (_not_valid_before b)
             (_not_valid_after b) (_extensions b).

Definition subject_name (self : loc) (name : Name) : M loc :=
  b ← attrs self;
  if is_set (_subject_name b) then
    raise (ValueError "The subject name may only be set once.")
  else
    __init__ (_issuer_name b) (Some name) (_public_key b)
             (_serial_number b) (_not_valid_before b)
             (_not_valid_after b) (_extensions b).

Definition public_key (self : loc) (key : PublicKey) : M loc :=
  b ← attrs self;
  match key_class_of key with
  | OtherKeyClass =>
      raise (TypeError
               "Expecting one of DSAPublicKey, RSAPublicKey, or EllipticCurvePublicKey.")
  | _ =>
      if is_set (_public_key b) then
        raise (ValueError "The public key may only be set once.")
      else
        __init__ (_issuer_name b) (_subject_name b) (Some key)
                 (_serial_number b) (_not_valid_before b)
                 (_not_valid_after b) (_extensions b)
  end.

Definition serial_number (self : loc) (number : Z) : M loc :=
  b ← attrs self;
  if is_set (_serial_number b) then
    raise (ValueError "The serial number may only be set once.")
  else if number <? 0 then
    raise (ValueError "The serial number should be non-negative.")
  else if 160 <? bit_length number then
    raise (ValueError
             "The serial number should not be more than 160 bits.")
  else
    __init__ (_issuer_name b) (_subject_name b) (_public_key b)
             (Some number) (_not_valid_before b)
             (_not_valid_after b) (_extensions b).

Definition not_valid_before (self : loc) (time : datetime) : M loc :=
  b ← attrs self;
  if is_set (_not_valid_before b) then
    raise (ValueError "The not valid before may only be set once.")
  else
    not_after ← lift (datetime_le time _UNIX_EPOCH);
    if (not_after : bool) then
      raise (ValueError
               "The not valid before date must be after the unix epoch (1970 January 1).")
    else
      __init__ (_issuer_name b) (_subject_name b) (_public_key b)
               (_serial_number b) (Some time)
               (_not_valid_after b) (_extensions b).

Definition not_valid_after (self : loc) (time : datetime) : M loc :=
  b ← attrs self;
  if is_set (_not_valid_after b) then
    raise (ValueError "The not valid after may only be set once.")
  else
    not_after ← lift (datetime_le time _UNIX_EPOCH);
    if (not_after : bool) then
      raise (ValueError
               "The not valid after date must be after the unix epoch (1970 January 1).")
    else
      __init__ (_issuer_name b) (_subject_name b) (_public_key b)
               (_serial_number b) (_not_valid_before b)
               (Some time) (_extensions b).

Definition add_extension (self : loc) (extension : ExtensionType)
    (critical : bool) : M loc :=
  b ← attrs self;
  let extension :=
    {| _oid := oid extension; _critical := critical;
       _value := extension |} in
  extensions ← read_list (_extensions b);
  _ ← lift (check_not_set extensions (_oid extension));
  extensions' ← alloc (ListObject (extensions ++ [extension]));
  __init__ (_issuer_name b) (_subject_name b) (_public_key b)
           (_serial_number b) (_not_valid_before b)
           (_not_valid_after b) extensions'.

Definition sign (self : loc) (private_key : PrivateKey)
    (algorithm : HashAlgorithm) (backend : Backend) : M Artifact :=
  b ← attrs self;
  if negb (is_set (_subject_name b)) then
    raise (ValueError "A certificate must have a subject name")
  else if negb (is_set (_issuer_name b)) then
    raise (ValueError "A certificate must have an issuer name")
  else if negb (is_set (_serial_number b)) then
    raise (ValueError "A certificate must have a serial number")
  else if negb (is_set (_not_valid_before b)) then
    raise (ValueError "A certificate must have a not valid before time")
  else if negb (is_set (_not_valid_after b)) then
    raise (ValueError "A certificate must have a not valid after time")
  else if negb (is_set (_public_key b)) then
    raise (ValueError "A certificate must have a public key")
  else
    call_backend (create_x509_certificate_call self private_key algorithm)
                 (create_x509_certificate backend self private_key
                                          algorithm).

End CertificateBuilder.

(** The store once the module is loaded: the two lists the default
    arguments denote, and no backend call made. *)
Definition initial_state : state := {|
  heap :=
    <[CertificateBuilder.default_extensions := ListObject []]>
      (<[CertificateSigningRequestBuilder.default_extensions
         := ListObject []]> ∅);
  backend_calls := []
|}.

(** ** Vocabulary of the statements *)

(** A subtree argument the constructor accepts: [None], or a list of
    general names in which every [IPAddress] wraps a network. *)
Definition valid_subtrees (subtrees : option (list PyObject)) : Prop :=
  match subtrees with
  | None => True
  | Some tree =>
      forall name, In name tree ->
        exists g, name = PyGeneralName g /\
                  forall value, g = IPAddress value ->
                                is_ip_network value = true
  end.

(** A [reasons] argument as the constructor of [DistributionPoint]
    requires a non-empty one to be: a frozenset of [ReasonFlags] members
    with neither [unspecified] nor [remove_from_crl]. *)
Definition valid_reasons (reasons : PyObject) : Prop :=
  exists items,
    reasons = PyFrozenset items /\
    (forall x, In x items ->
       exists r, x = PyReasonFlags r /\
                 r <> unspecified /\ r <> remove_from_crl).

(** What the constructor of [datetime.datetime] requires of the
    calendar fields. *)
Definition valid_datetime (t : datetime) : Prop :=
  1 <= year t <= 9999 /\ 1 <= month t <= 12 /\
  1 <= day t <= days_in_month (year t) (month t) /\
  0 <= hour t <= 23 /\ 0 <= minute t <= 59 /\ 0 <= second t <= 59 /\
  0 <= microsecond t <= 999999.

(** A datetime without a UTC offset, and one with. *)
Definition naive (t : datetime) : Prop := utcoffset t = None.

Definition aware (t : datetime) : Prop :=
  exists offset, utcoffset t = Some offset.

(** The calendar fields of [t] read a time before 1970, or the first
    instant of 1970 itself. *)
Definition not_after_1970 (t : datetime) : Prop :=
  year t < 1970 \/
  (year t = 1970 /\ month t = 1 /\ day t = 1 /\
   hour t = 0 /\ minute t = 0 /\ second t = 0 /\ microsecond t = 0).

(** [b'] has the attributes of [b], but for the serial number and the two
    ends of the validity window, which are as given. *)
Definition updated (b b' : CertificateBuilder) (serial_number : option Z)
    (not_valid_before not_valid_after : option datetime) : Prop :=
  _version b' = v3 /\
  _issuer_name b' = _issuer_name b /\
  _subject_name b' = _subject_name b /\
  _public_key b' = _public_key b /\
  _serial_number b' = serial_number /\
  _not_valid_before b' = not_valid_before /\
  _not_valid_after b' = not_valid_after /\
  _extensions b' = _extensions b.

(** Every field [CertificateBuilder.sign] requires is set. *)
Definition complete (b : CertificateBuilder) : Prop :=
  _subject_name b <> None /\ _issuer_name b <> None /\
  _serial_number b <> None /\ _not_valid_before b <> None /\
  _not_valid_after b <> None /\ _public_key b <> None.

(** The call raised a value error and the backend was not invoked. *)
Definition raised_before_backend {A : Type} (σ : state)
    (out : result A * state) : Prop :=
  exists msg, out.1 = Raise (ValueError msg) /\
              backend_calls out.2 = backend_calls σ.

(** [σ'] keeps every object of [σ] as it is and records no further
    backend call. *)
Definition preserves (σ σ' : state) : Prop :=
  (forall l o, heap σ !! l = Some o -> heap σ' !! l = Some o) /\
  backend_calls σ' = backend_calls σ.

(** A computation that only creates objects. *)
Definition pure_call {A : Type} (m : M A) : Prop :=
  forall σ, preserves σ (m σ).2.

(** The [Extension] object [add_extension] builds from its arguments. *)
Definition extension_of (extension : ExtensionType) (critical : bool)
  : Extension :=
  {| _oid := oid extension; _critical := critical; _value := extension |}.

Definition already_set : exn :=
  ValueError "This extension has already been set.".

(** The setter calls of the two builders, with their arguments. *)
Inductive setter_call : Type :=
| Certificate_issuer_name (name : Name)
| Certificate_subject_name (name : Name)
| Certificate_public_key (key : PublicKey)
| Certificate_serial_number (number : Z)
| Certificate_not_valid_before (time : datetime)
| Certificate_not_valid_after (time : datetime)
| Certificate_add_extension (extension : ExtensionType) (critical : bool)
| CSR_subject_name (name : Name)
| CSR_add_extension (extension : ExtensionType) (critical : bool).

Definition call_setter (c : setter_call) (self : loc) : M loc :=
  match c with
  | Certificate_issuer_name name => CertificateBuilder.issuer_name self name
  | Certificate_subject_name name => CertificateBuilder.subject_name self name
  | Certificate_public_key key => CertificateBuilder.public_key self key
  | Certificate_serial_number number =>
      CertificateBuilder.serial_number self number
  | Certificate_not_valid_before time =>
      CertificateBuilder.not_valid_before self time
  | Certificate_not_valid_after time =>
      CertificateBuilder.not_valid_after self time
  | Certificate_add_extension extension critical =>
      CertificateBuilder.add_extension self extension critical
  | CSR_subject_name name =>
      CertificateSigningRequestBuilder.subject_name self name
  | CSR_add_extension extension critical =>
      CertificateSigningRequestBuilder.add_extension self extension critical
  end.

(** A chain of setter calls, each made on the builder the one before
    returned. *)
Fixpoint call_setters (cs : list setter_call) (self : loc) : M loc :=
  match cs with
  | [] => mret self
  | c :: rest => b ← call_setter c self; call_setters rest b
  end.

Definition is_builder (o : object) : Prop :=
  match o with
  | ListObject _ => False
  | CertificateBuilderObject _
  | CertificateSigningRequestBuilderObject _ => True
  end.

(** A call that only creates objects and, when it returns, returns a
    builder that did not exist before. *)
Definition returns_new_builder (m : M loc) : Prop :=
  forall σ,
    preserves σ (m σ).2 /\
    (forall new, (m σ).1 = Ok new ->
       heap σ !! new = None /\
       exists o, heap (m σ).2 !! new = Some o /\ is_builder o).

(** What can be read from a certificate builder: its attributes and the
    items of its list of extensions. *)
Definition read_certificate_builder (σ : state) (l : loc)
  : option (CertificateBuilder * list Extension) :=
  match heap σ !! l with
  | Some (CertificateBuilderObject b) =>
      match heap σ !! _extensions b with
      | Some (ListObject items) => Some (b, items)
      | _ => None
      end
  | _ => None
  end.

Definition read_csr_builder (σ : state) (l : loc)
  : option (CertificateSigningRequestBuilder * list Extension) :=
  match heap σ !! l with
  | Some (CertificateSigningRequestBuilderObject b) =>
      match heap σ !! csr_extensions b with
      | Some (ListObject items) => Some (b, items)
      | _ => None
      end
  | _ => None
  end.

(** ** Sample keys *)

(** The encoded SubjectPublicKeyInfo of an elliptic-curve key on P-256
    (the uncompressed base point): algorithm id-ecPublicKey with
    prime256v1, then a 66-octet BIT STRING. *)
Definition p256_point : bytes :=
  hex_bytes
    [0x04;
     0x6B; 0x17; 0xD1; 0xF2; 0xE1; 0x2C; 0x42; 0x47;
     0xF8; 0xBC; 0xE6; 0xE5; 0x63; 0xA4; 0x40; 0xF2;
     0x77; 0x03; 0x7D; 0x81; 0x2D; 0xEB; 0x33; 0xA0;
     0xF4; 0xA1; 0x39; 0x45; 0xD8; 0x98; 0xC2; 0x96;
     0x4F; 0xE3; 0x42; 0xE2; 0xFE; 0x1A; 0x7F; 0x9B;
     0x8E; 0xE7; 0xEB; 0x4A; 0x7C; 0x0F; 0x9E; 0x16;
     0x2B; 0xCE; 0x33; 0x57; 0x6B; 0x31; 0x5E; 0xCE;
     0xCB; 0xB6; 0x40; 0x68; 0x37; 0xBF; 0x51; 0xF5].

Definition p256_key : PublicKey := {|
  key_class_of := EllipticCurvePublicKey;
  public_bytes :=
    (hex_bytes
       [0x30; 0x59;
        0x30; 0x13;
        0x06; 0x07; 0x2A; 0x86; 0x48; 0xCE; 0x3D; 0x02; 0x01;
        0x06; 0x08; 0x2A; 0x86; 0x48; 0xCE; 0x3D; 0x03; 0x01; 0x07;
        0x03; 0x42; 0x00] ++ p256_point)
|}.

(** A well-formed encoding whose BIT STRING holds the two octets 00 01. *)
Definition leading_zero_key : PublicKey := {|
  key_class_of := OtherKeyClass;
  public_bytes :=
    hex_bytes [0x30; 0x0A;
               0x30; 0x03; 0x06; 0x01; 0x2A;
               0x03; 0x03; 0x00; 0x00; 0x01]
|}.

(** ** Sample states *)

Definition sample_name : Name :=
  {| name_attributes := [({| dotted_string := "2.5.4.3" |}, "example.com")];
     name_truth := true |}.

Definition sample_private_key : PrivateKey := {| private_key_handle := 1 |}.

Definition sample_algorithm : HashAlgorithm := {| algorithm_name := "sha256" |}.

(** A backend that returns an empty artifact and leaves the store alone. *)
Definition sample_backend : Backend := {|
  create_x509_certificate := fun _ _ _ h => (Ok {| artifact_encoding := [] |}, h);
  create_x509_csr := fun _ _ _ h => (Ok {| artifact_encoding := [] |}, h)
|}.

Definition datetime_of_date (y m d : Z) : datetime :=
  {| year := y; month := m; day := d;
     hour := 0; minute := 0; second := 0; microsecond := 0;
     tzinfo := None |}.

(** Midnight of 2020-01-01 in UTC: an aware datetime whose time zone has
    offset zero. *)
Definition utc_2020 : datetime :=
  {| year := 2020; month := 1; day := 1;
     hour := 0; minute := 0; second := 0; microsecond := 0;
     tzinfo := Some {| tz_object := 1%positive; tz_utcoffset := Some 0 |} |}.

(** [CertificateBuilder()] in the initial state: the object is created at
    location 3. *)
Definition empty_certificate_builder : state :=
  (CertificateBuilder.__init__ None None None None None None
     CertificateBuilder.default_extensions initial_state).2.

(** A certificate builder, at location 3, with every field set except the
    two ends of the validity window. *)
Definition undated_attrs : CertificateBuilder :=
  CertificateBuilder.instance (Some sample_name) (Some sample_name)
    (Some p256_key) (Some 1) None None CertificateBuilder.default_extensions.

Definition undated_certificate_builder : state :=
  (alloc (CertificateBuilderObject undated_attrs) initial_state).2.

(** [CertificateSigningRequestBuilder()] in the initial state, at
    location 3. *)
Definition empty_csr_builder : state :=
  (CertificateSigningRequestBuilder.__init__ None
     CertificateSigningRequestBuilder.default_extensions initial_state).2.

(** Two certificate builders derived from the empty one by different
    serial numbers: the first at location 4, the second at location 5. *)
Definition two_derived_builders : state :=
  ((_ ← CertificateBuilder.serial_number 3%positive 1;
    CertificateBuilder.serial_number 3%positive 2)
     empty_certificate_builder).2.

Definition sample_key_usage : KeyUsage :=
  {| _digital_signature := true; _content_commitment := false;
     _key_encipherment := false; _data_encipherment := false;
     _key_agreement := false; _key_cert_sign := false; _crl_sign := false;
     _encipher_only := false; _decipher_only := false |}.

(** * Further operations *)

(** ** Extensions *)

(** The attribute [_extensions] of an [Extensions] container. *)
Record Extensions : Type := { extensions_items : list Extension }.

(** Modelled from the spec: the text an [ObjectIdentifier] takes in a
    message is decided by cryptography/x509/oid.py, which is not under
    src/; the spec calls it a "dotted-integer sequence", and its dotted
    string stands for that text. *)
Definition oid_text (o : ObjectIdentifier) : string := dotted_string o.

Module Extensions.

Definition __init__ (extensions : list Extension) : Extensions :=
  {| extensions_items := extensions |}.

(** The loop [for ext in self: if ext.oid == oid: return ext]. *)
Fixpoint first_with_oid (items : list Extension) (oid : ObjectIdentifier)
  : option Extension :=
  match items with
  | [] => None
  | ext :: rest =>
      if oid_eqb (_oid ext) oid then Some ext else first_with_oid rest oid
  end.

Definition get_extension_for_oid (self : Extensions) (oid : ObjectIdentifier)
  : result Extension :=
  match first_with_oid (extensions_items self) oid with
  | Some ext => Ok ext
  | None =>
      Raise (ExtensionNotFound
               (String.append "No "
                  (String.append (oid_text oid) " extension was found"))
               oid)
  end.

Definition __len__ (self : Extensions) : nat :=
  length (extensions_items self).

End Extensions.

(** ** BasicConstraints, InhibitAnyPolicy

    [ca], [path_length] and [skip_certs] are typed: a call with a value of
    another Python type raises [TypeError] and is not part of the model. *)
Module BasicConstraints.

Definition __init__ (ca : bool) (path_length : option Z)
  : result ExtensionType :=
  if is_set path_length && negb ca then
    Raise (ValueError "path_length must be None when ca is False")
  else if match path_length with
          | Some n => n <? 0
          | None => false
          end then
    Raise (TypeError "path_length must be a non-negative integer or None")
  else Ok (BasicConstraintsValue ca path_length).

End BasicConstraints.

Module InhibitAnyPolicy.

Definition __init__ (skip_certs : Z) : result ExtensionType :=
  if skip_certs <? 0 then
    Raise (ValueError "skip_certs must be a non-negative integer")
  else Ok (InhibitAnyPolicyValue skip_certs).

End InhibitAnyPolicy.

(** ** SubjectKeyIdentifier, AuthorityKeyIdentifier *)

Module SubjectKeyIdentifier.

Definition __init__ (digest : bytes) : ExtensionType :=
  SubjectKeyIdentifierValue digest.

Definition from_public_key {decoder : Decoder} (public_key : PublicKey)
  : result ExtensionType :=
  digest ← _key_identifier_from_public_key public_key;
  Ok (__init__ digest).

End SubjectKeyIdentifier.

(** The truth value of an argument that is [None] or an integer. *)
Definition truthy_int (n : option Z) : bool :=
  match n with
  | Some z => negb (z =? 0)
  | None => false
  end.

(** The general names among the items of a list. *)
Definition general_names_of (items : list PyObject) : list GeneralName :=
  omap (fun o => match o with
                 | PyGeneralName g => Some g
                 | _ => None
                 end) items.

Module AuthorityKeyIdentifier.

(** [authority_cert_issuer] is [None] or a list;
    [authority_cert_serial_number] is [None] or an integer. *)
Definition __init__ (key_identifier : option bytes)
    (authority_cert_issuer : option (list PyObject))
    (authority_cert_serial_number : option Z) : result ExtensionType :=
  let made :=
    AuthorityKeyIdentifierValue key_identifier
      (general_names_of <$> authority_cert_issuer)
      authority_cert_serial_number in
  if truthy_list authority_cert_issuer
     || truthy_int authority_cert_serial_number then
    if negb (truthy_list authority_cert_issuer)
       || negb (truthy_int authority_cert_serial_number) then
      Raise (ValueError
               "authority_cert_issuer and authority_cert_serial_number must both be present or both None")
    else if negb (forallb isinstance_GeneralName
                    (default [] authority_cert_issuer)) then
      Raise (TypeError
               "authority_cert_issuer must be a list of GeneralName objects")
    else Ok made
  else Ok made.

Definition from_issuer_public_key {decoder : Decoder}
    (public_key : PublicKey) : result ExtensionType :=
  digest ← _key_identifier_from_public_key public_key;
  __init__ (Some digest) None None.

End AuthorityKeyIdentifier.

(** ** GeneralNames *)

(** The attribute [_general_names] once the constructor has checked its
    items. *)
Record GeneralNames : Type := { _general_names : list GeneralName }.

Module GeneralNames.

Definition __init__ (general_names : list PyObject) : result GeneralNames :=
  if negb (forallb isinstance_GeneralName general_names) then
    Raise (TypeError
             "Every item in the general_names list must be an object conforming to the GeneralName interface")
  else Ok {| _general_names := general_names_of general_names |}.

Definition __len__ (self : GeneralNames) : nat :=
  length (_general_names self).

End GeneralNames.

Module SubjectAlternativeName.

Definition __init__ (general_names : list PyObject) : result ExtensionType :=
  names ← GeneralNames.__init__ general_names;
  Ok (SubjectAlternativeNameValue (_general_names names)).

End SubjectAlternativeName.

Module IssuerAlternativeName.

Definition __init__ (general_names : list PyObject) : result ExtensionType :=
  names ← GeneralNames.__init__ general_names;
  Ok (IssuerAlternativeNameValue (_general_names names)).

End IssuerAlternativeName.

(** ** Vocabulary of the further statements *)

(** An argument that is a list with at least one item. *)
Definition supplied (names : option (list PyObject)) : Prop :=
  exists first others, names = Some (first :: others).

(** An argument that is [None] or a list whose items are all instances
    of the [GeneralName] family. *)
Definition all_names (names : option (list PyObject)) : Prop :=
  forall items, names = Some items ->
    Forall (fun item => exists g, item = PyGeneralName g) items.

(** The byte string without its leading zero bytes. *)
Fixpoint strip_zeros (l : bytes) : bytes :=
  match l with
  | [] => []
  | b :: r => if Z_of_byte b =? 0 then strip_zeros r else l
  end.

(** The six fields of a certificate builder that a setter assigns. *)
Inductive builder_field : Type :=
| IssuerNameField
| SubjectNameField
| PublicKeyField
| SerialNumberField
| NotValidBeforeField
| NotValidAfterField.

#[export] Instance builder_field_eq_dec : EqDecision builder_field.
Proof. solve_decision. Defined.

Inductive field_value : Type :=
| FieldName (n : Name)
| FieldKey (k : PublicKey)
| FieldInt (z : Z)
| FieldTime (t : datetime).

(** The value of a field of a builder, [None] when it is unset. *)
Definition get_field (f : builder_field) (b : CertificateBuilder)
  : option field_value :=
  match f with
  | IssuerNameField => FieldName <$> _issuer_name b
  | SubjectNameField => FieldName <$> _subject_name b
  | PublicKeyField => FieldKey <$> _public_key b
  | SerialNumberField => FieldInt <$> _serial_number b
  | NotValidBeforeField => FieldTime <$> _not_valid_before b
  | NotValidAfterField => FieldTime <$> _not_valid_after b
  end.

(** The field a certificate setter call assigns, with the value given. *)
Definition target (c : setter_call) : option (builder_field * field_value) :=
  match c with
  | Certificate_issuer_name name => Some (IssuerNameField, FieldName name)
  | Certificate_subject_name name => Some (SubjectNameField, FieldName name)
  | Certificate_public_key key => Some (PublicKeyField, FieldKey key)
  | Certificate_serial_number number =>
      Some (SerialNumberField, FieldInt number)
  | Certificate_not_valid_before time =>
      Some (NotValidBeforeField, FieldTime time)
  | Certificate_not_valid_after time =>
      Some (NotValidAfterField, FieldTime time)
  | _ => None
  end.

(** The extension an [add_extension] call appends. *)
Definition added (c : setter_call) : list Extension :=
  match c with
  | Certificate_add_extension extension critical
  | CSR_add_extension extension critical => [extension_of extension critical]
  | _ => []
  end.

Definition added_extensions (cs : list setter_call) : list Extension :=
  concat (map added cs).

Definition is_certificate_call (c : setter_call) : Prop :=
  match c with
  | CSR_subject_name _ | CSR_add_extension _ _ => False
  | _ => True
  end.

Definition is_csr_call (c : setter_call) : Prop :=
  match c with
  | CSR_subject_name _ | CSR_add_extension _ _ => True
  | _ => False
  end.

(** The value given by the first call of a chain that assigns [f]. *)
Fixpoint first_arg (f : builder_field) (cs : list setter_call)
  : option field_value :=
  match cs with
  | [] => None
  | c :: rest =>
      match target c with
      | Some (f', v) =>
          if bool_decide (f' = f) then Some v else first_arg f rest
      | None => first_arg f rest
      end
  end.

(** The number of calls of a chain that assign [f]. *)
Fixpoint assignments (f : builder_field) (cs : list setter_call) : nat :=
  match cs with
  | [] => O
  | c :: rest =>
      match target c with
      | Some (f', _) =>
          if bool_decide (f' = f) then S (assignments f rest)
          else assignments f rest
      | None => assignments f rest
      end
  end.

(** The name given by the first [subject_name] call of a chain on a CSR
    builder. *)
Fixpoint first_csr_subject (cs : list setter_call) : option Name :=
  match cs with
  | [] => None
  | CSR_subject_name name :: _ => Some name
  | _ :: rest => first_csr_subject rest
  end.

(** A computation that leaves the state as it is. *)
Definition read_only {A : Type} (m : M A) : Prop :=
  forall σ, (m σ).2 = σ.

(** A computation that always returns. *)
Definition never_raises {A : Type} (m : M A) : Prop :=
  forall σ, exists a, (m σ).1 = Ok a.

(** A computation that, when it raises, has left the state as it was. *)
Definition atomic {A : Type} (m : M A) : Prop :=
  forall σ e, (m σ).1 = Raise e -> (m σ).2 = σ.

(** The OIDs of a list of extensions are pairwise distinct. *)
Definition unique_oids (extensions : list Extension) : Prop :=
  NoDup (map _oid extensions).

(** What one certificate setter call does to what is read from the
    builder: it raises and leaves the state alone, or returns a new
    builder that reads as the old one with one field or one extension
    more. *)
Definition step_result (c : setter_call) (σ : state)
    (b : CertificateBuilder) (exts : list Extension)
    (out : result loc * state) : Prop :=
  (exists e, out = (Raise e, σ)) \/
  (exists new b',
      out.1 = Ok new /\ heap σ !! new = None /\ preserves σ out.2 /\
      read_certificate_builder out.2 new = Some (b', exts ++ added c) /\
      (forall f,
          get_field f b' =
          match target c with
          | Some (f', v) =>
              if bool_decide (f' = f) then Some v else get_field f b
          | None => get_field f b
          end) /\
      (forall f v, target c = Some (f, v) -> get_field f b = None) /\
      (forall e x, In e exts -> In x (added c) -> _oid e <> _oid x)).

(** ** Further samples *)

(** A well-formed encoding whose BIT STRING holds the single octet 01. *)
Definition one_octet_key : PublicKey := {|
  key_class_of := OtherKeyClass;
  public_bytes :=
    hex_bytes [0x30; 0x09;
               0x30; 0x03; 0x06; 0x01; 0x2A;
               0x03; 0x02; 0x00; 0x01]
|}.

Definition sample_extensions : Extensions :=
  Extensions.__init__
    [extension_of (BasicConstraintsValue true (Some 0)) true;
     extension_of (KeyUsageValue sample_key_usage) true;
     extension_of (SubjectKeyIdentifierValue []) false].

Definition empty_attrs : CertificateBuilder :=
  CertificateBuilder.instance None None None None None None
    CertificateBuilder.default_extensions.

(** Eight setter calls on the empty certificate builder, the six fields in
    no particular order and two extensions between them. *)
Definition sample_chain : list setter_call :=
  [Certificate_serial_number 7;
   Certificate_add_extension (BasicConstraintsValue true None) true;
   Certificate_public_key p256_key;
   Certificate_not_valid_after (datetime_of_date 2030 1 1);
   Certificate_subject_name sample_name;
   Certificate_add_extension (KeyUsageValue sample_key_usage) false;
   Certificate_issuer_name sample_name;
   Certificate_not_valid_before (datetime_of_date 2020 1 1)].

Definition sample_csr_chain : list setter_call :=
  [CSR_add_extension (BasicConstraintsValue false None) true;
   CSR_subject_name sample_name;
   CSR_add_extension (KeyUsageValue sample_key_usage) false].

(** * Properties *)

(** ** SHA-1 test vectors *)

(** FIPS 180 test vector: SHA-1 of the three bytes "abc". *)
Example sha1_abc :
  SHA1.digest (hex_bytes [0x61; 0x62; 0x63]) =
  hex_bytes [0xa9; 0x99; 0x3e; 0x36; 0x47; 0x06; 0x81; 0x6a; 0xba; 0x3e;
             0x25; 0x71; 0x78; 0x50; 0xc2; 0x6c; 0x9c; 0xd0; 0xd8; 0x9d].
Proof. vm_compute. reflexivity. Qed.

(** FIPS 180 test vector of 56 bytes, padded to two blocks. *)
Example sha1_two_blocks :
  SHA1.digest
    (list_byte_of_string
       "abcdbcdecdefdefgefghfghighijhijkijkljklmklmnlmnomnopnopq") =
  hex_bytes [0x84; 0x98; 0x3e; 0x44; 0x1c; 0x3b; 0xd2; 0x6e; 0xba; 0xae;
             0x4a; 0xa1; 0xf9; 0x51; 0x29; 0xe5; 0xe5; 0x46; 0x70; 0xf1].
Proof. vm_compute. reflexivity. Qed.

(** FIPS 180 test vector: SHA-1 of the empty message. *)
Example sha1_empty :
  SHA1.digest [] =
  hex_bytes [0xda; 0x39; 0xa3; 0xee; 0x5e; 0x6b; 0x4b; 0x0d; 0x32; 0x55;
             0xbf; 0xef; 0x95; 0x60; 0x18; 0x90; 0xaf; 0xd8; 0x07; 0x09].
Proof. vm_compute. reflexivity. Qed.

(** ** Bytes, bits and integers *)

Lemma Z_of_byte_range (b : byte) : 0 <= Z_of_byte b < 256.
Proof. destruct b; vm_compute; split; congruence. Qed.

Lemma byte_of_Z_of_byte (b : byte) : byte_of_Z (Z_of_byte b) = b.
Proof. destruct b; reflexivity. Qed.

Lemma Z_of_byte_zero (b : byte) : Z_of_byte b = 0 -> b = x00.
Proof. destruct b; vm_compute; congruence. Qed.

Lemma bytes_to_int_bound (l : bytes) :
  0 <= bytes_to_int l < 256 ^ Z.of_nat (length l).
Proof.
  induction l as [|b r IH]; simpl length; cbn [bytes_to_int].
  - simpl. lia.
  - rewrite Nat2Z.inj_succ, Z.pow_succ_r by lia.
    pose proof (Z_of_byte_range b). nia.
Qed.

Lemma shift_or_bit (acc : Z) (bit : bool) :
  Z.lor (Z.shiftl acc 1) (Z.b2z bit) = 2 * acc + Z.b2z bit.
Proof.
  rewrite Z.shiftl_mul_pow2 by lia. change (2 ^ 1) with 2.
  assert (H : Z.land (acc * 2) (Z.b2z bit) = 0).
  { destruct bit; simpl Z.b2z; [|apply Z.land_0_r].
    change 1 with (Z.ones 1). rewrite Z.land_ones by lia.
    change (2 ^ 1) with 2. apply Z.mod_mul. lia. }
  rewrite <- Z.lxor_lor, <- Z.add_nocarry_lxor by exact H. lia.
Qed.

Lemma byte_bits_value (b : byte) :
  Z_of_byte b =
  fold_left (fun acc bit => 2 * acc + Z.b2z bit) (bits_of_byte b) 0.
Proof. destruct b; reflexivity. Qed.

Lemma fold_bits_acc (bits : list bool) (acc : Z) :
  fold_left (fun a bit => 2 * a + Z.b2z bit) bits acc =
  acc * 2 ^ Z.of_nat (length bits)
  + fold_left (fun a bit => 2 * a + Z.b2z bit) bits 0.
Proof.
  revert acc. induction bits as [|x bits IH]; intros acc.
  - simpl. lia.
  - cbn [fold_left]. rewrite IH, (IH (2 * 0 + Z.b2z x)).
    simpl length. rewrite Nat2Z.inj_succ, Z.pow_succ_r by lia. ring.
Qed.

Lemma bits_to_int_fold (bits : list bool) (acc : Z) :
  fold_left (fun a bit => Z.lor (Z.shiftl a 1) (Z.b2z bit)) bits acc =
  fold_left (fun a bit => 2 * a + Z.b2z bit) bits acc.
Proof.
  revert acc. induction bits as [|x bits IH]; intros acc; [reflexivity|].
  cbn [fold_left]. rewrite shift_or_bit. apply IH.
Qed.

Lemma fold_bits_of_bytes (l : bytes) (acc : Z) :
  fold_left (fun a bit => 2 * a + Z.b2z bit) (bits_of_bytes l) acc =
  acc * 256 ^ Z.of_nat (length l) + bytes_to_int l.
Proof.
  revert acc. induction l as [|b r IH]; intros acc.
  - simpl. lia.
  - unfold bits_of_bytes in *. cbn [map concat]. rewrite fold_left_app.
    rewrite IH. rewrite (fold_bits_acc (bits_of_byte b) acc).
    rewrite <- byte_bits_value. cbn [bytes_to_int].
    change (Z.of_nat (length (bits_of_byte b))) with 8.
    simpl length. rewrite Nat2Z.inj_succ, Z.pow_succ_r by lia.
    change (2 ^ 8) with 256. ring.
Qed.

(** The integer the loop builds from the bits of a byte string is the
    big-endian value of that byte string. *)
Lemma bits_to_int_bytes (l : bytes) :
  bits_to_int (bits_of_bytes l) = bytes_to_int l.
Proof.
  unfold bits_to_int. rewrite bits_to_int_fold, fold_bits_of_bytes. lia.
Qed.

Lemma be_bytes_digits (l : bytes) (acc : Z) :
  map byte_of_Z
      (be_bytes (length l) (acc * 256 ^ Z.of_nat (length l) + bytes_to_int l))
  = l.
Proof.
  revert acc. induction l as [|b r IH]; intros acc; [reflexivity|].
  simpl length. cbn [be_bytes map bytes_to_int]. f_equal.
  - pose proof (bytes_to_int_bound r) as Hr.
    pose proof (Z_of_byte_range b) as Hb.
    set (n := Z.of_nat (length r)) in *.
    rewrite Z.shiftr_div_pow2 by lia.
    rewrite Z.pow_mul_r by lia. change (2 ^ 8) with 256.
    rewrite Nat2Z.inj_succ, Z.pow_succ_r by lia. fold n.
    replace ((acc * (256 * 256 ^ n) + (Z_of_byte b * 256 ^ n + bytes_to_int r))
               / 256 ^ n) with (acc * 256 + Z_of_byte b).
    + change 255 with (Z.ones 8). rewrite Z.land_ones by lia.
      change (2 ^ 8) with 256.
      rewrite Z.add_comm, Z.mod_add by lia.
      rewrite Z.mod_small by lia. apply byte_of_Z_of_byte.
    + apply (Z.div_unique _ _ _ (bytes_to_int r)); [left; lia | ring].
  - rewrite Nat2Z.inj_succ, Z.pow_succ_r by lia.
    replace (acc * (256 * 256 ^ Z.of_nat (length r))
             + (Z_of_byte b * 256 ^ Z.of_nat (length r) + bytes_to_int r))
      with ((acc * 256 + Z_of_byte b) * 256 ^ Z.of_nat (length r)
            + bytes_to_int r) by ring.
    apply IH.
Qed.

Lemma bytes_to_int_lower (b : byte) (r : bytes) :
  b <> x00 -> 256 ^ Z.of_nat (length r) <= bytes_to_int (b :: r).
Proof.
  intros Hb. cbn [bytes_to_int].
  pose proof (bytes_to_int_bound r). pose proof (Z_of_byte_range b).
  assert (Z_of_byte b <> 0) by (intros E; apply Hb, Z_of_byte_zero, E).
  nia.
Qed.

Lemma bit_length_octets (b : byte) (r : bytes) :
  b <> x00 ->
  Z.max 1 ((bit_length (bytes_to_int (b :: r)) + 7) / 8)
  = Z.of_nat (length (b :: r)).
Proof.
  intros Hb.
  pose proof (bytes_to_int_lower b r Hb) as Hlo.
  pose proof (bytes_to_int_bound (b :: r)) as [_ Hhi].
  set (x := bytes_to_int (b :: r)) in *.
  set (n := Z.of_nat (length r)) in *.
  assert (Hn : 0 <= n) by (unfold n; lia).
  assert (Hpos : 0 < x) by (pose proof (Z.pow_pos_nonneg 256 n); lia).
  simpl length in *. rewrite Nat2Z.inj_succ in *. fold n in Hhi |- *.
  unfold bit_length. destruct (x =? 0) eqn:E; [lia|].
  rewrite Z.abs_eq by lia.
  assert (H1 : 8 * n <= Z.log2 x).
  { apply Z.log2_le_pow2; [lia|]. rewrite Z.pow_mul_r by lia. exact Hlo. }
  assert (H2 : Z.log2 x < 8 * Z.succ n).
  { apply Z.log2_lt_pow2; [lia|]. rewrite Z.pow_mul_r by lia. exact Hhi. }
  rewrite Z.max_r.
  - symmetry. apply (Z.div_unique _ _ _ (Z.log2 x - 8 * n)); lia.
  - apply Z.div_le_lower_bound; lia.
Qed.

(** For a byte string that does not start with a zero byte, the integer
    round trip of the source gives the byte string back. *)
Lemma int_to_bytes_bytes_to_int (b : byte) (r : bytes) :
  b <> x00 -> int_to_bytes (bytes_to_int (b :: r)) = b :: r.
Proof.
  intros Hb. unfold int_to_bytes. rewrite bit_length_octets by exact Hb.
  rewrite Nat2Z.id.
  pose proof (be_bytes_digits (b :: r) 0) as H.
  rewrite Z.mul_0_l, Z.add_0_l in H. exact H.
Qed.

(** The loop forgets leading zero bits. *)
Lemma bits_to_int_leading_zero (bits : list bool) :
  bits_to_int (false :: bits) = bits_to_int bits.
Proof. reflexivity. Qed.

(** ** Key-identifier derivation *)

Lemma sha1_digest_length (data : bytes) : length (SHA1.digest data) = 20%nat.
Proof.
  unfold SHA1.digest.
  destruct (SHA1.process _ _ _) as [[[[h0 h1] h2] h3] h4]. reflexivity.
Qed.

Lemma key_identifier_unfold (decoder : Decoder) (public_key : PublicKey)
    spki :
  decode (public_bytes public_key) = Ok (spki, []) ->
  _key_identifier_from_public_key public_key =
  Ok (SHA1.digest (int_to_bytes (bits_to_int (subjectPublicKey spki)))).
Proof.
  intros H. unfold _key_identifier_from_public_key. rewrite H. reflexivity.
Qed.

Lemma key_identifier_length (decoder : Decoder) (public_key : PublicKey)
    (d : bytes) :
  _key_identifier_from_public_key public_key = Ok d -> length d = 20%nat.
Proof.
  unfold _key_identifier_from_public_key.
  destruct (decode _) as [[spki [|? ?]]|e]; cbn; intros H;
    inversion H; subst. apply sha1_digest_length.
Qed.

(** The derivation reads the key only through its encoding. *)
Lemma key_identifier_deterministic (decoder : Decoder) (k1 k2 : PublicKey) :
  public_bytes k1 = public_bytes k2 ->
  _key_identifier_from_public_key k1 = _key_identifier_from_public_key k2.
Proof.
  intros H. unfold _key_identifier_from_public_key. rewrite H. reflexivity.
Qed.

Lemma key_identifier_whole_octets (decoder : Decoder)
    (public_key : PublicKey) spki b rest :
  decode (public_bytes public_key) = Ok (spki, []) ->
  subjectPublicKey spki = bits_of_bytes (b :: rest) ->
  b <> x00 ->
  _key_identifier_from_public_key public_key = Ok (SHA1.digest (b :: rest)).
Proof.
  intros Hdec Hbits Hb. rewrite (key_identifier_unfold _ _ _ Hdec), Hbits.
  rewrite bits_to_int_bytes, int_to_bytes_bytes_to_int by exact Hb.
  reflexivity.
Qed.

Lemma key_octets_head (c : key_class) (octets : bytes) :
  key_octets c octets = true ->
  exists b rest, octets = b :: rest /\ b <> x00.
Proof.
  destruct octets as [|b rest]; [discriminate|]. intros H.
  exists b, rest. split; [reflexivity|]. intros ->.
  destruct c; discriminate H.
Qed.

(** C1: whatever the decoder, for every key of the three key classes,
    whose encoded SubjectPublicKeyInfo decodes with nothing left over to
    the bit string of the octets of the key, the derivation returns the
    SHA-1 digest of exactly those octets, none added and none dropped;
    every identifier returned is 20 bytes long, and two keys with the
    same encoding get the same result. *)
Theorem key_identifier_from_public_key_spec :
  (forall (decoder : Decoder) public_key spki octets,
      decode (public_bytes public_key) = Ok (spki, []) ->
      subjectPublicKey spki = bits_of_bytes octets ->
      key_octets (key_class_of public_key) octets = true ->
      _key_identifier_from_public_key public_key
      = Ok (SHA1.digest octets)) /\
  (forall (decoder : Decoder) public_key d,
      _key_identifier_from_public_key public_key = Ok d ->
      length d = 20%nat) /\
  (forall (decoder : Decoder) k1 k2,
      public_bytes k1 = public_bytes k2 ->
      _key_identifier_from_public_key k1
      = _key_identifier_from_public_key k2).
Proof.
  split; [|split].
  - intros decoder public_key spki octets Hdec Hbits Hkey.
    destruct (key_octets_head _ _ Hkey) as (b & rest & -> & Hb).
    exact (key_identifier_whole_octets _ _ _ _ _ Hdec Hbits Hb).
  - exact key_identifier_length.
  - exact key_identifier_deterministic.
Qed.

(** C1 at the P-256 sample key, read by the sample decoder: the
    identifier is the SHA-1 digest of the 65 octets of the encoded
    point. *)
Lemma key_identifier_from_public_key_spec_witness :
  @_key_identifier_from_public_key DER.decoder p256_key
  = Ok (SHA1.digest p256_point).
Proof.
  refine (proj1 key_identifier_from_public_key_spec DER.decoder p256_key
            {| algorithm :=
                 [Primitive x06
                    (hex_bytes [0x2A; 0x86; 0x48; 0xCE; 0x3D; 0x02; 0x01]);
                  Primitive x06
                    (hex_bytes [0x2A; 0x86; 0x48; 0xCE; 0x3D; 0x03; 0x01;
                                0x07])];
               subjectPublicKey := bits_of_bytes p256_point |}
            p256_point _ _ _).
  - vm_compute. reflexivity.
  - reflexivity.
  - vm_compute. reflexivity.
Defined.

(** ** KeyUsage *)

(** C10: the constructor raises a value error exactly when
    [key_agreement] is false and [encipher_only] or [decipher_only] is
    true; hence every constructed instance with [key_agreement] false
    stores both bits false (and stores every argument as given). *)
Theorem KeyUsage_init_invariant
    (digital_signature content_commitment key_encipherment
       data_encipherment key_agreement key_cert_sign crl_sign
       encipher_only decipher_only : bool) :
  let made :=
    KeyUsage.__init__ digital_signature content_commitment key_encipherment
      data_encipherment key_agreement key_cert_sign crl_sign
      encipher_only decipher_only in
  ((exists msg, made = Raise (ValueError msg)) <->
   key_agreement = false /\ (encipher_only = true \/ decipher_only = true))
  /\
  (forall self, made = Ok self ->
     (_key_agreement self = key_agreement /\
      _encipher_only self = encipher_only /\
      _decipher_only self = decipher_only) /\
     (_key_agreement self = false ->
      _encipher_only self = false /\ _decipher_only self = false)).
Proof.
  cbv zeta. unfold KeyUsage.__init__.
  destruct key_agreement, encipher_only, decipher_only; cbn; split;
    try (split; [intros [msg H]; discriminate H
                | intros [H1 H2]; try discriminate H1;
                  destruct H2 as [H2|H2]; discriminate H2]);
    try (split; [intros _; auto | intros _; eexists; reflexivity]);
    intros self H; inversion H; subst; cbn; auto.
Qed.

(** C10 at a concrete instance: signing-only usage, [key_agreement]
    false. *)
Lemma KeyUsage_init_invariant_witness :
  exists self,
    KeyUsage.__init__ true false false false false false false false false
    = Ok self /\
    _encipher_only self = false /\ _decipher_only self = false.
Proof.
  eexists. split; [reflexivity|].
  apply (proj2 (proj2 (KeyUsage_init_invariant
                         true false false false false false false false false)
                      _ eq_refl)).
  reflexivity.
Defined.

(** ** NameConstraints *)

Lemma check_subtrees_ok msg subtrees :
  NameConstraints.check_subtrees msg subtrees = Ok tt <->
  valid_subtrees subtrees.
Proof.
  destruct subtrees as [tree|]; cbn; [|tauto].
  destruct (forallb isinstance_GeneralName tree) eqn:Hall; cbn.
  - unfold NameConstraints._validate_ip_name.
    match goal with |- context [existsb ?f tree] =>
      destruct (existsb f tree) eqn:Hex end.
    + split; [discriminate|]. intros Hv.
      apply existsb_exists in Hex as (name & Hin & Hbad).
      destruct (Hv name Hin) as (g & -> & Hnet).
      destruct g; try discriminate Hbad.
      rewrite (Hnet _ eq_refl) in Hbad. discriminate Hbad.
    + split; [intros _|reflexivity]. intros name Hin.
      rewrite forallb_forall in Hall. specialize (Hall name Hin).
      destruct name; try discriminate Hall. eexists. split; [reflexivity|].
      intros value ->.
      destruct (is_ip_network value) eqn:Hnet; [reflexivity|].
      assert (existsb
                (fun name => match name with
                             | PyGeneralName (IPAddress value) =>
                                 negb (is_ip_network value)
                             | _ => false
                             end) tree = true) as Hc.
      { apply existsb_exists. eexists. split; [exact Hin|]. cbn.
        rewrite Hnet. reflexivity. }
      rewrite Hc in Hex. discriminate Hex.
  - split; [discriminate|]. intros Hv.
    assert (forallb isinstance_GeneralName tree = true) as Hc.
    { apply forallb_forall. intros name Hin.
      destruct (Hv name Hin) as (g & -> & _). reflexivity. }
    rewrite Hc in Hall. discriminate Hall.
Qed.

Lemma check_subtrees_cases msg subtrees :
  NameConstraints.check_subtrees msg subtrees = Ok tt \/
  exists m, NameConstraints.check_subtrees msg subtrees = Raise (TypeError m).
Proof.
  destruct subtrees as [tree|]; cbn; [|left; reflexivity].
  destruct (forallb _ tree); cbn; [|right; eexists; reflexivity].
  unfold NameConstraints._validate_ip_name.
  destruct (existsb _ tree); [right; eexists|left]; reflexivity.
Qed.

(** C5 (as amended): construction succeeds exactly when at least one of
    the two subtree arguments is not [None] and each supplied list holds
    only general names whose [IPAddress] entries wrap a network; the
    instance stores both arguments.  With both [None] it raises a value
    error, and a supplied list with an [IPAddress] wrapping a bare
    address raises a type error. *)
Theorem NameConstraints_init_spec
    (permitted_subtrees excluded_subtrees : option (list PyObject)) :
  let made := NameConstraints.__init__ permitted_subtrees excluded_subtrees in
  ((exists self, made = Ok self) <->
   (valid_subtrees permitted_subtrees /\ valid_subtrees excluded_subtrees /\
    (permitted_subtrees <> None \/ excluded_subtrees <> None)))
  /\
  (forall self, made = Ok self ->
     _permitted_subtrees self = permitted_subtrees /\
     _excluded_subtrees self = excluded_subtrees)
  /\
  (permitted_subtrees = None -> excluded_subtrees = None ->
   exists msg, made = Raise (ValueError msg))
  /\
  (forall tree value,
     (permitted_subtrees = Some tree \/ excluded_subtrees = Some tree) ->
     In (PyGeneralName (IPAddress value)) tree ->
     is_ip_network value = false ->
     exists msg, made = Raise (TypeError msg)).
Proof.
  cbv zeta. unfold NameConstraints.__init__.
  set (mp := "permitted_subtrees must be a list of GeneralName objects or None"%string).
  set (me := "excluded_subtrees must be a list of GeneralName objects or None"%string).
  pose proof (check_subtrees_ok mp permitted_subtrees) as Hp.
  pose proof (check_subtrees_ok me excluded_subtrees) as He.
  destruct (check_subtrees_cases mp permitted_subtrees) as [Ep|[m Ep]];
    rewrite Ep in *; cbn.
  - destruct (check_subtrees_cases me excluded_subtrees) as [Ee|[m Ee]];
      rewrite Ee in *; cbn.
    + repeat split.
      * apply Hp; reflexivity.
      * apply He; reflexivity.
      * destruct H as [self H].
        destruct permitted_subtrees, excluded_subtrees;
          try discriminate H; auto.
      * intros (_ & _ & [H|H]);
          destruct permitted_subtrees, excluded_subtrees; eauto;
          exfalso; apply H; reflexivity.
      * destruct permitted_subtrees, excluded_subtrees;
          inversion H; reflexivity.
      * destruct permitted_subtrees, excluded_subtrees;
          inversion H; reflexivity.
      * intros -> ->. eexists. reflexivity.
      * intros tree value Hin Hmem Hnet. exfalso.
        assert (valid_subtrees (Some tree)) as Hv.
        { destruct Hin as [->| ->]; [apply Hp|apply He]; reflexivity. }
        destruct (Hv _ Hmem) as (g & Hg & Hn). inversion Hg; subst g.
        rewrite (Hn _ eq_refl) in Hnet. discriminate Hnet.
    + repeat split.
      * destruct H as [self H]. discriminate H.
      * destruct H as [self H]. discriminate H.
      * destruct H as [self H]. discriminate H.
      * intros (_ & Hv & _). apply He in Hv. discriminate Hv.
      * discriminate H.
      * discriminate H.
      * intros _ ->. discriminate Ee.
      * intros. eexists. reflexivity.
  - repeat split.
    + destruct H as [self H]. discriminate H.
    + destruct H as [self H]. discriminate H.
    + destruct H as [self H]. discriminate H.
    + intros (Hv & _). apply Hp in Hv. discriminate Hv.
    + discriminate H.
    + discriminate H.
    + intros ->. discriminate Ep.
    + intros. eexists. reflexivity.
Qed.

(** C5 (as amended) at a concrete input: one permitted subtree holding an
    IPv4 network. *)
Lemma NameConstraints_init_spec_witness :
  exists self,
    NameConstraints.__init__
      (Some [PyGeneralName (IPAddress (IPv4Network 0xC0A80000 24))]) None
    = Ok self.
Proof.
  apply (proj2 (proj1 (NameConstraints_init_spec
                         (Some [PyGeneralName
                                  (IPAddress (IPv4Network 0xC0A80000 24))])
                         None))).
  split; [|split].
  - intros name [<-|[]]. eexists. split; [reflexivity|].
    intros value E. inversion E. reflexivity.
  - exact I.
  - left. discriminate.
Defined.

(** C5 (as stated) fails: construction with both subtree lists supplied
    succeeds. *)
Lemma NameConstraints_both_subtrees_accepted :
  NameConstraints.__init__
    (Some [PyGeneralName (DNSName "example.com")])
    (Some [PyGeneralName (DNSName "internal.example.com")])
  = Ok {| _permitted_subtrees := Some [PyGeneralName (DNSName "example.com")];
          _excluded_subtrees :=
            Some [PyGeneralName (DNSName "internal.example.com")] |}.
Proof. reflexivity. Qed.

(** ** DistributionPoint *)

Lemma contains_flag_false flag items :
  contains_flag flag items = false ->
  forall r, In (PyReasonFlags r) items -> r <> flag.
Proof.
  intros H r Hin ->. unfold contains_flag in H.
  assert (existsb
            (fun x => match x with
                      | PyReasonFlags r => bool_decide (r = flag)
                      | _ => false
                      end) items = true) as Hc.
  { apply existsb_exists. eexists. split; [exact Hin|]. cbn.
    apply bool_decide_eq_true. reflexivity. }
  rewrite Hc in H. discriminate H.
Qed.

Lemma DistributionPoint_init_reasons full_name relative_name reasons
    crl_issuer self :
  DistributionPoint.__init__ full_name relative_name reasons crl_issuer
  = Ok self ->
  truthy reasons = true ->
  valid_reasons reasons.
Proof.
  unfold DistributionPoint.__init__. intros H Ht. rewrite Ht in H.
  repeat match type of H with
         | (if ?c then _ else _) = _ =>
             let E := fresh "E" in destruct c eqn:E; [discriminate H|]
         end.
  unfold DistributionPoint.not_frozenset_of_flags,
    DistributionPoint.has_invalid_reason in *.
  apply orb_false_iff in E3 as [Hfs Hall].
  apply negb_false_iff in Hfs, Hall.
  destruct reasons as [| | | | |items]; try discriminate Hfs.
  cbn [items_of] in *. rename Hall into E3.
  apply orb_false_iff in E4 as [Hu Hr].
  exists items. split; [reflexivity|]. intros x Hin.
  rewrite forallb_forall in E3. specialize (E3 x Hin).
  destruct x; try discriminate E3. eexists. split; [reflexivity|].
  split; eapply contains_flag_false; eauto.
Qed.

Lemma DistributionPoint_init_empty_reasons full_name relative_name
    crl_issuer :
  DistributionPoint.__init__ full_name relative_name (PyFrozenset [])
                             crl_issuer
  = match DistributionPoint.__init__ full_name relative_name PyNone
            crl_issuer with
    | Ok self =>
        Ok {| _full_name := _full_name self;
              _relative_name := _relative_name self;
              _reasons := PyFrozenset [];
              _crl_issuer := _crl_issuer self |}
    | Raise e => Raise e
    end.
Proof.
  unfold DistributionPoint.__init__. cbn.
  repeat match goal with
         | |- context [if ?c then _ else _] => destruct c
         end; reflexivity.
Qed.

(** C7 (as amended): a construction that succeeds with a non-empty
    [reasons] argument was given a frozenset of [ReasonFlags] members that
    contains neither [unspecified] nor [remove_from_crl]; an empty
    frozenset of reasons is accepted whenever the same arguments with
    [reasons = None] are accepted, and is stored as given. *)
Theorem DistributionPoint_init_reasons_spec :
  (forall full_name relative_name reasons crl_issuer self,
      DistributionPoint.__init__ full_name relative_name reasons crl_issuer
      = Ok self ->
      truthy reasons = true ->
      valid_reasons reasons) /\
  (forall full_name relative_name crl_issuer,
      DistributionPoint.__init__ full_name relative_name (PyFrozenset [])
                                 crl_issuer
      = match DistributionPoint.__init__ full_name relative_name PyNone
                crl_issuer with
        | Ok self =>
            Ok {| _full_name := _full_name self;
                  _relative_name := _relative_name self;
                  _reasons := PyFrozenset [];
                  _crl_issuer := _crl_issuer self |}
        | Raise e => Raise e
        end).
Proof.
  split.
  - exact DistributionPoint_init_reasons.
  - exact DistributionPoint_init_empty_reasons.
Qed.

(** C7 (as amended) at a concrete input: a distribution point with a
    full name and the reason [key_compromise]. *)
Lemma DistributionPoint_init_reasons_spec_witness :
  valid_reasons (PyFrozenset [PyReasonFlags key_compromise]).
Proof.
  apply (proj1 DistributionPoint_init_reasons_spec
               (Some [PyGeneralName
                        (UniformResourceIdentifier "http://crl.example.com")])
               PyNone (PyFrozenset [PyReasonFlags key_compromise]) None
               {| _full_name :=
                    Some [PyGeneralName
                            (UniformResourceIdentifier
                               "http://crl.example.com")];
                  _relative_name := PyNone;
                  _reasons := PyFrozenset [PyReasonFlags key_compromise];
                  _crl_issuer := None |});
    reflexivity.
Defined.

(** C7 (as stated) fails: construction with an empty frozenset of reasons
    succeeds. *)
Lemma DistributionPoint_empty_reasons_accepted :
  DistributionPoint.__init__ None PyNone (PyFrozenset []) None
  = Ok {| _full_name := None; _relative_name := PyNone;
          _reasons := PyFrozenset []; _crl_issuer := None |}.
Proof. reflexivity. Qed.

(** ** The GeneralName family *)

Lemma _GENERAL_NAMES_entries (k : Z) (alternative : string) :
  _GENERAL_NAMES !! k = Some alternative ->
  In (k, alternative)
     [(0, "otherName"); (1, "rfc822Name"); (2, "dNSName");
      (3, "x400Address"); (4, "directoryName"); (5, "ediPartyName");
      (6, "uniformResourceIdentifier"); (7, "iPAddress");
      (8, "registeredID")]%string.
Proof.
  intros H. apply list_elem_of_In.
  apply elem_of_list_to_map_2 in H. exact H.
Qed.

Lemma alternative_of_cases (g : GeneralName) :
  exists k, alternative_of g = Some k /\ In k [0; 1; 2; 4; 6; 7; 8].
Proof.
  destruct g; eexists; (split; [vm_compute; reflexivity|]); cbn; tauto.
Qed.

Lemma alternative_of_supported (g : GeneralName) :
  exists k, alternative_of g = Some k /\ k <> 3 /\ k <> 5.
Proof.
  destruct (alternative_of_cases g) as (k & Hk & Hin). exists k.
  split; [exact Hk|]. cbn in Hin. lia.
Qed.

(** C9 (as amended): every instance of the family stands for one of the
    alternatives [_GENERAL_NAMES] lists, and never for [x400Address]
    (tag 3) or [ediPartyName] (tag 5); each of the other seven
    alternatives has instances.  So whatever reads encoded names into the
    family, returning for a name of kind [k] an instance that stands for
    [k], can only raise on those two kinds. *)
Theorem GeneralName_family_covers :
  (forall g : GeneralName,
      exists k alternative,
        alternative_of g = Some k /\
        _GENERAL_NAMES !! k = Some alternative /\ k <> 3 /\ k <> 5) /\
  (forall k alternative,
      _GENERAL_NAMES !! k = Some alternative ->
      ((exists g, alternative_of g = Some k) <-> k <> 3 /\ k <> 5)) /\
  (forall parse : Z -> bytes -> result GeneralName,
      (forall k raw g, parse k raw = Ok g -> alternative_of g = Some k) ->
      forall k raw, k = 3 \/ k = 5 -> exists e, parse k raw = Raise e).
Proof.
  split; [|split].
  - intros g. destruct (alternative_of_cases g) as (k & Hk & Hin).
    cbn in Hin.
    assert (Hex : exists alternative, _GENERAL_NAMES !! k = Some alternative).
    { repeat (destruct Hin as [<-|Hin];
              [eexists; vm_compute; reflexivity|]). destruct Hin. }
    destruct Hex as [alternative Ha].
    exists k, alternative. split; [exact Hk|]. split; [exact Ha|].
    cbn in Hin. lia.
  - intros k alternative H. apply _GENERAL_NAMES_entries in H. cbn in H.
    split.
    + intros [g Hg]. destruct (alternative_of_supported g) as (k' & Hk' & Hne).
      rewrite Hg in Hk'. inversion Hk'; subst. exact Hne.
    + intros [H3 H5].
      repeat (destruct H as [H|H]; [inversion H; subst; clear H|]);
        [..|destruct H]; try lia.
      * exists (OtherName {| dotted_string := "" |} []).
        vm_compute. reflexivity.
      * exists (RFC822Name ""). vm_compute. reflexivity.
      * exists (DNSName ""). vm_compute. reflexivity.
      * exists (DirectoryName
                  {| name_attributes := []; name_truth := true |}).
        vm_compute. reflexivity.
      * exists (UniformResourceIdentifier ""). vm_compute. reflexivity.
      * exists (IPAddress (IPv4Address 0)). vm_compute. reflexivity.
      * exists (RegisteredID {| dotted_string := "" |}).
        vm_compute. reflexivity.
  - intros parse Hparse k raw Hk.
    destruct (parse k raw) as [g|e] eqn:E; [|exists e; reflexivity].
    exfalso. apply Hparse in E.
    destruct (alternative_of_supported g) as (k' & Hk' & Hne).
    rewrite E in Hk'. inversion Hk'; subst. lia.
Qed.

(** C9 (as amended) at the [dNSName] alternative. *)
Lemma GeneralName_family_covers_witness :
  (exists g, alternative_of g = Some 2) <-> 2 <> 3 /\ 2 <> 5.
Proof.
  apply (proj1 (proj2 GeneralName_family_covers) 2 "dNSName").
  vm_compute. reflexivity.
Defined.

(** C9 (as stated) fails: the table names [x400Address] and
    [ediPartyName], and no instance of the family, opaque or other,
    stands for either: every instance stands for another alternative. *)
Lemma GeneralName_family_lacks_x400_and_edi :
  _GENERAL_NAMES !! 3 = Some "x400Address"%string /\
  _GENERAL_NAMES !! 5 = Some "ediPartyName"%string /\
  (forall g : GeneralName,
      exists k, alternative_of g = Some k /\ k <> 3 /\ k <> 5).
Proof.
  split; [vm_compute; reflexivity|].
  split; [vm_compute; reflexivity|].
  exact alternative_of_supported.
Qed.

(** ** The store *)

Lemma bind_unfold {A B : Type} (m : M A) (k : A -> M B) (σ : state) :
  (m ≫= k) σ =
  match m σ with
  | (Ok a, σ') => k a σ'
  | (Raise e, σ') => (Raise e, σ')
  end.
Proof. reflexivity. Qed.

Lemma alloc_fresh (σ : state) : heap σ !! fresh (dom (heap σ)) = None.
Proof. apply not_elem_of_dom, is_fresh. Qed.

Lemma alloc_unfold (o : object) (σ : state) :
  alloc o σ =
  (Ok (fresh (dom (heap σ))),
   {| heap := <[fresh (dom (heap σ)) := o]> (heap σ);
      backend_calls := backend_calls σ |}).
Proof. reflexivity. Qed.

Lemma certificate_attrs_lookup (σ : state) (self : loc) b :
  heap σ !! self = Some (CertificateBuilderObject b) ->
  CertificateBuilder.attrs self σ = (Ok b, σ).
Proof. intros H. unfold CertificateBuilder.attrs. rewrite H. reflexivity. Qed.

Lemma csr_attrs_lookup (σ : state) (self : loc) b :
  heap σ !! self = Some (CertificateSigningRequestBuilderObject b) ->
  CertificateSigningRequestBuilder.attrs self σ = (Ok b, σ).
Proof.
  intros H. unfold CertificateSigningRequestBuilder.attrs. rewrite H.
  reflexivity.
Qed.

Lemma read_list_lookup (σ : state) (l : loc) items :
  heap σ !! l = Some (ListObject items) -> read_list l σ = (Ok items, σ).
Proof. intros H. unfold read_list. rewrite H. reflexivity. Qed.

Lemma call_backend_logs (c : backend_call) run (σ : state) :
  backend_calls (call_backend c run σ).2 = backend_calls σ ++ [c].
Proof. unfold call_backend. destruct (run (heap σ)). reflexivity. Qed.

Lemma is_set_false {A : Type} (field : option A) :
  is_set field = false <-> field = None.
Proof. destruct field; cbn; split; congruence. Qed.

Lemma is_set_true {A : Type} (field : option A) :
  is_set field = true <-> field <> None.
Proof. destruct field; cbn; split; congruence. Qed.

(** ** sign *)

Lemma certificate_sign_complete σ self b private_key algorithm backend :
  heap σ !! self = Some (CertificateBuilderObject b) ->
  complete b ->
  CertificateBuilder.sign self private_key algorithm backend σ =
  call_backend (create_x509_certificate_call self private_key algorithm)
    (create_x509_certificate backend self private_key algorithm) σ.
Proof.
  intros Hself (H1 & H2 & H3 & H4 & H5 & H6).
  unfold CertificateBuilder.sign.
  rewrite bind_unfold, (certificate_attrs_lookup _ _ _ Hself).
  apply is_set_true in H1, H2, H3, H4, H5, H6.
  rewrite H1, H2, H3, H4, H5, H6. reflexivity.
Qed.

Lemma certificate_sign_incomplete σ self b private_key algorithm backend :
  heap σ !! self = Some (CertificateBuilderObject b) ->
  ~ complete b ->
  exists msg,
    CertificateBuilder.sign self private_key algorithm backend σ =
    (Raise (ValueError msg), σ).
Proof.
  intros Hself Hn. unfold CertificateBuilder.sign.
  rewrite bind_unfold, (certificate_attrs_lookup _ _ _ Hself).
  destruct (is_set (_subject_name b)) eqn:E1; cbn;
    [|eexists; reflexivity].
  destruct (is_set (_issuer_name b)) eqn:E2; cbn;
    [|eexists; reflexivity].
  destruct (is_set (_serial_number b)) eqn:E3; cbn;
    [|eexists; reflexivity].
  destruct (is_set (_not_valid_before b)) eqn:E4; cbn;
    [|eexists; reflexivity].
  destruct (is_set (_not_valid_after b)) eqn:E5; cbn;
    [|eexists; reflexivity].
  destruct (is_set (_public_key b)) eqn:E6; cbn;
    [|eexists; reflexivity].
  exfalso. apply Hn. apply is_set_true in E1, E2, E3, E4, E5, E6.
  repeat split; assumption.
Qed.

Lemma incomplete_iff (b : CertificateBuilder) :
  ~ complete b <->
  (_subject_name b = None \/ _issuer_name b = None \/
   _serial_number b = None \/ _not_valid_before b = None \/
   _not_valid_after b = None \/ _public_key b = None).
Proof.
  unfold complete. split.
  - intros Hn.
    destruct (_subject_name b); [|left; reflexivity]. right.
    destruct (_issuer_name b); [|left; reflexivity]. right.
    destruct (_serial_number b); [|left; reflexivity]. right.
    destruct (_not_valid_before b); [|left; reflexivity]. right.
    destruct (_not_valid_after b); [|left; reflexivity]. right.
    destruct (_public_key b); [|reflexivity].
    exfalso. apply Hn. repeat split; discriminate.
  - intros H (H1 & H2 & H3 & H4 & H5 & H6).
    destruct H as [H|[H|[H|[H|[H|H]]]]]; congruence.
Qed.

Lemma complete_dec (b : CertificateBuilder) : complete b \/ ~ complete b.
Proof.
  unfold complete.
  destruct (_subject_name b); [|right; intros (H & _); congruence].
  destruct (_issuer_name b); [|right; intros (_ & H & _); congruence].
  destruct (_serial_number b); [|right; intros (_ & _ & H & _); congruence].
  destruct (_not_valid_before b);
    [|right; intros (_ & _ & _ & H & _); congruence].
  destruct (_not_valid_after b);
    [|right; intros (_ & _ & _ & _ & H & _); congruence].
  destruct (_public_key b);
    [|right; intros (_ & _ & _ & _ & _ & H); congruence].
  left. repeat split; discriminate.
Qed.

Lemma append_not_self {A : Type} (l : list A) (x : A) : l ++ [x] <> l.
Proof.
  intros H. apply (f_equal (@length A)) in H.
  rewrite length_app in H. cbn in H. lia.
Qed.

(** C2: [CertificateBuilder.sign] raises a value error without invoking
    the backend exactly when one of subject name, issuer name, serial
    number, not_valid_before, not_valid_after or public key is unset, and
    then leaves the state as it was; otherwise it is the backend call.
    [CertificateSigningRequestBuilder.sign] does so exactly when the
    subject name is unset. *)
Theorem sign_raises_iff_incomplete :
  (forall σ self b private_key algorithm backend,
      heap σ !! self = Some (CertificateBuilderObject b) ->
      let out := CertificateBuilder.sign self private_key algorithm backend σ in
      (raised_before_backend σ out <->
       (_subject_name b = None \/ _issuer_name b = None \/
        _serial_number b = None \/ _not_valid_before b = None \/
        _not_valid_after b = None \/ _public_key b = None)) /\
      (raised_before_backend σ out -> out.2 = σ) /\
      (~ raised_before_backend σ out ->
       out = call_backend
               (create_x509_certificate_call self private_key algorithm)
               (create_x509_certificate backend self private_key algorithm)
               σ)) /\
  (forall σ self b private_key algorithm backend,
      heap σ !! self = Some (CertificateSigningRequestBuilderObject b) ->
      let out :=
        CertificateSigningRequestBuilder.sign self private_key algorithm
                                              backend σ in
      (raised_before_backend σ out <-> csr_subject_name b = None) /\
      (raised_before_backend σ out -> out.2 = σ) /\
      (~ raised_before_backend σ out ->
       out = call_backend
               (create_x509_csr_call self private_key algorithm)
               (create_x509_csr backend self private_key algorithm) σ)).
Proof.
  split.
  - intros σ self b private_key algorithm backend Hself out.
    assert (Hiff : raised_before_backend σ out <-> ~ complete b).
    { destruct (complete_dec b) as [Hc|Hc].
      - split; [|tauto]. intros (msg & _ & Hlog). exfalso.
        unfold out in Hlog.
        rewrite (certificate_sign_complete _ _ _ _ _ _ Hself Hc) in Hlog.
        rewrite call_backend_logs in Hlog.
        exact (append_not_self _ _ Hlog).
      - split; [tauto|]. intros _.
        destruct (certificate_sign_incomplete σ self b private_key
                    algorithm backend Hself Hc) as [msg Hm].
        exists msg. unfold out. rewrite Hm. split; reflexivity. }
    split; [|split].
    + rewrite Hiff. apply incomplete_iff.
    + intros Hr. apply Hiff in Hr.
      destruct (certificate_sign_incomplete σ self b private_key
                  algorithm backend Hself Hr) as [msg Hm].
      unfold out. rewrite Hm. reflexivity.
    + intros Hr. unfold out.
      apply (certificate_sign_complete _ _ b); [exact Hself|].
      destruct (complete_dec b) as [Hc|Hc]; [exact Hc|].
      exfalso. apply Hr, Hiff, Hc.
  - intros σ self b private_key algorithm backend Hself out.
    unfold out, CertificateSigningRequestBuilder.sign.
    rewrite bind_unfold, (csr_attrs_lookup _ _ _ Hself).
    destruct (csr_subject_name b) as [name|]; cbn.
    + assert (Hno : ~ raised_before_backend σ
                      (call_backend
                         (create_x509_csr_call self private_key algorithm)
                         (create_x509_csr backend self private_key algorithm)
                         σ)).
      { intros (msg & _ & Hlog). rewrite call_backend_logs in Hlog.
        exact (append_not_self _ _ Hlog). }
      split; [|split].
      * split; [intros H; destruct (Hno H)|discriminate].
      * intros H. destruct (Hno H).
      * reflexivity.
    + assert (Hyes : raised_before_backend σ
                       (raise (A := Artifact)
                          (ValueError
                             "A CertificateSigningRequest must have a subject")
                          σ)).
      { eexists. split; reflexivity. }
      split; [|split].
      * split; [reflexivity|intros _; exact Hyes].
      * reflexivity.
      * intros H. destruct (H Hyes).
Qed.

(** C2 at a concrete input: signing the empty certificate builder raises
    before the backend is invoked. *)
Lemma sign_raises_iff_incomplete_witness :
  raised_before_backend empty_certificate_builder
    (CertificateBuilder.sign 3%positive sample_private_key sample_algorithm
       sample_backend empty_certificate_builder).
Proof.
  apply (proj1 sign_raises_iff_incomplete empty_certificate_builder
           3%positive
           (CertificateBuilder.instance None None None None None None
              CertificateBuilder.default_extensions)
           sample_private_key sample_algorithm sample_backend).
  - vm_compute. reflexivity.
  - left. reflexivity.
Defined.

Example csr_sign_without_subject :
  CertificateSigningRequestBuilder.sign 3%positive sample_private_key
    sample_algorithm sample_backend empty_csr_builder =
  (Raise (ValueError "A CertificateSigningRequest must have a subject"),
   empty_csr_builder).
Proof. reflexivity. Qed.

(** ** serial_number *)

Lemma bit_length_le (n k : Z) :
  0 <= n -> 0 <= k -> (bit_length n <= k <-> n < 2 ^ k).
Proof.
  intros Hn Hk. unfold bit_length.
  destruct (n =? 0) eqn:E.
  - apply Z.eqb_eq in E. subst n.
    pose proof (Z.pow_pos_nonneg 2 k). lia.
  - apply Z.eqb_neq in E. rewrite Z.abs_eq by lia.
    rewrite (Z.log2_lt_pow2 n k) by lia. lia.
Qed.

Lemma certificate_init_new σ issuer subject key serial before after exts :
  let attrs :=
    CertificateBuilder.instance issuer subject key serial before after exts in
  let out :=
    CertificateBuilder.__init__ issuer subject key serial before after exts σ in
  exists new,
    out.1 = Ok new /\ heap σ !! new = None /\
    heap out.2 !! new = Some (CertificateBuilderObject attrs) /\
    preserves σ out.2.
Proof.
  cbv zeta. unfold CertificateBuilder.__init__. rewrite alloc_unfold.
  cbn [fst snd heap backend_calls].
  eexists. split; [reflexivity|]. split; [apply alloc_fresh|].
  split; [apply lookup_insert_eq|]. split; [|reflexivity].
  intros l o Hl. cbn [heap]. rewrite lookup_insert_ne; [exact Hl|].
  intros <-. rewrite alloc_fresh in Hl. discriminate Hl.
Qed.

Lemma certificate_init_updated σ issuer subject key serial before after exts
    b :
  issuer = _issuer_name b -> subject = _subject_name b ->
  key = _public_key b -> exts = _extensions b ->
  let out :=
    CertificateBuilder.__init__ issuer subject key serial before after exts σ in
  exists new b',
    out.1 = Ok new /\ heap σ !! new = None /\
    heap out.2 !! new = Some (CertificateBuilderObject b') /\
    updated b b' serial before after /\
    preserves σ out.2.
Proof.
  intros -> -> -> ->. cbv zeta.
  destruct (certificate_init_new σ (_issuer_name b) (_subject_name b)
              (_public_key b) serial before after (_extensions b))
    as (new & H1 & H2 & H3 & H4).
  exists new. eexists. split; [exact H1|]. split; [exact H2|].
  split; [exact H3|]. split; [|exact H4]. repeat split.
Qed.

Lemma serial_number_run σ self b number :
  heap σ !! self = Some (CertificateBuilderObject b) ->
  _serial_number b = None ->
  CertificateBuilder.serial_number self number σ =
  if number <? 0 then
    (Raise (ValueError "The serial number should be non-negative."), σ)
  else if 160 <? bit_length number then
    (Raise (ValueError "The serial number should not be more than 160 bits."),
     σ)
  else
    CertificateBuilder.__init__ (_issuer_name b) (_subject_name b)
      (_public_key b) (Some number) (_not_valid_before b)
      (_not_valid_after b) (_extensions b) σ.
Proof.
  intros Hself Hnone. unfold CertificateBuilder.serial_number.
  rewrite bind_unfold, (certificate_attrs_lookup _ _ _ Hself), Hnone. cbn.
  destruct (number <? 0); [reflexivity|].
  destruct (160 <? bit_length number); reflexivity.
Qed.

(** C4: on a builder whose serial number is unset, [serial_number] raises
    a value error, leaving the state as it was, for every negative
    integer and for every integer of more than 160 bits, and for every
    [0 <= number < 2^160] it returns a new builder whose serial number is
    [number] and whose other attributes are those of the receiver.
    [sign] makes no check on the value of the serial number. *)
Theorem serial_number_setter_range :
  (forall σ self b number,
      heap σ !! self = Some (CertificateBuilderObject b) ->
      _serial_number b = None ->
      let out := CertificateBuilder.serial_number self number σ in
      (number < 0 \/ 160 < bit_length number ->
       exists msg, out = (Raise (ValueError msg), σ)) /\
      (0 <= number < 2 ^ 160 ->
       exists new b',
         out.1 = Ok new /\ heap σ !! new = None /\
         heap out.2 !! new = Some (CertificateBuilderObject b') /\
         _serial_number b' = Some number /\
         updated b b' (Some number) (_not_valid_before b)
                 (_not_valid_after b) /\
         preserves σ out.2) /\
      (0 <= number -> (160 < bit_length number <-> 2 ^ 160 <= number))) /\
  (forall σ self b private_key algorithm backend,
      heap σ !! self = Some (CertificateBuilderObject b) ->
      complete b ->
      CertificateBuilder.sign self private_key algorithm backend σ =
      call_backend (create_x509_certificate_call self private_key algorithm)
        (create_x509_certificate backend self private_key algorithm) σ).
Proof.
  split; [|exact certificate_sign_complete].
  intros σ self b number Hself Hnone out.
  assert (Hbits : 0 <= number ->
                  (160 < bit_length number <-> 2 ^ 160 <= number)).
  { intros Hn. pose proof (bit_length_le number 160 Hn). lia. }
  unfold out. rewrite (serial_number_run _ _ _ _ Hself Hnone).
  split; [|split; [|exact Hbits]].
  - intros [Hneg|Hbig].
    + apply Z.ltb_lt in Hneg. rewrite Hneg. eexists. reflexivity.
    + destruct (number <? 0); [eexists; reflexivity|].
      apply Z.ltb_lt in Hbig. rewrite Hbig. eexists. reflexivity.
  - intros [Hlo Hhi].
    assert ((number <? 0) = false) as -> by (apply Z.ltb_ge; lia).
    assert ((160 <? bit_length number) = false) as ->.
    { apply Z.ltb_ge. apply bit_length_le; lia. }
    destruct (certificate_init_updated σ (_issuer_name b) (_subject_name b)
                (_public_key b) (Some number) (_not_valid_before b)
                (_not_valid_after b) (_extensions b) b
                eq_refl eq_refl eq_refl eq_refl)
      as (new & b' & H1 & H2 & H3 & H4 & H5).
    exists new, b'. repeat (split; [assumption|]).
    split; [apply H4|]. split; [exact H4|exact H5].
Qed.

(** C4 at a concrete input: [2 ** 159] is accepted by the empty builder,
    and is the serial number of the builder returned. *)
Lemma serial_number_setter_range_witness :
  exists new b',
    (CertificateBuilder.serial_number 3%positive (2 ^ 159)
       empty_certificate_builder).1 = Ok new /\
    heap (CertificateBuilder.serial_number 3%positive (2 ^ 159)
            empty_certificate_builder).2 !! new =
    Some (CertificateBuilderObject b') /\
    _serial_number b' = Some (2 ^ 159).
Proof.
  destruct (proj1 (proj2 (proj1 serial_number_setter_range
                            empty_certificate_builder 3%positive
                            (CertificateBuilder.instance None None None None
                               None None CertificateBuilder.default_extensions)
                            (2 ^ 159) eq_refl eq_refl)))
    as (new & b' & H1 & _ & H2 & H3 & _).
  - vm_compute. split; [discriminate|reflexivity].
  - exists new, b'. split; [exact H1|]. split; [exact H2|exact H3].
Defined.

Example serial_number_minus_one :
  CertificateBuilder.serial_number 3%positive (-1) empty_certificate_builder =
  (Raise (ValueError "The serial number should be non-negative."),
   empty_certificate_builder).
Proof. reflexivity. Qed.

Example serial_number_2_161 :
  CertificateBuilder.serial_number 3%positive (2 ^ 161)
    empty_certificate_builder =
  (Raise (ValueError "The serial number should not be more than 160 bits."),
   empty_certificate_builder).
Proof. reflexivity. Qed.

Example serial_number_2_159 :
  (CertificateBuilder.serial_number 3%positive (2 ^ 159)
     empty_certificate_builder).1 = Ok 4%positive.
Proof. reflexivity. Qed.

(** ** not_valid_before and not_valid_after *)

Lemma lift_bind {A B : Type} (r : result A) (k : A -> M B) (σ : state) :
  (lift r ≫= k) σ =
  match r with
  | Ok a => k a σ
  | Raise e => (Raise e, σ)
  end.
Proof. destruct r; reflexivity. Qed.

Lemma not_valid_before_run σ self b time :
  heap σ !! self = Some (CertificateBuilderObject b) ->
  _not_valid_before b = None ->
  CertificateBuilder.not_valid_before self time σ =
  match datetime_le time _UNIX_EPOCH with
  | Raise e => (Raise e, σ)
  | Ok true =>
      (Raise (ValueError
                "The not valid before date must be after the unix epoch (1970 January 1)."),
       σ)
  | Ok false =>
      CertificateBuilder.__init__ (_issuer_name b) (_subject_name b)
        (_public_key b) (_serial_number b) (Some time)
        (_not_valid_after b) (_extensions b) σ
  end.
Proof.
  intros Hself Hnone. unfold CertificateBuilder.not_valid_before.
  rewrite bind_unfold, (certificate_attrs_lookup _ _ _ Hself), Hnone.
  cbn [is_set]. rewrite lift_bind.
  destruct (datetime_le time _UNIX_EPOCH) as [[|]|e]; reflexivity.
Qed.

Lemma not_valid_after_run σ self b time :
  heap σ !! self = Some (CertificateBuilderObject b) ->
  _not_valid_after b = None ->
  CertificateBuilder.not_valid_after self time σ =
  match datetime_le time _UNIX_EPOCH with
  | Raise e => (Raise e, σ)
  | Ok true =>
      (Raise (ValueError
                "The not valid after date must be after the unix epoch (1970 January 1)."),
       σ)
  | Ok false =>
      CertificateBuilder.__init__ (_issuer_name b) (_subject_name b)
        (_public_key b) (_serial_number b) (_not_valid_before b)
        (Some time) (_extensions b) σ
  end.
Proof.
  intros Hself Hnone. unfold CertificateBuilder.not_valid_after.
  rewrite bind_unfold, (certificate_attrs_lookup _ _ _ Hself), Hnone.
  cbn [is_set]. rewrite lift_bind.
  destruct (datetime_le time _UNIX_EPOCH) as [[|]|e]; reflexivity.
Qed.

Lemma certificate_init_run σ issuer subject key serial before after exts :
  CertificateBuilder.__init__ issuer subject key serial before after exts σ =
  (Ok (fresh (dom (heap σ))),
   {| heap :=
        <[fresh (dom (heap σ)) :=
            CertificateBuilderObject
              (CertificateBuilder.instance issuer subject key serial before
                 after exts)]> (heap σ);
      backend_calls := backend_calls σ |}).
Proof. reflexivity. Qed.

(** An aware datetime cannot be compared with the epoch, which is
    naive. *)
Lemma datetime_le_epoch_aware (time : datetime) :
  aware time ->
  exists msg, datetime_le time _UNIX_EPOCH = Raise (TypeError msg).
Proof.
  intros [offset Ho]. unfold datetime_le. rewrite Ho.
  assert (Htz : exists tz, tzinfo time = Some tz).
  { unfold utcoffset in Ho. destruct (tzinfo time) as [tz|];
      [exists tz; reflexivity|discriminate Ho]. }
  destruct Htz as [tz ->].
  replace (utcoffset _UNIX_EPOCH) with (@None Z) by reflexivity.
  cbn [tzinfo _UNIX_EPOCH orb].
  rewrite bool_decide_eq_false_2 by discriminate.
  eexists. reflexivity.
Qed.

Lemma fields_le_epoch (time : datetime) :
  valid_datetime time ->
  fields_le (datetime_fields time) (datetime_fields _UNIX_EPOCH) = true <->
  not_after_1970 time.
Proof.
  intros (Hy & Hm & Hd & Hh & Hmi & Hs & Hu).
  unfold not_after_1970, datetime_fields, _UNIX_EPOCH.
  cbn [fields_le year month day hour minute second microsecond].
  repeat match goal with
         | |- context [?a <? ?b] => destruct (Z.ltb_spec a b)
         end; split; intros Hle; try discriminate Hle; try reflexivity; lia.
Qed.

(** A naive datetime is compared with the epoch field by field: it is
    not after it exactly when it is before 1970 or the first instant of
    1970. *)
Lemma datetime_le_epoch_naive (time : datetime) :
  naive time -> valid_datetime time ->
  exists le, datetime_le time _UNIX_EPOCH = Ok le /\
             (le = true <-> not_after_1970 time).
Proof.
  intros Hn Hv. unfold datetime_le. unfold naive in Hn. rewrite Hn.
  replace (utcoffset _UNIX_EPOCH) with (@None Z) by reflexivity.
  rewrite bool_decide_eq_true_2 by reflexivity. rewrite orb_true_r.
  eexists. split; [reflexivity|]. apply fields_le_epoch, Hv.
Qed.

Lemma naive_or_aware (time : datetime) : naive time \/ aware time.
Proof.
  unfold naive, aware. destruct (utcoffset time) as [offset|];
    [right; exists offset; reflexivity|left; reflexivity].
Qed.

Lemma naive_not_aware (time : datetime) : naive time -> ~ aware time.
Proof. unfold naive, aware. intros -> [offset H]. discriminate H. Qed.

(** What a setter of an end of the validity window does with [time]: the
    outcome on an aware time, on a naive time not after the epoch, and on
    a naive time after it, where [stored] says what the new builder
    holds. *)
Lemma validity_setter_cases σ (b : CertificateBuilder) (time : datetime)
    (out : result loc * state) (message : string)
    (stored : CertificateBuilder -> Prop) :
  valid_datetime time ->
  out = match datetime_le time _UNIX_EPOCH with
        | Raise e => (Raise e, σ)
        | Ok true => (Raise (ValueError message), σ)
        | Ok false => out
        end ->
  (datetime_le time _UNIX_EPOCH = Ok false ->
   exists new b',
     out.1 = Ok new /\ heap σ !! new = None /\
     heap out.2 !! new = Some (CertificateBuilderObject b') /\ stored b') ->
  ((exists e, out.1 = Raise e) <-> aware time \/ not_after_1970 time) /\
  (aware time -> exists msg, out = (Raise (TypeError msg), σ)) /\
  (naive time -> not_after_1970 time ->
   exists msg, out = (Raise (ValueError msg), σ)) /\
  (naive time -> ~ not_after_1970 time ->
   exists new b',
     out.1 = Ok new /\ heap σ !! new = None /\
     heap out.2 !! new = Some (CertificateBuilderObject b') /\ stored b').
Proof.
  intros Hv Hout Hok.
  destruct (naive_or_aware time) as [Hn|Ha].
  - destruct (datetime_le_epoch_naive time Hn Hv) as (le & Hle & Hiff).
    rewrite Hle in Hout, Hok. pose proof (naive_not_aware _ Hn) as Hna.
    destruct le.
    + assert (Hp : not_after_1970 time) by (apply Hiff; reflexivity).
      split; [|split; [|split]].
      * split; [intros _; right; exact Hp|intros _].
        rewrite Hout. eexists. reflexivity.
      * intros Ha. destruct (Hna Ha).
      * intros _ _. eexists. exact Hout.
      * intros _ Hnp. destruct (Hnp Hp).
    + assert (Hp : ~ not_after_1970 time).
      { intros Hp. apply Hiff in Hp. discriminate Hp. }
      destruct (Hok eq_refl) as (new & b' & H1 & H2 & H3 & H4).
      split; [|split; [|split]].
      * split; [intros [e He]; rewrite H1 in He; discriminate He|].
        intros [Ha|Hp']; [destruct (Hna Ha)|destruct (Hp Hp')].
      * intros Ha. destruct (Hna Ha).
      * intros _ Hp'. destruct (Hp Hp').
      * intros _ _. exists new, b'. auto.
  - destruct (datetime_le_epoch_aware time Ha) as [msg Hle].
    rewrite Hle in Hout. destruct Ha as [offset Ho].
    assert (Hnn : ~ naive time).
    { unfold naive. rewrite Ho. discriminate. }
    split; [|split; [|split]].
    + split; [intros _; left; exists offset; exact Ho|intros _].
      rewrite Hout. eexists. reflexivity.
    + intros _. exists msg. exact Hout.
    + intros Hn. destruct (Hnn Hn).
    + intros Hn. destruct (Hnn Hn).
Qed.

(** Setting both ends of the validity window, in whatever order the two
    times stand, and signing: the backend is invoked. *)
Lemma validity_window_unordered σ self b t1 t2 private_key algorithm backend :
  heap σ !! self = Some (CertificateBuilderObject b) ->
  _subject_name b <> None -> _issuer_name b <> None ->
  _serial_number b <> None -> _public_key b <> None ->
  _not_valid_before b = None -> _not_valid_after b = None ->
  valid_datetime t1 -> naive t1 -> ~ not_after_1970 t1 ->
  valid_datetime t2 -> naive t2 -> ~ not_after_1970 t2 ->
  exists signed,
    backend_calls
      ((b1 ← CertificateBuilder.not_valid_before self t1;
        b2 ← CertificateBuilder.not_valid_after b1 t2;
        CertificateBuilder.sign b2 private_key algorithm backend) σ).2
    = backend_calls σ
        ++ [create_x509_certificate_call signed private_key algorithm].
Proof.
  intros Hself Hs Hi Hn Hk Hb Ha Hv1 Hn1 Hp1 Hv2 Hn2 Hp2.
  assert (H1 : datetime_le t1 _UNIX_EPOCH = Ok false).
  { destruct (datetime_le_epoch_naive t1 Hn1 Hv1) as (le & -> & Hiff).
    destruct le; [destruct (Hp1 (proj1 Hiff eq_refl))|reflexivity]. }
  assert (H2 : datetime_le t2 _UNIX_EPOCH = Ok false).
  { destruct (datetime_le_epoch_naive t2 Hn2 Hv2) as (le & -> & Hiff).
    destruct le; [destruct (Hp2 (proj1 Hiff eq_refl))|reflexivity]. }
  rewrite bind_unfold, (not_valid_before_run _ _ _ _ Hself Hb), H1.
  rewrite certificate_init_run.
  set (l1 := fresh (dom (heap σ))).
  set (σ1 := {| heap := _; backend_calls := backend_calls σ |}).
  assert (Hl1 : heap σ1 !! l1 =
                Some (CertificateBuilderObject
                        (CertificateBuilder.instance (_issuer_name b)
                           (_subject_name b) (_public_key b)
                           (_serial_number b) (Some t1) (_not_valid_after b)
                           (_extensions b)))) by apply lookup_insert_eq.
  rewrite bind_unfold, (not_valid_after_run _ _ _ _ Hl1 Ha), H2.
  cbn [CertificateBuilder.instance _issuer_name _subject_name _public_key
         _serial_number _not_valid_before _not_valid_after _extensions].
  rewrite certificate_init_run.
  set (l2 := fresh (dom (heap σ1))).
  set (σ2 := {| heap := _; backend_calls := backend_calls σ1 |}).
  assert (Hl2 : heap σ2 !! l2 =
                Some (CertificateBuilderObject
                        (CertificateBuilder.instance (_issuer_name b)
                           (_subject_name b) (_public_key b)
                           (_serial_number b) (Some t1) (Some t2)
                           (_extensions b)))) by apply lookup_insert_eq.
  exists l2.
  rewrite (certificate_sign_complete _ _ _ _ _ _ Hl2).
  - rewrite call_backend_logs. reflexivity.
  - repeat split; cbn; try assumption; discriminate.
Qed.

(** C6 (as amended): on a builder where the field is unset,
    [not_valid_before] and [not_valid_after] each raise exactly when the
    time is aware or its fields are not after 1970-01-01 00:00:00: a type
    error, from the comparison with the naive epoch, for every aware
    time, and a value error for a naive time not after the epoch; either
    way the state is left as it was.  For a naive time after the epoch
    they return a new builder that holds the time in that field and the
    other attributes of the receiver.  No operation compares the two
    times: with both naive and after the epoch, in any order, the setters
    succeed and [sign] invokes the backend. *)
Theorem validity_setters_epoch_only :
  (forall σ self b time,
      heap σ !! self = Some (CertificateBuilderObject b) ->
      _not_valid_before b = None ->
      valid_datetime time ->
      let out := CertificateBuilder.not_valid_before self time σ in
      ((exists e, out.1 = Raise e) <-> aware time \/ not_after_1970 time) /\
      (aware time -> exists msg, out = (Raise (TypeError msg), σ)) /\
      (naive time -> not_after_1970 time ->
       exists msg, out = (Raise (ValueError msg), σ)) /\
      (naive time -> ~ not_after_1970 time ->
       exists new b',
         out.1 = Ok new /\ heap σ !! new = None /\
         heap out.2 !! new = Some (CertificateBuilderObject b') /\
         updated b b' (_serial_number b) (Some time) (_not_valid_after b))) /\
  (forall σ self b time,
      heap σ !! self = Some (CertificateBuilderObject b) ->
      _not_valid_after b = None ->
      valid_datetime time ->
      let out := CertificateBuilder.not_valid_after self time σ in
      ((exists e, out.1 = Raise e) <-> aware time \/ not_after_1970 time) /\
      (aware time -> exists msg, out = (Raise (TypeError msg), σ)) /\
      (naive time -> not_after_1970 time ->
       exists msg, out = (Raise (ValueError msg), σ)) /\
      (naive time -> ~ not_after_1970 time ->
       exists new b',
         out.1 = Ok new /\ heap σ !! new = None /\
         heap out.2 !! new = Some (CertificateBuilderObject b') /\
         updated b b' (_serial_number b) (_not_valid_before b) (Some time))) /\
  (forall σ self b t1 t2 private_key algorithm backend,
      heap σ !! self = Some (CertificateBuilderObject b) ->
      _subject_name b <> None -> _issuer_name b <> None ->
      _serial_number b <> None -> _public_key b <> None ->
      _not_valid_before b = None -> _not_valid_after b = None ->
      valid_datetime t1 -> naive t1 -> ~ not_after_1970 t1 ->
      valid_datetime t2 -> naive t2 -> ~ not_after_1970 t2 ->
      exists signed,
        backend_calls
          ((b1 ← CertificateBuilder.not_valid_before self t1;
            b2 ← CertificateBuilder.not_valid_after b1 t2;
            CertificateBuilder.sign b2 private_key algorithm backend) σ).2
        = backend_calls σ
            ++ [create_x509_certificate_call signed private_key algorithm]).
Proof.
  split; [|split; [|exact validity_window_unordered]].
  - intros σ self b time Hself Hnone Hv out.
    apply (validity_setter_cases σ b time out
             "The not valid before date must be after the unix epoch (1970 January 1).");
      [exact Hv| |].
    + unfold out. rewrite (not_valid_before_run _ _ _ _ Hself Hnone).
      destruct (datetime_le time _UNIX_EPOCH) as [[|]|e]; reflexivity.
    + intros Hle. unfold out.
      rewrite (not_valid_before_run _ _ _ _ Hself Hnone), Hle.
      destruct (certificate_init_updated σ (_issuer_name b) (_subject_name b)
                  (_public_key b) (_serial_number b) (Some time)
                  (_not_valid_after b) (_extensions b) b
                  eq_refl eq_refl eq_refl eq_refl)
        as (new & b' & H1 & H2 & H3 & H4 & _).
      exists new, b'. auto.
  - intros σ self b time Hself Hnone Hv out.
    apply (validity_setter_cases σ b time out
             "The not valid after date must be after the unix epoch (1970 January 1).");
      [exact Hv| |].
    + unfold out. rewrite (not_valid_after_run _ _ _ _ Hself Hnone).
      destruct (datetime_le time _UNIX_EPOCH) as [[|]|e]; reflexivity.
    + intros Hle. unfold out.
      rewrite (not_valid_after_run _ _ _ _ Hself Hnone), Hle.
      destruct (certificate_init_updated σ (_issuer_name b) (_subject_name b)
                  (_public_key b) (_serial_number b) (_not_valid_before b)
                  (Some time) (_extensions b) b
                  eq_refl eq_refl eq_refl eq_refl)
        as (new & b' & H1 & H2 & H3 & H4 & _).
      exists new, b'. auto.
Qed.

Lemma datetime_of_date_naive (y m d : Z) : naive (datetime_of_date y m d).
Proof. reflexivity. Qed.

(** C6 (as amended) at a concrete input: a builder that becomes valid in
    2030 and expires in 2020 is accepted by both setters and reaches the
    backend. *)
Lemma validity_setters_epoch_only_witness :
  exists signed,
    backend_calls
      ((b1 ← CertificateBuilder.not_valid_before 3%positive
               (datetime_of_date 2030 1 1);
        b2 ← CertificateBuilder.not_valid_after b1
               (datetime_of_date 2020 1 1);
        CertificateBuilder.sign b2 sample_private_key sample_algorithm
          sample_backend) undated_certificate_builder).2
    = backend_calls undated_certificate_builder
        ++ [create_x509_certificate_call signed sample_private_key
              sample_algorithm].
Proof.
  apply (proj2 (proj2 validity_setters_epoch_only)
           undated_certificate_builder 3%positive undated_attrs);
    try discriminate; try reflexivity;
    try (unfold valid_datetime; cbn; lia);
    unfold not_after_1970; cbn; lia.
Defined.

(** C6 (as stated) fails: midnight of 2020-01-01 in UTC is strictly after
    the Unix epoch, and both setters, called on the empty builder where
    the two fields are unset, fail on it with a type error. *)
Lemma validity_setters_reject_aware_time :
  valid_datetime utc_2020 /\ ~ not_after_1970 utc_2020 /\
  0 < field_microseconds utc_2020 - 0 - field_microseconds _UNIX_EPOCH /\
  CertificateBuilder.not_valid_before 3%positive utc_2020
    empty_certificate_builder
  = (Raise (TypeError
              "can't compare offset-naive and offset-aware datetimes"),
     empty_certificate_builder) /\
  CertificateBuilder.not_valid_after 3%positive utc_2020
    empty_certificate_builder
  = (Raise (TypeError
              "can't compare offset-naive and offset-aware datetimes"),
     empty_certificate_builder).
Proof.
  split; [unfold valid_datetime; cbn; lia|].
  split; [unfold not_after_1970; cbn; lia|].
  split; [vm_compute; reflexivity|].
  split; reflexivity.
Qed.

Example not_valid_before_epoch :
  CertificateBuilder.not_valid_before 3%positive _UNIX_EPOCH
    empty_certificate_builder =
  (Raise (ValueError
            "The not valid before date must be after the unix epoch (1970 January 1)."),
   empty_certificate_builder).
Proof. reflexivity. Qed.

(** ** add_extension *)

Lemma check_not_set_cases (extensions : list Extension) o :
  check_not_set extensions o = Ok tt \/
  check_not_set extensions o = Raise already_set.
Proof.
  induction extensions as [|e rest IH]; cbn; [left; reflexivity|].
  destruct (oid_eqb (_oid e) o); [right; reflexivity|exact IH].
Qed.

Lemma check_not_set_ok (extensions : list Extension) o :
  check_not_set extensions o = Ok tt <->
  (forall e, In e extensions -> _oid e <> o).
Proof.
  induction extensions as [|e rest IH]; cbn.
  - split; [intros _ e []|reflexivity].
  - unfold oid_eqb. destruct (bool_decide (_oid e = o)) eqn:E.
    + apply bool_decide_eq_true in E. split; [discriminate|].
      intros H. destruct (H e (or_introl eq_refl) E).
    + apply bool_decide_eq_false in E. rewrite IH. split.
      * intros H x [<-|Hin]; [exact E|exact (H x Hin)].
      * intros H x Hin. apply H. right. exact Hin.
Qed.

Lemma check_not_set_last (extensions : list Extension) e o :
  _oid e = o -> check_not_set (extensions ++ [e]) o = Raise already_set.
Proof.
  intros He.
  destruct (check_not_set_cases (extensions ++ [e]) o) as [H|H]; [|exact H].
  exfalso. rewrite check_not_set_ok in H.
  apply (H e); [apply in_or_app; right; left; reflexivity|exact He].
Qed.

Lemma fresh_after_insert (h : gmap loc object) (o : object) :
  fresh (dom (<[fresh (dom h) := o]> h)) <> fresh (dom h).
Proof.
  intros E.
  pose proof (is_fresh (dom (<[fresh (dom h) := o]> h))) as Hf.
  rewrite E in Hf. apply Hf. apply elem_of_dom.
  rewrite lookup_insert_eq. eexists. reflexivity.
Qed.

Lemma certificate_add_extension_run σ self b extensions extension critical :
  heap σ !! self = Some (CertificateBuilderObject b) ->
  heap σ !! _extensions b = Some (ListObject extensions) ->
  CertificateBuilder.add_extension self extension critical σ =
  match check_not_set extensions (oid extension) with
  | Raise e => (Raise e, σ)
  | Ok _ =>
      CertificateBuilder.__init__ (_issuer_name b) (_subject_name b)
        (_public_key b) (_serial_number b) (_not_valid_before b)
        (_not_valid_after b) (fresh (dom (heap σ)))
        {| heap :=
             <[fresh (dom (heap σ)) :=
                 ListObject (extensions ++ [extension_of extension critical])]>
               (heap σ);
           backend_calls := backend_calls σ |}
  end.
Proof.
  intros Hself Hlist. unfold CertificateBuilder.add_extension.
  rewrite bind_unfold, (certificate_attrs_lookup _ _ _ Hself).
  rewrite bind_unfold, (read_list_lookup _ _ _ Hlist).
  rewrite bind_unfold. unfold lift. cbn [_oid].
  destruct (check_not_set extensions (oid extension)); reflexivity.
Qed.

Lemma csr_add_extension_run σ self b extensions extension critical :
  heap σ !! self = Some (CertificateSigningRequestBuilderObject b) ->
  heap σ !! csr_extensions b = Some (ListObject extensions) ->
  CertificateSigningRequestBuilder.add_extension self extension critical σ =
  match check_not_set extensions (oid extension) with
  | Raise e => (Raise e, σ)
  | Ok _ =>
      CertificateSigningRequestBuilder.__init__ (csr_subject_name b)
        (fresh (dom (heap σ)))
        {| heap :=
             <[fresh (dom (heap σ)) :=
                 ListObject (extensions ++ [extension_of extension critical])]>
               (heap σ);
           backend_calls := backend_calls σ |}
  end.
Proof.
  intros Hself Hlist. unfold CertificateSigningRequestBuilder.add_extension.
  rewrite bind_unfold, (csr_attrs_lookup _ _ _ Hself).
  rewrite bind_unfold, (read_list_lookup _ _ _ Hlist).
  rewrite bind_unfold. unfold lift. cbn [_oid].
  destruct (check_not_set extensions (oid extension)); reflexivity.
Qed.

Lemma certificate_add_extension_twice σ self b extensions e1 c1 e2 c2 :
  heap σ !! self = Some (CertificateBuilderObject b) ->
  heap σ !! _extensions b = Some (ListObject extensions) ->
  oid e1 = oid e2 ->
  ((b1 ← CertificateBuilder.add_extension self e1 c1;
    CertificateBuilder.add_extension b1 e2 c2) σ).1
  = Raise already_set.
Proof.
  intros Hself Hlist Hoid.
  rewrite bind_unfold, (certificate_add_extension_run _ _ _ _ _ _ Hself Hlist).
  destruct (check_not_set_cases extensions (oid e1)) as [E|E]; rewrite E;
    [|reflexivity].
  rewrite certificate_init_run. cbn [heap backend_calls].
  set (l1 := fresh (dom (heap σ))).
  set (h1 := <[l1 := ListObject (extensions ++ [extension_of e1 c1])]>
               (heap σ)).
  set (l2 := fresh (dom h1)).
  erewrite certificate_add_extension_run.
  - rewrite (check_not_set_last extensions (extension_of e1 c1) (oid e2) Hoid).
    reflexivity.
  - cbn [heap]. apply lookup_insert_eq.
  - cbn [heap CertificateBuilder.instance _extensions].
    rewrite lookup_insert_ne by apply fresh_after_insert.
    apply lookup_insert_eq.
Qed.

Lemma csr_init_run σ subject exts :
  CertificateSigningRequestBuilder.__init__ subject exts σ =
  (Ok (fresh (dom (heap σ))),
   {| heap :=
        <[fresh (dom (heap σ)) :=
            CertificateSigningRequestBuilderObject
              {| csr_subject_name := subject; csr_extensions := exts |}]>
          (heap σ);
      backend_calls := backend_calls σ |}).
Proof. reflexivity. Qed.

Lemma csr_add_extension_twice σ self b extensions e1 c1 e2 c2 :
  heap σ !! self = Some (CertificateSigningRequestBuilderObject b) ->
  heap σ !! csr_extensions b = Some (ListObject extensions) ->
  oid e1 = oid e2 ->
  ((b1 ← CertificateSigningRequestBuilder.add_extension self e1 c1;
    CertificateSigningRequestBuilder.add_extension b1 e2 c2) σ).1
  = Raise already_set.
Proof.
  intros Hself Hlist Hoid.
  rewrite bind_unfold, (csr_add_extension_run _ _ _ _ _ _ Hself Hlist).
  destruct (check_not_set_cases extensions (oid e1)) as [E|E]; rewrite E;
    [|reflexivity].
  rewrite csr_init_run. cbn [heap backend_calls].
  erewrite csr_add_extension_run.
  - rewrite (check_not_set_last extensions (extension_of e1 c1) (oid e2) Hoid).
    reflexivity.
  - cbn [heap]. apply lookup_insert_eq.
  - cbn [heap csr_extensions].
    rewrite lookup_insert_ne by apply fresh_after_insert.
    apply lookup_insert_eq.
Qed.

Lemma certificate_add_extension_new σ self b extensions extension critical :
  heap σ !! self = Some (CertificateBuilderObject b) ->
  heap σ !! _extensions b = Some (ListObject extensions) ->
  (forall e, In e extensions -> _oid e <> oid extension) ->
  let out := CertificateBuilder.add_extension self extension critical σ in
  exists new extensions',
    out.1 = Ok new /\ heap σ !! new = None /\ heap σ !! extensions' = None /\
    heap out.2 !! new =
    Some (CertificateBuilderObject
            (CertificateBuilder.instance (_issuer_name b) (_subject_name b)
               (_public_key b) (_serial_number b) (_not_valid_before b)
               (_not_valid_after b) extensions')) /\
    heap out.2 !! extensions' =
    Some (ListObject (extensions ++ [extension_of extension critical])).
Proof.
  intros Hself Hlist Hnew out. unfold out.
  rewrite (certificate_add_extension_run _ _ _ _ _ _ Hself Hlist).
  apply check_not_set_ok in Hnew. rewrite Hnew, certificate_init_run.
  cbn [fst snd heap].
  set (l1 := fresh (dom (heap σ))).
  set (h1 := <[l1 := ListObject (extensions ++ [extension_of extension critical])]>
               (heap σ)).
  assert (Hne : fresh (dom h1) <> l1) by apply fresh_after_insert.
  exists (fresh (dom h1)), l1. split; [reflexivity|].
  split.
  { apply not_elem_of_dom. intros Hin. apply (is_fresh (dom h1)).
    unfold h1 at 2. rewrite dom_insert_L. set_solver. }
  split; [apply alloc_fresh|].
  split; [apply lookup_insert_eq|].
  rewrite lookup_insert_ne by exact Hne. apply lookup_insert_eq.
Qed.

Lemma csr_add_extension_new σ self b extensions extension critical :
  heap σ !! self = Some (CertificateSigningRequestBuilderObject b) ->
  heap σ !! csr_extensions b = Some (ListObject extensions) ->
  (forall e, In e extensions -> _oid e <> oid extension) ->
  let out :=
    CertificateSigningRequestBuilder.add_extension self extension critical σ in
  exists new extensions',
    out.1 = Ok new /\ heap σ !! new = None /\ heap σ !! extensions' = None /\
    heap out.2 !! new =
    Some (CertificateSigningRequestBuilderObject
            {| csr_subject_name := csr_subject_name b;
               csr_extensions := extensions' |}) /\
    heap out.2 !! extensions' =
    Some (ListObject (extensions ++ [extension_of extension critical])).
Proof.
  intros Hself Hlist Hnew out. unfold out.
  rewrite (csr_add_extension_run _ _ _ _ _ _ Hself Hlist).
  apply check_not_set_ok in Hnew. rewrite Hnew, csr_init_run.
  cbn [fst snd heap].
  set (l1 := fresh (dom (heap σ))).
  set (h1 := <[l1 := ListObject (extensions ++ [extension_of extension critical])]>
               (heap σ)).
  assert (Hne : fresh (dom h1) <> l1) by apply fresh_after_insert.
  exists (fresh (dom h1)), l1. split; [reflexivity|].
  split.
  { apply not_elem_of_dom. intros Hin. apply (is_fresh (dom h1)).
    unfold h1 at 2. rewrite dom_insert_L. set_solver. }
  split; [apply alloc_fresh|].
  split; [apply lookup_insert_eq|].
  rewrite lookup_insert_ne by exact Hne. apply lookup_insert_eq.
Qed.

(** C3: for both builders, adding two extension values with equal OIDs
    one after the other raises the already-set error, whatever the two
    critical flags are; adding a value whose OID no extension of the
    builder has returns a new builder whose list is the old one with the
    new extension appended, the other fields unchanged. *)
Theorem add_extension_unique_oid :
  (forall σ self b extensions e1 c1 e2 c2,
      heap σ !! self = Some (CertificateBuilderObject b) ->
      heap σ !! _extensions b = Some (ListObject extensions) ->
      oid e1 = oid e2 ->
      ((b1 ← CertificateBuilder.add_extension self e1 c1;
        CertificateBuilder.add_extension b1 e2 c2) σ).1
      = Raise already_set) /\
  (forall σ self b extensions e1 c1 e2 c2,
      heap σ !! self = Some (CertificateSigningRequestBuilderObject b) ->
      heap σ !! csr_extensions b = Some (ListObject extensions) ->
      oid e1 = oid e2 ->
      ((b1 ← CertificateSigningRequestBuilder.add_extension self e1 c1;
        CertificateSigningRequestBuilder.add_extension b1 e2 c2) σ).1
      = Raise already_set) /\
  (forall σ self b extensions extension critical,
      heap σ !! self = Some (CertificateBuilderObject b) ->
      heap σ !! _extensions b = Some (ListObject extensions) ->
      (forall e, In e extensions -> _oid e <> oid extension) ->
      let out := CertificateBuilder.add_extension self extension critical σ in
      exists new extensions',
        out.1 = Ok new /\ heap σ !! new = None /\
        heap σ !! extensions' = None /\
        heap out.2 !! new =
        Some (CertificateBuilderObject
                (CertificateBuilder.instance (_issuer_name b)
                   (_subject_name b) (_public_key b) (_serial_number b)
                   (_not_valid_before b) (_not_valid_after b) extensions')) /\
        heap out.2 !! extensions' =
        Some (ListObject (extensions ++ [extension_of extension critical]))) /\
  (forall σ self b extensions extension critical,
      heap σ !! self = Some (CertificateSigningRequestBuilderObject b) ->
      heap σ !! csr_extensions b = Some (ListObject extensions) ->
      (forall e, In e extensions -> _oid e <> oid extension) ->
      let out :=
        CertificateSigningRequestBuilder.add_extension self extension
                                                       critical σ in
      exists new extensions',
        out.1 = Ok new /\ heap σ !! new = None /\
        heap σ !! extensions' = None /\
        heap out.2 !! new =
        Some (CertificateSigningRequestBuilderObject
                {| csr_subject_name := csr_subject_name b;
                   csr_extensions := extensions' |}) /\
        heap out.2 !! extensions' =
        Some (ListObject (extensions ++ [extension_of extension critical]))).
Proof.
  split; [exact certificate_add_extension_twice|].
  split; [exact csr_add_extension_twice|].
  split; [exact certificate_add_extension_new|].
  exact csr_add_extension_new.
Qed.

(** C3 at a concrete input: two key-usage values, the first critical and
    the second not, added to the empty certificate builder. *)
Lemma add_extension_unique_oid_witness :
  ((b1 ← CertificateBuilder.add_extension 3%positive
           (KeyUsageValue sample_key_usage) true;
    CertificateBuilder.add_extension b1
      (KeyUsageValue sample_key_usage) false) empty_certificate_builder).1
  = Raise already_set.
Proof.
  apply (proj1 add_extension_unique_oid empty_certificate_builder 3%positive
           (CertificateBuilder.instance None None None None None None
              CertificateBuilder.default_extensions) []);
    reflexivity.
Defined.

(** ** Setters create and never modify *)

Lemma preserves_refl (σ : state) : preserves σ σ.
Proof. split; [auto|reflexivity]. Qed.

Lemma preserves_trans (σ1 σ2 σ3 : state) :
  preserves σ1 σ2 -> preserves σ2 σ3 -> preserves σ1 σ3.
Proof.
  intros [H1 L1] [H2 L2]. split; [auto|congruence].
Qed.

Lemma pure_ret {A : Type} (a : A) : pure_call (mret a).
Proof. intros σ. apply preserves_refl. Qed.

Lemma pure_raise {A : Type} (e : exn) : pure_call (raise (A := A) e).
Proof. intros σ. apply preserves_refl. Qed.

Lemma pure_lift {A : Type} (r : result A) : pure_call (lift r).
Proof. intros σ. apply preserves_refl. Qed.

Lemma pure_read_list (l : loc) : pure_call (read_list l).
Proof.
  intros σ. unfold read_list.
  destruct (heap σ !! l) as [[]|]; apply preserves_refl.
Qed.

Lemma pure_certificate_attrs (self : loc) :
  pure_call (CertificateBuilder.attrs self).
Proof.
  intros σ. unfold CertificateBuilder.attrs.
  destruct (heap σ !! self) as [[]|]; apply preserves_refl.
Qed.

Lemma pure_csr_attrs (self : loc) :
  pure_call (CertificateSigningRequestBuilder.attrs self).
Proof.
  intros σ. unfold CertificateSigningRequestBuilder.attrs.
  destruct (heap σ !! self) as [[]|]; apply preserves_refl.
Qed.

Lemma pure_alloc (o : object) : pure_call (alloc o).
Proof.
  intros σ. rewrite alloc_unfold. cbn [snd]. split; [|reflexivity].
  intros l o' Hl. cbn [heap]. rewrite lookup_insert_ne; [exact Hl|].
  intros <-. rewrite alloc_fresh in Hl. discriminate Hl.
Qed.

Lemma pure_bind {A B : Type} (m : M A) (k : A -> M B) :
  pure_call m -> (forall a, pure_call (k a)) -> pure_call (m ≫= k).
Proof.
  intros Hm Hk σ. rewrite bind_unfold. specialize (Hm σ).
  destruct (m σ) as [[a|e] σ']; cbn [snd] in *; [|exact Hm].
  exact (preserves_trans _ _ _ Hm (Hk a σ')).
Qed.

Lemma new_builder_raise (e : exn) : returns_new_builder (raise e).
Proof.
  intros σ. split; [apply preserves_refl|]. intros new H. discriminate H.
Qed.

Lemma new_builder_alloc (o : object) :
  is_builder o -> returns_new_builder (alloc o).
Proof.
  intros Ho σ. split; [apply pure_alloc|]. intros new H.
  rewrite alloc_unfold in *. cbn [fst snd heap] in *. inversion H; subst new.
  split; [apply alloc_fresh|]. exists o. split; [apply lookup_insert_eq|exact Ho].
Qed.

Lemma new_builder_bind {A : Type} (m : M A) (k : A -> M loc) :
  pure_call m -> (forall a, returns_new_builder (k a)) ->
  returns_new_builder (m ≫= k).
Proof.
  intros Hm Hk σ. rewrite bind_unfold. specialize (Hm σ).
  destruct (m σ) as [[a|e] σ']; cbn [fst snd] in *.
  - destruct (Hk a σ') as [Hp Hnew]. split.
    + exact (preserves_trans _ _ _ Hm Hp).
    + intros new H. destruct (Hnew new H) as [Hfresh Hobj].
      split; [|exact Hobj].
      destruct (heap σ !! new) as [o|] eqn:E; [|reflexivity].
      rewrite (proj1 Hm new o E) in Hfresh. discriminate Hfresh.
  - split; [exact Hm|]. intros new H. discriminate H.
Qed.

Create HintDb builders.

#[local] Hint Resolve pure_ret pure_raise pure_lift pure_read_list
  pure_certificate_attrs pure_csr_attrs pure_alloc pure_bind
  new_builder_raise new_builder_alloc new_builder_bind : builders.

Lemma new_builder_certificate_init issuer subject key serial before after
    exts :
  returns_new_builder
    (CertificateBuilder.__init__ issuer subject key serial before after exts).
Proof. apply new_builder_alloc. exact I. Qed.

Lemma new_builder_csr_init subject exts :
  returns_new_builder (CertificateSigningRequestBuilder.__init__ subject exts).
Proof. apply new_builder_alloc. exact I. Qed.

#[local] Hint Resolve new_builder_certificate_init new_builder_csr_init
  : builders.

Ltac new_builder :=
  repeat first
    [ apply new_builder_bind; [auto with builders | intros ?]
    | match goal with
      | |- returns_new_builder (if ?c then _ else _) => destruct c
      | |- returns_new_builder (match ?x with _ => _ end) => destruct x
      end
    | solve [auto with builders] ].

Lemma call_setter_new_builder (c : setter_call) (self : loc) :
  returns_new_builder (call_setter c self).
Proof.
  destruct c; cbn [call_setter];
    unfold CertificateBuilder.issuer_name, CertificateBuilder.subject_name,
      CertificateBuilder.public_key, CertificateBuilder.serial_number,
      CertificateBuilder.not_valid_before, CertificateBuilder.not_valid_after,
      CertificateBuilder.add_extension,
      CertificateSigningRequestBuilder.subject_name,
      CertificateSigningRequestBuilder.add_extension;
    new_builder.
Qed.

Lemma call_setters_pure (cs : list setter_call) (self : loc) :
  pure_call (call_setters cs self).
Proof.
  revert self. induction cs as [|c rest IH]; intros self; cbn [call_setters].
  - apply pure_ret.
  - apply pure_bind; [|exact IH].
    intros σ. apply (call_setter_new_builder c self σ).
Qed.

Lemma preserves_read_certificate_builder σ σ' l v :
  preserves σ σ' ->
  read_certificate_builder σ l = Some v ->
  read_certificate_builder σ' l = Some v.
Proof.
  intros [Hp _]. unfold read_certificate_builder.
  destruct (heap σ !! l) as [[| b |]|] eqn:E; try discriminate.
  rewrite (Hp _ _ E).
  destruct (heap σ !! _extensions b) as [[items| |]|] eqn:E';
    try discriminate.
  rewrite (Hp _ _ E'). auto.
Qed.

Lemma preserves_read_csr_builder σ σ' l v :
  preserves σ σ' ->
  read_csr_builder σ l = Some v -> read_csr_builder σ' l = Some v.
Proof.
  intros [Hp _]. unfold read_csr_builder.
  destruct (heap σ !! l) as [[| |b]|] eqn:E; try discriminate.
  rewrite (Hp _ _ E).
  destruct (heap σ !! csr_extensions b) as [[items| |]|] eqn:E';
    try discriminate.
  rewrite (Hp _ _ E'). auto.
Qed.

(** C8: every setter call of either builder leaves every existing object
    as it is and, when it returns, returns a builder that did not exist
    before; hence after any chain of setter calls made from one builder,
    whatever could be read from any other builder (its fields and the
    items of its extension list) is read unchanged. *)
Theorem setters_are_pure :
  (forall c self, returns_new_builder (call_setter c self)) /\
  (forall cs self σ other o,
      heap σ !! other = Some o ->
      heap (call_setters cs self σ).2 !! other = Some o) /\
  (forall cs self σ other v,
      read_certificate_builder σ other = Some v ->
      read_certificate_builder (call_setters cs self σ).2 other = Some v) /\
  (forall cs self σ other v,
      read_csr_builder σ other = Some v ->
      read_csr_builder (call_setters cs self σ).2 other = Some v).
Proof.
  split; [exact call_setter_new_builder|]. split; [|split].
  - intros cs self σ other o H.
    exact (proj1 (call_setters_pure cs self σ) other o H).
  - intros cs self σ other v.
    apply preserves_read_certificate_builder, call_setters_pure.
  - intros cs self σ other v.
    apply preserves_read_csr_builder, call_setters_pure.
Qed.

(** C8 at a concrete input: of two builders derived from the empty one by
    the serial numbers 1 and 2, the first is given an issuer, a key usage
    extension and a validity start; the second still reads serial number
    2, no other field, and no extension. *)
Lemma setters_are_pure_witness :
  read_certificate_builder
    (call_setters
       [Certificate_issuer_name sample_name;
        Certificate_add_extension (KeyUsageValue sample_key_usage) true;
        Certificate_not_valid_before (datetime_of_date 2030 1 1)]
       4%positive two_derived_builders).2 5%positive
  = Some (CertificateBuilder.instance None None None (Some 2) None None
            CertificateBuilder.default_extensions, []).
Proof.
  apply (proj1 (proj2 (proj2 setters_are_pure))). reflexivity.
Defined.


(** * Further properties *)

(** ** Key identifiers of arbitrary bit strings *)

Lemma bytes_to_int_strip_zeros (l : bytes) :
  bytes_to_int (strip_zeros l) = bytes_to_int l.
Proof.
  induction l as [|b r IH]; [reflexivity|]. cbn [strip_zeros].
  destruct (Z_of_byte b =? 0) eqn:E; [|reflexivity].
  apply Z.eqb_eq in E. rewrite IH. cbn [bytes_to_int]. rewrite E. lia.
Qed.

Lemma strip_zeros_head (l : bytes) b r :
  strip_zeros l = b :: r -> b <> x00.
Proof.
  induction l as [|a l IH]; [discriminate|]. cbn [strip_zeros].
  destruct (Z_of_byte a =? 0) eqn:E; [exact IH|].
  intros H Hb. inversion H; subst. discriminate E.
Qed.

Lemma int_to_bytes_strip_zeros (l : bytes) :
  int_to_bytes (bytes_to_int l) =
  match strip_zeros l with
  | [] => [x00]
  | b :: r => b :: r
  end.
Proof.
  rewrite <- bytes_to_int_strip_zeros.
  destruct (strip_zeros l) as [|b r] eqn:E; [reflexivity|].
  apply int_to_bytes_bytes_to_int. exact (strip_zeros_head _ _ _ E).
Qed.

Lemma bits_to_int_leading_zeros (n : nat) (bits : list bool) :
  bits_to_int (repeat false n ++ bits) = bits_to_int bits.
Proof.
  induction n as [|n IH]; [reflexivity|].
  cbn [repeat app]. rewrite bits_to_int_leading_zero. exact IH.
Qed.

(** X1: whatever the decoder, for a key whose decoded subjectPublicKey
    bit string is a whole number of octets, the identifier is the SHA-1
    digest of those octets without their leading zero octets, and of the
    single octet 00 when none is left (an empty or all-zero bit
    string). *)
Theorem key_identifier_strips_zero_octets (decoder : Decoder)
    (public_key : PublicKey) spki (octets : bytes) :
  decode (public_bytes public_key) = Ok (spki, []) ->
  subjectPublicKey spki = bits_of_bytes octets ->
  _key_identifier_from_public_key public_key =
  Ok (SHA1.digest match strip_zeros octets with
                  | [] => [x00]
                  | b :: r => b :: r
                  end).
Proof.
  intros Hdec Hbits. rewrite (key_identifier_unfold _ _ _ Hdec), Hbits.
  rewrite bits_to_int_bytes, int_to_bytes_strip_zeros. reflexivity.
Qed.

Lemma key_identifier_strips_zero_octets_witness :
  @_key_identifier_from_public_key DER.decoder leading_zero_key
  = Ok (SHA1.digest [x01]).
Proof.
  refine (key_identifier_strips_zero_octets DER.decoder leading_zero_key
            {| algorithm := [Primitive x06 [x2a]];
               subjectPublicKey := bits_of_bytes [x00; x01] |}
            [x00; x01] _ _); vm_compute; reflexivity.
Defined.

(** X2: whatever the decoder, two keys whose decoded subjectPublicKey bit
    strings differ only by zero bits in front get the same identifier. *)
Theorem key_identifier_ignores_leading_zero_bits (decoder : Decoder)
    (k1 k2 : PublicKey) spki1 spki2 (n : nat) :
  decode (public_bytes k1) = Ok (spki1, []) ->
  decode (public_bytes k2) = Ok (spki2, []) ->
  subjectPublicKey spki1 = repeat false n ++ subjectPublicKey spki2 ->
  _key_identifier_from_public_key k1 = _key_identifier_from_public_key k2.
Proof.
  intros H1 H2 Hbits.
  rewrite (key_identifier_unfold _ _ _ H1), (key_identifier_unfold _ _ _ H2).
  rewrite Hbits, bits_to_int_leading_zeros. reflexivity.
Qed.

Lemma key_identifier_ignores_leading_zero_bits_witness :
  @_key_identifier_from_public_key DER.decoder leading_zero_key =
  @_key_identifier_from_public_key DER.decoder one_octet_key.
Proof.
  refine (key_identifier_ignores_leading_zero_bits DER.decoder
            leading_zero_key one_octet_key
            {| algorithm := [Primitive x06 [x2a]];
               subjectPublicKey := bits_of_bytes [x00; x01] |}
            {| algorithm := [Primitive x06 [x2a]];
               subjectPublicKey := bits_of_bytes [x01] |}
            8 _ _ _); vm_compute; reflexivity.
Defined.

(** ** Subject and authority key identifiers *)

(** X3: whatever the decoder, the subject key identifier derived from a
    key and the authority key identifier derived from the same key hold
    the same 20-byte digest, and the latter names no issuer and no serial
    number; each derivation raises exactly when the other does. *)
Theorem subject_and_authority_key_identifier_agree (decoder : Decoder)
    (public_key : PublicKey) :
  (forall digest,
      SubjectKeyIdentifier.from_public_key public_key
      = Ok (SubjectKeyIdentifierValue digest) <->
      AuthorityKeyIdentifier.from_issuer_public_key public_key
      = Ok (AuthorityKeyIdentifierValue (Some digest) None None)) /\
  (forall digest,
      SubjectKeyIdentifier.from_public_key public_key
      = Ok (SubjectKeyIdentifierValue digest) ->
      length digest = 20%nat) /\
  (forall e,
      SubjectKeyIdentifier.from_public_key public_key = Raise e <->
      AuthorityKeyIdentifier.from_issuer_public_key public_key = Raise e).
Proof.
  unfold SubjectKeyIdentifier.from_public_key,
    AuthorityKeyIdentifier.from_issuer_public_key.
  pose proof (key_identifier_length decoder public_key) as Hlen.
  destruct (_key_identifier_from_public_key public_key) as [d|e0]; cbn.
  - split; [|split].
    + intros digest. split; intros H; inversion H; reflexivity.
    + intros digest H. inversion H; subst. apply Hlen. reflexivity.
    + intros e. split; discriminate.
  - split; [|split].
    + intros digest. split; discriminate.
    + intros digest H. discriminate H.
    + intros e. tauto.
Qed.

Lemma subject_and_authority_key_identifier_agree_witness :
  @AuthorityKeyIdentifier.from_issuer_public_key DER.decoder p256_key
  = Ok (AuthorityKeyIdentifierValue (Some (SHA1.digest p256_point)) None None).
Proof.
  apply (proj1 (subject_and_authority_key_identifier_agree DER.decoder
                  p256_key)).
  vm_compute. reflexivity.
Defined.

(** ** Lookup in an Extensions container *)

Lemma first_with_oid_some (items : list Extension) o ext :
  Extensions.first_with_oid items o = Some ext <->
  exists before after,
    items = before ++ ext :: after /\ _oid ext = o /\
    (forall e, In e before -> _oid e <> o).
Proof.
  induction items as [|x rest IH]; cbn [Extensions.first_with_oid].
  - split; [discriminate|]. intros (before & after & H & _).
    destruct before; discriminate H.
  - unfold oid_eqb. destruct (bool_decide (_oid x = o)) eqn:E.
    + apply bool_decide_eq_true in E. split.
      * intros H. inversion H; subst x. exists [], rest.
        split; [reflexivity|]. split; [exact E|]. intros e [].
      * intros (before & after & H & Ho & Hb).
        destruct before as [|y before]; cbn in H; injection H as Hx Hrest.
        -- rewrite Hx. reflexivity.
        -- rewrite Hx in E. destruct (Hb y (or_introl eq_refl) E).
    + apply bool_decide_eq_false in E. rewrite IH. split.
      * intros (before & after & -> & Ho & Hb).
        exists (x :: before), after. split; [reflexivity|].
        split; [exact Ho|]. intros e [<-|Hin]; auto.
      * intros (before & after & H & Ho & Hb).
        destruct before as [|y before]; cbn in H; injection H as Hx Hrest.
        -- rewrite Hx in E. destruct (E Ho).
        -- exists before, after. split; [exact Hrest|].
           split; [exact Ho|]. intros e Hin. apply Hb. right. exact Hin.
Qed.

Lemma first_with_oid_none (items : list Extension) o :
  Extensions.first_with_oid items o = None <->
  (forall e, In e items -> _oid e <> o).
Proof.
  induction items as [|x rest IH]; cbn [Extensions.first_with_oid].
  - split; [intros _ e []|reflexivity].
  - unfold oid_eqb. destruct (bool_decide (_oid x = o)) eqn:E.
    + apply bool_decide_eq_true in E. split; [discriminate|].
      intros H. destruct (H x (or_introl eq_refl) E).
    + apply bool_decide_eq_false in E. rewrite IH. split.
      * intros H e [<-|Hin]; auto.
      * intros H e Hin. apply H. right. exact Hin.
Qed.

(** X4: [get_extension_for_oid] returns the first extension of the
    container whose OID is the one asked for, and raises
    [ExtensionNotFound], carrying that OID, exactly when no extension of
    the container has it. *)
Theorem get_extension_for_oid_first_match (self : Extensions)
    (o : ObjectIdentifier) :
  (forall ext,
      Extensions.get_extension_for_oid self o = Ok ext <->
      exists before after,
        extensions_items self = before ++ ext :: after /\ _oid ext = o /\
        (forall e, In e before -> _oid e <> o)) /\
  ((exists msg,
       Extensions.get_extension_for_oid self o
       = Raise (ExtensionNotFound msg o)) <->
   (forall e, In e (extensions_items self) -> _oid e <> o)) /\
  (forall e, Extensions.get_extension_for_oid self o = Raise e ->
             exists msg, e = ExtensionNotFound msg o).
Proof.
  unfold Extensions.get_extension_for_oid.
  pose proof (first_with_oid_some (extensions_items self) o) as Hs.
  pose proof (first_with_oid_none (extensions_items self) o) as Hn.
  destruct (Extensions.first_with_oid (extensions_items self) o) as [x|].
  - split; [|split].
    + intros ext. rewrite <- Hs. split; intros H; inversion H; reflexivity.
    + split; [intros [msg H]; discriminate H|].
      intros H. apply Hn in H. discriminate H.
    + intros e H. discriminate H.
  - split; [|split].
    + intros ext. rewrite <- Hs. split; discriminate.
    + split; [intros _; apply Hn; reflexivity|].
      intros _. eexists. reflexivity.
    + intros e H. inversion H. eexists. reflexivity.
Qed.

Lemma get_extension_for_oid_first_match_witness :
  Extensions.get_extension_for_oid sample_extensions ExtensionOID.KEY_USAGE
  = Ok (extension_of (KeyUsageValue sample_key_usage) true).
Proof.
  apply (proj1 (get_extension_for_oid_first_match sample_extensions
                  ExtensionOID.KEY_USAGE)).
  exists [extension_of (BasicConstraintsValue true (Some 0)) true],
    [extension_of (SubjectKeyIdentifierValue []) false].
  split; [reflexivity|]. split; [reflexivity|].
  intros e [<-|[]]. discriminate.
Defined.

(** ** BasicConstraints *)

(** X5: [BasicConstraints] is constructed exactly when [path_length] is
    [None], or [ca] is true and [path_length] is not negative, and then
    stores both as given; a path length with [ca] false raises a value
    error, whatever its sign, and a negative one with [ca] true raises a
    type error. *)
Theorem BasicConstraints_init_spec (ca : bool) (path_length : option Z) :
  let made := BasicConstraints.__init__ ca path_length in
  (made = Ok (BasicConstraintsValue ca path_length) <->
   (path_length = None \/
    (ca = true /\ exists n, path_length = Some n /\ 0 <= n))) /\
  (forall v, made = Ok v -> v = BasicConstraintsValue ca path_length) /\
  (ca = false -> path_length <> None ->
   exists msg, made = Raise (ValueError msg)) /\
  (ca = true -> forall n, path_length = Some n -> n < 0 ->
   exists msg, made = Raise (TypeError msg)).
Proof.
  cbv zeta. unfold BasicConstraints.__init__.
  destruct path_length as [n|]; cbn [is_set andb].
  - destruct ca; cbn [negb].
    + destruct (n <? 0) eqn:E.
      * apply Z.ltb_lt in E. split; [|split; [|split]].
        -- split; [discriminate|]. intros [H|(_ & m & H & Hm)];
             [discriminate H|]. inversion H; subst. lia.
        -- intros v H. discriminate H.
        -- discriminate.
        -- intros _ m H _. eexists. reflexivity.
      * apply Z.ltb_ge in E. split; [|split; [|split]].
        -- split; [|reflexivity]. intros _. right.
           split; [reflexivity|]. exists n. auto.
        -- intros v H. inversion H. reflexivity.
        -- discriminate.
        -- intros _ m H Hm. inversion H; subst. lia.
    + split; [|split; [|split]].
      * split; [discriminate|]. intros [H|(H & _)]; discriminate H.
      * intros v H. discriminate H.
      * intros _ _. eexists. reflexivity.
      * discriminate.
  - split; [|split; [|split]].
    + split; [auto|reflexivity].
    + intros v H. inversion H. reflexivity.
    + intros _ H. destruct (H eq_refl).
    + intros _ n H. discriminate H.
Qed.

Lemma BasicConstraints_init_spec_witness :
  BasicConstraints.__init__ true (Some 3)
  = Ok (BasicConstraintsValue true (Some 3)).
Proof.
  apply (proj1 (BasicConstraints_init_spec true (Some 3))).
  right. split; [reflexivity|]. exists 3. split; [reflexivity|lia].
Defined.

(** ** AuthorityKeyIdentifier *)

(** X6: the issuer and the serial number of an [AuthorityKeyIdentifier]
    are tested by their truth value: construction succeeds exactly when
    the issuer is a non-empty list of general names and the serial number
    is a non-zero integer, or the issuer is [None] or empty and the
    serial number is [None] or zero.  So a non-empty issuer with the
    serial number 0 raises a value error, and the serial number 0 without
    an issuer is accepted and stored. *)
Theorem AuthorityKeyIdentifier_init_spec (key_identifier : option bytes)
    (authority_cert_issuer : option (list PyObject))
    (authority_cert_serial_number : option Z) :
  let made :=
    AuthorityKeyIdentifier.__init__ key_identifier authority_cert_issuer
      authority_cert_serial_number in
  ((exists v, made = Ok v) <->
   (truthy_list authority_cert_issuer = true /\
    truthy_int authority_cert_serial_number = true /\
    forall x, In x (default [] authority_cert_issuer) ->
              exists g, x = PyGeneralName g) \/
   (truthy_list authority_cert_issuer = false /\
    truthy_int authority_cert_serial_number = false)) /\
  (forall v, made = Ok v ->
     v = AuthorityKeyIdentifierValue key_identifier
           (general_names_of <$> authority_cert_issuer)
           authority_cert_serial_number) /\
  (truthy_list authority_cert_issuer = true ->
   authority_cert_serial_number = Some 0 ->
   exists msg, made = Raise (ValueError msg)) /\
  (authority_cert_issuer = None ->
   authority_cert_serial_number = Some 0 ->
   made = Ok (AuthorityKeyIdentifierValue key_identifier None (Some 0))).
Proof.
  cbv zeta. unfold AuthorityKeyIdentifier.__init__.
  assert (Hall : forallb isinstance_GeneralName
                   (default [] authority_cert_issuer) = true <->
                 forall x, In x (default [] authority_cert_issuer) ->
                           exists g, x = PyGeneralName g).
  { rewrite forallb_forall. split; intros H x Hin; specialize (H x Hin).
    - destruct x; try discriminate H. eexists. reflexivity.
    - destruct H as [g ->]. reflexivity. }
  destruct (truthy_list authority_cert_issuer) eqn:Ei;
    destruct (truthy_int authority_cert_serial_number) eqn:Es;
    cbn [orb negb].
  - destruct (forallb isinstance_GeneralName
                (default [] authority_cert_issuer)) eqn:Ea; cbn [negb].
    + split; [|split; [|split]].
      * split; [intros _; left|intros _; eexists; reflexivity].
        split; [reflexivity|]. split; [reflexivity|]. apply Hall. reflexivity.
      * intros v H. inversion H. reflexivity.
      * intros _ ->. discriminate Es.
      * intros ->. discriminate Ei.
    + split; [|split; [|split]].
      * split; [intros [v H]; discriminate H|].
        intros [(_ & _ & H)|(H & _)]; [|discriminate H].
        apply Hall in H. discriminate H.
      * intros v H. discriminate H.
      * intros _ ->. discriminate Es.
      * intros ->. discriminate Ei.
  - split; [|split; [|split]].
    + split; [intros [v H]; discriminate H|].
      intros [(_ & H & _)|(H & _)]; discriminate H.
    + intros v H. discriminate H.
    + intros _ _. eexists. reflexivity.
    + intros ->. discriminate Ei.
  - split; [|split; [|split]].
    + split; [intros [v H]; discriminate H|].
      intros [(H & _)|(_ & H)]; discriminate H.
    + intros v H. discriminate H.
    + discriminate.
    + intros _ ->. discriminate Es.
  - split; [|split; [|split]].
    + split; [intros _; right; auto|intros _; eexists; reflexivity].
    + intros v H. inversion H. reflexivity.
    + discriminate.
    + intros -> ->. reflexivity.
Qed.

Lemma AuthorityKeyIdentifier_init_spec_witness :
  exists msg,
    AuthorityKeyIdentifier.__init__ None
      (Some [PyGeneralName (DNSName "ca.example.com")]) (Some 0)
    = Raise (ValueError msg).
Proof.
  apply (proj1 (proj2 (proj2 (AuthorityKeyIdentifier_init_spec None
                                (Some [PyGeneralName (DNSName "ca.example.com")])
                                (Some 0)))));
    reflexivity.
Defined.

(** ** DistributionPoint: names and reasons together *)

Lemma valid_reasons_iff (reasons : PyObject) :
  valid_reasons reasons <->
  DistributionPoint.not_frozenset_of_flags reasons = false /\
  DistributionPoint.has_invalid_reason reasons = false.
Proof.
  unfold valid_reasons, DistributionPoint.not_frozenset_of_flags,
    DistributionPoint.has_invalid_reason.
  split.
  - intros (items & -> & Hall). cbn [isinstance_frozenset items_of negb orb].
    split.
    + apply negb_false_iff, forallb_forall. intros x Hin.
      destruct (Hall x Hin) as (r & -> & _). reflexivity.
    + apply orb_false_iff. split.
      * destruct (contains_flag unspecified items) eqn:E; [|reflexivity].
        apply existsb_exists in E as (x & Hin & Hx).
        destruct (Hall x Hin) as (r & -> & Hu & _).
        apply bool_decide_eq_true in Hx. destruct (Hu Hx).
      * destruct (contains_flag remove_from_crl items) eqn:E; [|reflexivity].
        apply existsb_exists in E as (x & Hin & Hx).
        destruct (Hall x Hin) as (r & -> & _ & Hr).
        apply bool_decide_eq_true in Hx. destruct (Hr Hx).
  - intros [H1 H2]. apply orb_false_iff in H1 as [Hfs Hall].
    apply negb_false_iff in Hfs, Hall.
    destruct reasons as [| | | | |items]; try discriminate Hfs.
    cbn [items_of] in *. apply orb_false_iff in H2 as [Hu Hr].
    exists items. split; [reflexivity|]. intros x Hin.
    rewrite forallb_forall in Hall. specialize (Hall x Hin).
    destruct x; try discriminate Hall. eexists. split; [reflexivity|].
    split; eapply contains_flag_false; eauto.
Qed.

Lemma DistributionPoint_init_cases (full_name : option (list PyObject))
    (relative_name reasons : PyObject) (crl_issuer : option (list PyObject)) :
  let made :=
    DistributionPoint.__init__ full_name relative_name reasons crl_issuer in
  ((exists self, made = Ok self) <->
   ((truthy_list full_name = false \/ truthy relative_name = false) /\
    (truthy_list full_name = true ->
     DistributionPoint.all_general_names full_name = true) /\
    (truthy relative_name = true -> isinstance_Name relative_name = true) /\
    (truthy_list crl_issuer = true ->
     DistributionPoint.all_general_names crl_issuer = true) /\
    (truthy reasons = true ->
     valid_reasons reasons /\
     (truthy_list crl_issuer = true \/ truthy_list full_name = true \/
      truthy relative_name = true)))) /\
  (forall self, made = Ok self ->
     self = {| _full_name := full_name; _relative_name := relative_name;
               _reasons := reasons; _crl_issuer := crl_issuer |}) /\
  (truthy_list full_name = true -> truthy relative_name = true ->
   exists msg, made = Raise (ValueError msg)) /\
  (forall e, made = Raise e ->
     exists msg, e = TypeError msg \/ e = ValueError msg).
Proof.
  cbv zeta. rewrite valid_reasons_iff. unfold DistributionPoint.__init__.
  destruct (truthy_list full_name), (truthy relative_name),
    (DistributionPoint.all_general_names full_name),
    (isinstance_Name relative_name), (truthy_list crl_issuer),
    (DistributionPoint.all_general_names crl_issuer), (truthy reasons),
    (DistributionPoint.not_frozenset_of_flags reasons),
    (DistributionPoint.has_invalid_reason reasons);
    cbn [andb orb negb];
    (split;
     [ split;
       [ intros [self H]; try discriminate H;
         repeat split; intros; auto; try discriminate
       | intros (H1 & H2 & H3 & H4 & H5);
         first [ eexists; reflexivity
               | exfalso;
                 first [ destruct H1 as [H1|H1]; discriminate H1
                       | discriminate (H2 eq_refl)
                       | discriminate (H3 eq_refl)
                       | discriminate (H4 eq_refl)
                       | destruct (H5 eq_refl) as [[Ha Hb] Hc];
                         first [ discriminate Ha | discriminate Hb
                               | destruct Hc as [Hc|[Hc|Hc]];
                                 discriminate Hc ] ] ] ]
     | split;
       [ intros self H; inversion H; reflexivity
       | split;
         [ intros Hf Hr; first [ discriminate Hf | discriminate Hr
                               | eexists; reflexivity ]
         | intros e H; first [ discriminate H
                             | inversion H; eexists; eauto ] ] ] ]).
Qed.

Lemma supplied_truthy (names : option (list PyObject)) :
  supplied names <-> truthy_list names = true.
Proof.
  unfold supplied. destruct names as [[|first others]|]; cbn; split;
    try discriminate; try reflexivity;
    try (intros (? & ? & H); discriminate H).
  intros _. exists first, others. reflexivity.
Qed.

Lemma not_supplied_truthy (names : option (list PyObject)) :
  ~ supplied names <-> truthy_list names = false.
Proof.
  rewrite supplied_truthy. destruct (truthy_list names); split;
    intros H; try reflexivity; try discriminate H; try discriminate.
  destruct (H eq_refl).
Qed.

Lemma all_names_iff (names : option (list PyObject)) :
  all_names names <-> DistributionPoint.all_general_names names = true.
Proof.
  unfold all_names, DistributionPoint.all_general_names.
  destruct names as [items|]; [|split; [reflexivity|discriminate]].
  rewrite forallb_forall. split.
  - intros H x Hin. specialize (H items eq_refl).
    rewrite List.Forall_forall in H. destruct (H x Hin) as [g ->].
    reflexivity.
  - intros H items' Heq. inversion Heq; subst. apply List.Forall_forall.
    intros x Hin. specialize (H x Hin).
    destruct x; try discriminate H. eexists. reflexivity.
Qed.

Lemma all_names_empty (names : option (list PyObject)) :
  truthy_list names = false -> all_names names.
Proof.
  intros H items ->. destruct items; [constructor|discriminate H].
Qed.

Lemma isinstance_Name_iff (o : PyObject) :
  isinstance_Name o = true <-> exists n, o = PyName n.
Proof.
  destruct o; cbn; split; try discriminate;
    try (intros [? H]; discriminate H).
  - intros _. eexists. reflexivity.
  - reflexivity.
Qed.

(** X8: a [DistributionPoint] is constructed exactly when [full_name] and
    [relative_name] are not both given, the items of [full_name] and of
    [crl_issuer] are all general names, a [relative_name] that is given
    is a [Name], and [reasons] that are given are a frozenset of reason
    flags without [unspecified] and [remove_from_crl] and come with a
    [crl_issuer], [full_name] or [relative_name]; the instance stores the
    four arguments as given.  Giving both [full_name] and [relative_name]
    is a value error whatever the other arguments are, and no exception
    other than a type error or a value error is raised. *)
Theorem DistributionPoint_init_spec (full_name : option (list PyObject))
    (relative_name reasons : PyObject) (crl_issuer : option (list PyObject)) :
  let made :=
    DistributionPoint.__init__ full_name relative_name reasons crl_issuer in
  ((exists self, made = Ok self) <->
   (~ (supplied full_name /\ truthy relative_name = true) /\
    all_names full_name /\
    (truthy relative_name = true -> exists n, relative_name = PyName n) /\
    all_names crl_issuer /\
    (truthy reasons = true ->
     valid_reasons reasons /\
     (supplied crl_issuer \/ supplied full_name \/
      truthy relative_name = true)))) /\
  (forall self, made = Ok self ->
     self = {| _full_name := full_name; _relative_name := relative_name;
               _reasons := reasons; _crl_issuer := crl_issuer |}) /\
  (supplied full_name -> truthy relative_name = true ->
   exists msg, made = Raise (ValueError msg)) /\
  (forall e, made = Raise e ->
     exists msg, e = TypeError msg \/ e = ValueError msg).
Proof.
  cbv zeta.
  destruct (DistributionPoint_init_cases full_name relative_name reasons
              crl_issuer) as (Hiff & Hstore & Hboth & Hkind).
  cbv zeta in Hiff, Hstore, Hboth, Hkind.
  split; [|split; [exact Hstore|split; [|exact Hkind]]].
  - rewrite Hiff. rewrite !supplied_truthy, <- !isinstance_Name_iff.
    split.
    + intros (H1 & H2 & H3 & H4 & H5).
      split; [intros [Hf Hr]; destruct H1 as [H1|H1]; congruence|].
      split.
      { destruct (truthy_list full_name) eqn:E;
          [apply all_names_iff, H2; reflexivity
          |apply all_names_empty, E]. }
      split; [exact H3|]. split; [|exact H5].
      destruct (truthy_list crl_issuer) eqn:E;
        [apply all_names_iff, H4; reflexivity|apply all_names_empty, E].
    + intros (H1 & H2 & H3 & H4 & H5).
      split.
      { destruct (truthy_list full_name); [|left; reflexivity].
        destruct (truthy relative_name); [|right; reflexivity].
        destruct H1. split; reflexivity. }
      split; [intros _; apply all_names_iff, H2|].
      split; [exact H3|].
      split; [intros _; apply all_names_iff, H4|exact H5].
  - intros Hf Hr. apply Hboth; [apply supplied_truthy, Hf|exact Hr].
Qed.

(** X8 at a distribution point with a full name, two reasons and a CRL
    issuer. *)
Lemma DistributionPoint_init_spec_witness :
  exists self,
    DistributionPoint.__init__
      (Some [PyGeneralName
               (UniformResourceIdentifier "http://crl.example.com")])
      PyNone
      (PyFrozenset [PyReasonFlags key_compromise;
                    PyReasonFlags ca_compromise])
      (Some [PyGeneralName (DirectoryName sample_name)])
    = Ok self.
Proof.
  apply (proj1 (DistributionPoint_init_spec _ _ _ _)).
  split; [intros [_ H]; discriminate H|].
  split.
  { intros items H. inversion H; subst. repeat constructor.
    eexists. reflexivity. }
  split; [discriminate|].
  split.
  { intros items H. inversion H; subst. repeat constructor.
    eexists. reflexivity. }
  intros _. split.
  - eexists. split; [reflexivity|]. intros x [<-|[<-|[]]];
      eexists; (split; [reflexivity|]); split; discriminate.
  - left. eexists. eexists. reflexivity.
Defined.

(** ** Reading encipher_only and decipher_only *)

(** X9: on an instance the constructor returned, [encipher_only] and
    [decipher_only] return the constructor's arguments when
    [key_agreement] was true, and both raise a value error when it was
    false. *)
Theorem KeyUsage_read_after_init
    (digital_signature content_commitment key_encipherment
       data_encipherment key_agreement key_cert_sign crl_sign
       encipher_only decipher_only : bool) (self : KeyUsage) :
  KeyUsage.__init__ digital_signature content_commitment key_encipherment
    data_encipherment key_agreement key_cert_sign crl_sign
    encipher_only decipher_only = Ok self ->
  (key_agreement = true ->
   KeyUsage.encipher_only self = Ok encipher_only /\
   KeyUsage.decipher_only self = Ok decipher_only) /\
  (key_agreement = false ->
   (exists msg, KeyUsage.encipher_only self = Raise (ValueError msg)) /\
   (exists msg, KeyUsage.decipher_only self = Raise (ValueError msg))).
Proof.
  unfold KeyUsage.__init__.
  destruct key_agreement, encipher_only, decipher_only; cbn;
    intros H; inversion H; subst; cbn; split;
    try discriminate; intros _; split; try reflexivity;
    eexists; reflexivity.
Qed.

Lemma KeyUsage_read_after_init_witness :
  KeyUsage.encipher_only
    {| _digital_signature := false; _content_commitment := false;
       _key_encipherment := false; _data_encipherment := false;
       _key_agreement := true; _key_cert_sign := false; _crl_sign := false;
       _encipher_only := true; _decipher_only := false |}
  = Ok true.
Proof.
  exact (proj1 (proj1 (KeyUsage_read_after_init false false false false true
                         false false true false _ eq_refl) eq_refl)).
Defined.

(** ** Chains of certificate setter calls *)

Lemma read_certificate_builder_inv σ self b exts :
  read_certificate_builder σ self = Some (b, exts) ->
  heap σ !! self = Some (CertificateBuilderObject b) /\
  heap σ !! _extensions b = Some (ListObject exts).
Proof.
  unfold read_certificate_builder.
  destruct (heap σ !! self) as [[| b0 |]|] eqn:E; try discriminate.
  destruct (heap σ !! _extensions b0) as [[items| |]|] eqn:E';
    try discriminate.
  intros H. inversion H; subst. auto.
Qed.

Lemma certificate_init_read σ issuer subject key serial before after l items :
  heap σ !! l = Some (ListObject items) ->
  let out :=
    CertificateBuilder.__init__ issuer subject key serial before after l σ in
  exists new,
    out.1 = Ok new /\ heap σ !! new = None /\ preserves σ out.2 /\
    read_certificate_builder out.2 new =
    Some (CertificateBuilder.instance issuer subject key serial before after l,
          items).
Proof.
  intros Hl. cbv zeta.
  pose proof (certificate_init_new σ issuer subject key serial before after l)
    as H.
  cbv zeta in H. destruct H as (new & H1 & H2 & H3 & H4).
  exists new. split; [exact H1|]. split; [exact H2|]. split; [exact H4|].
  unfold read_certificate_builder. rewrite H3.
  cbn [CertificateBuilder.instance _extensions].
  rewrite (proj1 H4 _ _ Hl). reflexivity.
Qed.

Ltac field_setter_step Hself Hlist E :=
  rewrite bind_unfold, (certificate_attrs_lookup _ _ _ Hself);
  match goal with
  | |- context [is_set ?field] => destruct field eqn:E; cbn [is_set]
  end;
  [ left; eexists; reflexivity | ].

Ltac new_builder_step Hlist E :=
  right;
  let new := fresh "new" in
  let H1 := fresh "H" in
  let H2 := fresh "H" in
  let H3 := fresh "H" in
  let H4 := fresh "H" in
  let Ht := fresh "Ht" in
  match goal with
  | |- context [CertificateBuilder.__init__ ?i ?s ?k ?n ?nb ?na ?l ?σ] =>
      destruct (certificate_init_read σ i s k n nb na l _ Hlist)
        as (new & H1 & H2 & H3 & H4);
      exists new, (CertificateBuilder.instance i s k n nb na l)
  end;
  split; [exact H1|]; split; [exact H2|]; split; [exact H3|];
  split; [cbn [added]; rewrite app_nil_r; exact H4|];
  split; [intros []; reflexivity|];
  split; [intros ? ? Ht; inversion Ht; subst; cbn [get_field]; rewrite E;
          reflexivity
         | intros ? ? _ []].

Lemma certificate_call_step (c : setter_call) (self : loc) (σ : state) b exts :
  is_certificate_call c ->
  read_certificate_builder σ self = Some (b, exts) ->
  step_result c σ b exts (call_setter c self σ).
Proof.
  intros Hc Hread.
  destruct (read_certificate_builder_inv _ _ _ _ Hread) as [Hself Hlist].
  unfold step_result.
  destruct c as [name|name|key|number|time|time|extension critical| |];
    try destruct Hc; cbn [call_setter target].
  - unfold CertificateBuilder.issuer_name.
    field_setter_step Hself Hlist E. new_builder_step Hlist E.
  - unfold CertificateBuilder.subject_name.
    field_setter_step Hself Hlist E. new_builder_step Hlist E.
  - unfold CertificateBuilder.public_key.
    rewrite bind_unfold, (certificate_attrs_lookup _ _ _ Hself).
    destruct (key_class_of key);
      try (destruct (_public_key b) eqn:E; cbn [is_set];
           [left; eexists; reflexivity|new_builder_step Hlist E]).
    left. eexists. reflexivity.
  - unfold CertificateBuilder.serial_number.
    field_setter_step Hself Hlist E.
    destruct (number <? 0); [left; eexists; reflexivity|].
    destruct (160 <? bit_length number); [left; eexists; reflexivity|].
    new_builder_step Hlist E.
  - unfold CertificateBuilder.not_valid_before.
    field_setter_step Hself Hlist E.
    rewrite lift_bind.
    destruct (datetime_le time _UNIX_EPOCH) as [[|]|e];
      [left; eexists; reflexivity| |left; eexists; reflexivity].
    new_builder_step Hlist E.
  - unfold CertificateBuilder.not_valid_after.
    field_setter_step Hself Hlist E.
    rewrite lift_bind.
    destruct (datetime_le time _UNIX_EPOCH) as [[|]|e];
      [left; eexists; reflexivity| |left; eexists; reflexivity].
    new_builder_step Hlist E.
  - rewrite (certificate_add_extension_run _ _ _ _ _ _ Hself Hlist).
    destruct (check_not_set exts (oid extension)) as [[]|e] eqn:E;
      [|left; eexists; reflexivity].
    right.
    set (items := exts ++ [extension_of extension critical]).
    set (σ1 := {| heap := <[fresh (dom (heap σ)) := ListObject items]> (heap σ);
                  backend_calls := backend_calls σ |}).
    assert (Hσ1 : preserves σ σ1) by apply (pure_alloc (ListObject items) σ).
    assert (Hl1 : heap σ1 !! fresh (dom (heap σ)) = Some (ListObject items))
      by apply lookup_insert_eq.
    destruct (certificate_init_read σ1 (_issuer_name b) (_subject_name b)
                (_public_key b) (_serial_number b) (_not_valid_before b)
                (_not_valid_after b) _ _ Hl1) as (new & H1 & H2 & H3 & H4).
    exists new, (CertificateBuilder.instance (_issuer_name b)
                   (_subject_name b) (_public_key b) (_serial_number b)
                   (_not_valid_before b) (_not_valid_after b)
                   (fresh (dom (heap σ)))).
    split; [exact H1|]. split.
    { destruct (heap σ !! new) as [o|] eqn:En; [|reflexivity].
      rewrite (proj1 Hσ1 _ _ En) in H2. discriminate H2. }
    split; [exact (preserves_trans _ _ _ Hσ1 H3)|].
    split; [exact H4|].
    split; [intros []; reflexivity|].
    split; [intros f v Ht; discriminate Ht|].
    intros e x He [<-|[]]. exact (proj1 (check_not_set_ok _ _) E e He).
Qed.

Lemma first_arg_some_assignments f cs :
  first_arg f cs = None <-> assignments f cs = O.
Proof.
  induction cs as [|c rest IH]; cbn [first_arg assignments]; [tauto|].
  destruct (target c) as [[f' v]|]; [|exact IH].
  destruct (bool_decide (f' = f)); [|exact IH].
  split; discriminate.
Qed.

Lemma added_extensions_cons c cs :
  added_extensions (c :: cs) = added c ++ added_extensions cs.
Proof. reflexivity. Qed.

Lemma added_at_most_one c : added c = [] \/ exists x, added c = [x].
Proof. destruct c; cbn; eauto. Qed.

(** The outcome of a chain of certificate setter calls that returns. *)
Lemma certificate_chain_result (cs : list setter_call) :
  Forall is_certificate_call cs ->
  forall self σ b exts new,
    read_certificate_builder σ self = Some (b, exts) ->
    (call_setters cs self σ).1 = Ok new ->
    exists b',
      read_certificate_builder (call_setters cs self σ).2 new
      = Some (b', exts ++ added_extensions cs) /\
      (forall f,
          get_field f b' =
          match get_field f b with
          | Some v => Some v
          | None => first_arg f cs
          end) /\
      (forall f, get_field f b <> None -> assignments f cs = O) /\
      (forall f, (assignments f cs <= 1)%nat) /\
      (forall e x, In e exts -> In x (added_extensions cs) ->
                   _oid e <> _oid x) /\
      unique_oids (added_extensions cs).
Proof.
  induction 1 as [|c rest Hc Hrest IH]; intros self σ b exts new Hread Hok.
  - cbn in Hok. inversion Hok; subst new. exists b. cbn.
    unfold added_extensions. cbn. rewrite app_nil_r.
    split; [exact Hread|].
    split; [intros f; destruct (get_field f b); reflexivity|].
    split; [reflexivity|]. split; [intros; lia|].
    split; [intros e x _ []|apply NoDup_nil_2].
  - cbn [call_setters] in *. rewrite bind_unfold in *.
    destruct (certificate_call_step c self σ b exts Hc Hread)
      as [[e He]|(mid & b1 & H1 & H2 & H3 & H4 & H5 & H6 & H7)].
    + rewrite He in Hok. discriminate Hok.
    + destruct (call_setter c self σ) as [[a|e] σ1] eqn:Eout;
        cbn [fst snd] in *; [|discriminate H1].
      inversion H1; subst a.
      destruct (IH mid σ1 b1 _ new H4 Hok)
        as (b' & R1 & R2 & R3 & R4 & R5 & R6).
      exists b'. rewrite added_extensions_cons.
      rewrite app_assoc. split; [exact R1|].
      split; [|split; [|split; [|split]]].
      * intros f. rewrite R2, H5. cbn [first_arg].
        destruct (target c) as [[f' v]|] eqn:Et.
        -- destruct (bool_decide (f' = f)) eqn:Ef.
           ++ apply bool_decide_eq_true in Ef. subst f'.
              rewrite (H6 f v eq_refl). reflexivity.
           ++ reflexivity.
        -- reflexivity.
      * intros f Hset. cbn [assignments].
        assert (Hset1 : get_field f b1 <> None).
        { rewrite H5. destruct (target c) as [[f' v]|]; [|exact Hset].
          destruct (bool_decide (f' = f)); [discriminate|exact Hset]. }
        destruct (target c) as [[f' v]|] eqn:Et; [|exact (R3 f Hset1)].
        destruct (bool_decide (f' = f)) eqn:Ef; [|exact (R3 f Hset1)].
        apply bool_decide_eq_true in Ef. subst f'.
        rewrite (H6 f v eq_refl) in Hset. destruct (Hset eq_refl).
      * intros f. cbn [assignments].
        destruct (target c) as [[f' v]|] eqn:Et; [|exact (R4 f)].
        destruct (bool_decide (f' = f)) eqn:Ef; [|exact (R4 f)].
        apply bool_decide_eq_true in Ef. subst f'.
        rewrite (R3 f); [lia|].
        rewrite H5. rewrite bool_decide_eq_true_2 by reflexivity.
        discriminate.
      * intros e x He Hx. apply in_app_or in Hx as [Hx|Hx].
        -- exact (H7 e x He Hx).
        -- apply (R5 e x); [apply in_or_app; left; exact He|exact Hx].
      * unfold unique_oids in *. rewrite map_app. apply NoDup_app.
        split; [|split; [|exact R6]].
        -- destruct (added_at_most_one c) as [->|[x ->]];
             [apply NoDup_nil_2|apply NoDup_singleton].
        -- intros o Ho Ho'. apply list_elem_of_In in Ho, Ho'.
           apply in_map_iff in Ho as (e & <- & He).
           apply in_map_iff in Ho' as (x & Hx & Hin).
           apply (R5 e x); [apply in_or_app; right; exact He|exact Hin|].
           exact (eq_sym Hx).
Qed.

Lemma unique_oids_app (l1 l2 : list Extension) :
  unique_oids l1 -> unique_oids l2 ->
  (forall e x, In e l1 -> In x l2 -> _oid e <> _oid x) ->
  unique_oids (l1 ++ l2).
Proof.
  intros H1 H2 Hd. unfold unique_oids in *. rewrite map_app.
  apply NoDup_app. split; [exact H1|]. split; [|exact H2].
  intros o Ho Ho'. apply list_elem_of_In in Ho, Ho'.
  apply in_map_iff in Ho as (e & <- & He).
  apply in_map_iff in Ho' as (x & Hx & Hin).
  exact (Hd e x He Hin (eq_sym Hx)).
Qed.

Lemma unique_oids_split (l1 l2 : list Extension) x e :
  unique_oids (l1 ++ x :: l2) -> In e l1 -> _oid e <> _oid x.
Proof.
  unfold unique_oids. rewrite map_app. cbn [map]. intros H He Heq.
  apply NoDup_app in H as (_ & Hd & _).
  apply (Hd (_oid e)).
  - apply list_elem_of_In, in_map. exact He.
  - rewrite Heq. left.
Qed.

(** X10: after a chain of certificate-builder setter calls that returns,
    the returned builder reads as follows: every field set at the start
    holds its value, every other field holds the argument of the call
    that assigned it, or nothing when no call did, and the extensions are
    those of the start followed by the added ones, in the order of the
    calls. *)
Theorem certificate_chain_fields (cs : list setter_call) (self : loc)
    (σ : state) b exts new :
  Forall is_certificate_call cs ->
  read_certificate_builder σ self = Some (b, exts) ->
  (call_setters cs self σ).1 = Ok new ->
  exists b',
    read_certificate_builder (call_setters cs self σ).2 new
    = Some (b', exts ++ added_extensions cs) /\
    (forall f,
        get_field f b' =
        match get_field f b with
        | Some v => Some v
        | None => first_arg f cs
        end).
Proof.
  intros Hcs Hread Hok.
  destruct (certificate_chain_result cs Hcs self σ b exts new Hread Hok)
    as (b' & R1 & R2 & _).
  exists b'. auto.
Qed.

(** X11: a chain of certificate-builder setter calls that returns assigns
    no field that was set at the start, and assigns each field at most
    once: a second assignment of a field always raises. *)
Theorem certificate_fields_set_once (cs : list setter_call) (self : loc)
    (σ : state) b exts new :
  Forall is_certificate_call cs ->
  read_certificate_builder σ self = Some (b, exts) ->
  (call_setters cs self σ).1 = Ok new ->
  forall f,
    (assignments f cs <= 1)%nat /\
    (get_field f b <> None -> assignments f cs = O).
Proof.
  intros Hcs Hread Hok f.
  destruct (certificate_chain_result cs Hcs self σ b exts new Hread Hok)
    as (b' & _ & _ & R3 & R4 & _).
  split; [exact (R4 f)|exact (R3 f)].
Qed.

(** X12: a chain of certificate-builder setter calls that returns keeps
    the OIDs of the extension list pairwise distinct: no added extension
    has the OID of an extension of the start or of another added one. *)
Theorem certificate_chain_unique_oids (cs : list setter_call) (self : loc)
    (σ : state) b exts new :
  Forall is_certificate_call cs ->
  read_certificate_builder σ self = Some (b, exts) ->
  (call_setters cs self σ).1 = Ok new ->
  unique_oids (added_extensions cs) /\
  (forall e x, In e exts -> In x (added_extensions cs) -> _oid e <> _oid x) /\
  (unique_oids exts -> unique_oids (exts ++ added_extensions cs)).
Proof.
  intros Hcs Hread Hok.
  destruct (certificate_chain_result cs Hcs self σ b exts new Hread Hok)
    as (b' & _ & _ & _ & _ & R5 & R6).
  split; [exact R6|]. split; [exact R5|].
  intros Hu. apply unique_oids_app; assumption.
Qed.

(** X13: after a chain of certificate-builder setter calls that returns,
    looking up the OID of any added extension in the extensions of the
    returned builder gives that extension, with the critical flag it was
    added with. *)
Theorem certificate_chain_lookup (cs : list setter_call) (self : loc)
    (σ : state) b exts new :
  Forall is_certificate_call cs ->
  read_certificate_builder σ self = Some (b, exts) ->
  (call_setters cs self σ).1 = Ok new ->
  forall x, In x (added_extensions cs) ->
    Extensions.get_extension_for_oid
      (Extensions.__init__ (exts ++ added_extensions cs)) (_oid x) = Ok x.
Proof.
  intros Hcs Hread Hok x Hx.
  destruct (certificate_chain_result cs Hcs self σ b exts new Hread Hok)
    as (b' & _ & _ & _ & _ & R5 & R6).
  unfold Extensions.get_extension_for_oid, Extensions.__init__.
  cbn [extensions_items].
  destruct (in_split _ _ Hx) as (a1 & a2 & Ha).
  assert (Hfirst : Extensions.first_with_oid (exts ++ added_extensions cs)
                     (_oid x) = Some x).
  { apply first_with_oid_some. exists (exts ++ a1), a2.
    rewrite Ha, <- app_assoc. split; [reflexivity|]. split; [reflexivity|].
    intros e He. apply in_app_or in He as [He|He].
    - exact (R5 e x He Hx).
    - rewrite Ha in R6. exact (unique_oids_split _ _ _ _ R6 He). }
  rewrite Hfirst. reflexivity.
Qed.

Lemma complete_get_field (b : CertificateBuilder) :
  complete b <-> forall f, get_field f b <> None.
Proof.
  unfold complete. split.
  - intros (H1 & H2 & H3 & H4 & H5 & H6) f Hf.
    destruct f; cbn [get_field] in Hf;
      [ destruct (_issuer_name b) | destruct (_subject_name b)
      | destruct (_public_key b) | destruct (_serial_number b)
      | destruct (_not_valid_before b) | destruct (_not_valid_after b) ];
      try discriminate Hf; congruence.
  - intros H.
    pose proof (H IssuerNameField) as Hi.
    pose proof (H SubjectNameField) as Hs.
    pose proof (H PublicKeyField) as Hk.
    pose proof (H SerialNumberField) as Hn.
    pose proof (H NotValidBeforeField) as Hb.
    pose proof (H NotValidAfterField) as Ha.
    cbn [get_field] in *.
    destruct (_issuer_name b), (_subject_name b), (_public_key b),
      (_serial_number b), (_not_valid_before b), (_not_valid_after b);
      cbn in *; try congruence; repeat split; discriminate.
Qed.

(** X14: after a chain of certificate-builder setter calls that returns,
    [sign] on the returned builder invokes the backend when every one of
    the six fields was set at the start or is assigned by the chain, in
    whatever order, and otherwise raises a value error and leaves the
    state as the chain left it. *)
Theorem certificate_chain_sign (cs : list setter_call) (self : loc)
    (σ : state) b exts new private_key algorithm backend :
  Forall is_certificate_call cs ->
  read_certificate_builder σ self = Some (b, exts) ->
  (call_setters cs self σ).1 = Ok new ->
  let σ' := (call_setters cs self σ).2 in
  ((forall f, get_field f b <> None \/ first_arg f cs <> None) ->
   CertificateBuilder.sign new private_key algorithm backend σ' =
   call_backend (create_x509_certificate_call new private_key algorithm)
     (create_x509_certificate backend new private_key algorithm) σ') /\
  ((exists f, get_field f b = None /\ first_arg f cs = None) ->
   exists msg,
     CertificateBuilder.sign new private_key algorithm backend σ' =
     (Raise (ValueError msg), σ')).
Proof.
  intros Hcs Hread Hok σ'.
  destruct (certificate_chain_result cs Hcs self σ b exts new Hread Hok)
    as (b' & R1 & R2 & _).
  destruct (read_certificate_builder_inv _ _ _ _ R1) as [Hnew _].
  fold σ' in Hnew. split.
  - intros Hall. apply (certificate_sign_complete _ _ b'); [exact Hnew|].
    apply complete_get_field. intros f. rewrite R2.
    destruct (Hall f) as [H|H]; destruct (get_field f b); congruence.
  - intros (f & Hf & Ha).
    apply (certificate_sign_incomplete _ _ b'); [exact Hnew|].
    rewrite complete_get_field. intros H. apply (H f).
    rewrite R2, Hf. exact Ha.
Qed.

(** ** A setter that raises changes nothing *)

Lemma atomic_raise {A : Type} (e : exn) : atomic (raise (A := A) e).
Proof. intros σ e' _. reflexivity. Qed.

Lemma atomic_never_raises {A : Type} (m : M A) : never_raises m -> atomic m.
Proof. intros H σ e He. destruct (H σ) as [a Ha]. congruence. Qed.

Lemma atomic_bind {A B : Type} (m : M A) (k : A -> M B) :
  read_only m -> (forall a, atomic (k a)) -> atomic (m ≫= k).
Proof.
  intros Hm Hk σ e. rewrite bind_unfold. specialize (Hm σ).
  destruct (m σ) as [[a|e'] σ1]; cbn [fst snd] in *; subst σ1.
  - apply Hk.
  - reflexivity.
Qed.

Lemma never_raises_alloc (o : object) : never_raises (alloc o).
Proof. intros σ. eexists. reflexivity. Qed.

Lemma never_raises_bind {A B : Type} (m : M A) (k : A -> M B) :
  never_raises m -> (forall a, never_raises (k a)) -> never_raises (m ≫= k).
Proof.
  intros Hm Hk σ. rewrite bind_unfold. destruct (Hm σ) as [a Ha].
  destruct (m σ) as [[a'|e] σ1]; cbn [fst] in *; [|discriminate Ha].
  apply Hk.
Qed.

Lemma read_only_certificate_attrs (self : loc) :
  read_only (CertificateBuilder.attrs self).
Proof.
  intros σ. unfold CertificateBuilder.attrs.
  destruct (heap σ !! self) as [[]|]; reflexivity.
Qed.

Lemma read_only_csr_attrs (self : loc) :
  read_only (CertificateSigningRequestBuilder.attrs self).
Proof.
  intros σ. unfold CertificateSigningRequestBuilder.attrs.
  destruct (heap σ !! self) as [[]|]; reflexivity.
Qed.

Lemma read_only_read_list (l : loc) : read_only (read_list l).
Proof.
  intros σ. unfold read_list. destruct (heap σ !! l) as [[]|]; reflexivity.
Qed.

Lemma read_only_lift {A : Type} (r : result A) : read_only (lift r).
Proof. intros σ. reflexivity. Qed.

Ltac atomic_call :=
  repeat first
    [ apply atomic_raise
    | apply atomic_bind;
      [ first [ apply read_only_certificate_attrs | apply read_only_csr_attrs
              | apply read_only_read_list | apply read_only_lift ]
      | intros ? ]
    | match goal with
      | |- atomic (if ?c then _ else _) => destruct c
      | |- atomic (match ?x with _ => _ end) => destruct x
      end
    | solve [ apply atomic_never_raises;
              repeat first [ apply never_raises_alloc
                           | apply never_raises_bind; [|intros ?] ] ] ].

(** X15: a setter call of either builder that raises leaves the state
    exactly as it was: no object is created and none is changed. *)
Theorem setter_that_raises_changes_nothing (c : setter_call) (self : loc)
    (σ : state) (e : exn) :
  (call_setter c self σ).1 = Raise e -> (call_setter c self σ).2 = σ.
Proof.
  revert σ e. change (atomic (call_setter c self)).
  destruct c; cbn [call_setter];
    unfold CertificateBuilder.issuer_name, CertificateBuilder.subject_name,
      CertificateBuilder.public_key, CertificateBuilder.serial_number,
      CertificateBuilder.not_valid_before, CertificateBuilder.not_valid_after,
      CertificateBuilder.add_extension,
      CertificateSigningRequestBuilder.subject_name,
      CertificateSigningRequestBuilder.add_extension,
      CertificateBuilder.__init__, CertificateSigningRequestBuilder.__init__;
    atomic_call.
Qed.

(** ** Chains of CSR setter calls *)

Lemma read_csr_builder_inv σ self b exts :
  read_csr_builder σ self = Some (b, exts) ->
  heap σ !! self = Some (CertificateSigningRequestBuilderObject b) /\
  heap σ !! csr_extensions b = Some (ListObject exts).
Proof.
  unfold read_csr_builder.
  destruct (heap σ !! self) as [[| |b0]|] eqn:E; try discriminate.
  destruct (heap σ !! csr_extensions b0) as [[items| |]|] eqn:E';
    try discriminate.
  intros H. inversion H; subst. auto.
Qed.

Lemma csr_init_read σ subject l items :
  heap σ !! l = Some (ListObject items) ->
  exists new,
    (CertificateSigningRequestBuilder.__init__ subject l σ).1 = Ok new /\
    preserves σ (CertificateSigningRequestBuilder.__init__ subject l σ).2 /\
    read_csr_builder (CertificateSigningRequestBuilder.__init__ subject l σ).2
                     new
    = Some ({| csr_subject_name := subject; csr_extensions := l |}, items).
Proof.
  intros Hl. rewrite csr_init_run. cbn [fst snd].
  set (o := CertificateSigningRequestBuilderObject
              {| csr_subject_name := subject; csr_extensions := l |}).
  set (σ1 := {| heap := <[fresh (dom (heap σ)) := o]> (heap σ);
                backend_calls := backend_calls σ |}).
  assert (Hp : preserves σ σ1) by apply (pure_alloc o σ).
  assert (Hnew : heap σ1 !! fresh (dom (heap σ)) = Some o)
    by apply lookup_insert_eq.
  exists (fresh (dom (heap σ))). split; [reflexivity|]. split; [exact Hp|].
  unfold read_csr_builder. rewrite Hnew. unfold o. cbn [csr_extensions].
  rewrite (proj1 Hp _ _ Hl). reflexivity.
Qed.

Lemma csr_call_step (c : setter_call) (self : loc) (σ : state) b exts :
  is_csr_call c ->
  read_csr_builder σ self = Some (b, exts) ->
  (exists e, call_setter c self σ = (Raise e, σ)) \/
  (exists new b',
      (call_setter c self σ).1 = Ok new /\
      preserves σ (call_setter c self σ).2 /\
      read_csr_builder (call_setter c self σ).2 new
      = Some (b', exts ++ added c) /\
      csr_subject_name b' =
      match csr_subject_name b with
      | Some n => Some n
      | None => first_csr_subject [c]
      end /\
      (forall e x, In e exts -> In x (added c) -> _oid e <> _oid x)).
Proof.
  intros Hc Hread.
  destruct (read_csr_builder_inv _ _ _ _ Hread) as [Hself Hlist].
  destruct c as [| | | | | | |name|extension critical]; try destruct Hc;
    cbn [call_setter].
  - unfold CertificateSigningRequestBuilder.subject_name.
    rewrite bind_unfold, (csr_attrs_lookup _ _ _ Hself).
    destruct (csr_subject_name b) eqn:E; cbn [is_set];
      [left; eexists; reflexivity|].
    right. destruct (csr_init_read σ (Some name) _ _ Hlist)
      as (new & H1 & H2 & H3).
    exists new, {| csr_subject_name := Some name;
                   csr_extensions := csr_extensions b |}.
    split; [exact H1|]. split; [exact H2|].
    split; [cbn [added]; rewrite app_nil_r; exact H3|].
    split; [reflexivity|intros e x _ []].
  - rewrite (csr_add_extension_run _ _ _ _ _ _ Hself Hlist).
    destruct (check_not_set exts (oid extension)) as [[]|e] eqn:E;
      [|left; eexists; reflexivity].
    right.
    set (items := exts ++ [extension_of extension critical]).
    set (σ1 := {| heap := <[fresh (dom (heap σ)) := ListObject items]> (heap σ);
                  backend_calls := backend_calls σ |}).
    assert (Hσ1 : preserves σ σ1) by apply (pure_alloc (ListObject items) σ).
    assert (Hl1 : heap σ1 !! fresh (dom (heap σ)) = Some (ListObject items))
      by apply lookup_insert_eq.
    destruct (csr_init_read σ1 (csr_subject_name b) _ _ Hl1)
      as (new & H1 & H2 & H3).
    exists new, {| csr_subject_name := csr_subject_name b;
                   csr_extensions := fresh (dom (heap σ)) |}.
    split; [exact H1|].
    split; [exact (preserves_trans _ _ _ Hσ1 H2)|].
    split; [exact H3|].
    split; [cbn; destruct (csr_subject_name b); reflexivity|].
    intros e x He [<-|[]]. exact (proj1 (check_not_set_ok _ _) E e He).
Qed.

Lemma csr_chain_result (cs : list setter_call) :
  Forall is_csr_call cs ->
  forall self σ b exts new,
    read_csr_builder σ self = Some (b, exts) ->
    (call_setters cs self σ).1 = Ok new ->
    exists b',
      read_csr_builder (call_setters cs self σ).2 new
      = Some (b', exts ++ added_extensions cs) /\
      csr_subject_name b' =
      match csr_subject_name b with
      | Some n => Some n
      | None => first_csr_subject cs
      end /\
      (forall e x, In e exts -> In x (added_extensions cs) ->
                   _oid e <> _oid x) /\
      unique_oids (added_extensions cs).
Proof.
  induction 1 as [|c rest Hc Hrest IH]; intros self σ b exts new Hread Hok.
  - cbn in Hok. inversion Hok; subst new. exists b.
    unfold added_extensions. cbn. rewrite app_nil_r.
    split; [exact Hread|].
    split; [destruct (csr_subject_name b); reflexivity|].
    split; [intros e x _ []|apply NoDup_nil_2].
  - cbn [call_setters] in *. rewrite bind_unfold in *.
    destruct (csr_call_step c self σ b exts Hc Hread)
      as [[e He]|(mid & b1 & H1 & H2 & H3 & H4 & H5)].
    + rewrite He in Hok. discriminate Hok.
    + destruct (call_setter c self σ) as [[a|e] σ1] eqn:Eout;
        cbn [fst snd] in *; [|discriminate H1].
      inversion H1; subst a.
      destruct (IH mid σ1 b1 _ new H3 Hok) as (b' & R1 & R2 & R3 & R4).
      exists b'. rewrite added_extensions_cons, app_assoc.
      split; [exact R1|]. split; [|split].
      * rewrite R2, H4.
        destruct (csr_subject_name b); [reflexivity|].
        destruct c; try destruct Hc; reflexivity.
      * intros e x He Hx. apply in_app_or in Hx as [Hx|Hx].
        -- exact (H5 e x He Hx).
        -- apply (R3 e x); [apply in_or_app; left; exact He|exact Hx].
      * unfold unique_oids in *. rewrite map_app. apply NoDup_app.
        split; [|split; [|exact R4]].
        -- destruct (added_at_most_one c) as [->|[x ->]];
             [apply NoDup_nil_2|apply NoDup_singleton].
        -- intros o Ho Ho'. apply list_elem_of_In in Ho, Ho'.
           apply in_map_iff in Ho as (e & <- & He).
           apply in_map_iff in Ho' as (x & Hx & Hin).
           apply (R3 e x); [apply in_or_app; right; exact He|exact Hin|].
           exact (eq_sym Hx).
Qed.

(** X16: after a chain of CSR-builder setter calls that returns, the
    returned builder holds the subject it had at the start, or else the
    one the chain assigned, and the extensions of the start followed by
    the added ones in the order of the calls, with pairwise distinct OIDs
    if those of the start were; [sign] on it invokes the backend when
    that subject is set and raises a value error otherwise. *)
Theorem csr_chain_subject_and_extensions (cs : list setter_call)
    (self : loc) (σ : state) b exts new private_key algorithm backend :
  Forall is_csr_call cs ->
  read_csr_builder σ self = Some (b, exts) ->
  (call_setters cs self σ).1 = Ok new ->
  let σ' := (call_setters cs self σ).2 in
  exists b',
    read_csr_builder σ' new = Some (b', exts ++ added_extensions cs) /\
    csr_subject_name b' =
    match csr_subject_name b with
    | Some n => Some n
    | None => first_csr_subject cs
    end /\
    (unique_oids exts -> unique_oids (exts ++ added_extensions cs)) /\
    (csr_subject_name b' <> None ->
     CertificateSigningRequestBuilder.sign new private_key algorithm backend
                                           σ' =
     call_backend (create_x509_csr_call new private_key algorithm)
       (create_x509_csr backend new private_key algorithm) σ') /\
    (csr_subject_name b' = None ->
     exists msg,
       CertificateSigningRequestBuilder.sign new private_key algorithm
                                             backend σ' =
       (Raise (ValueError msg), σ')).
Proof.
  intros Hcs Hread Hok σ'.
  destruct (csr_chain_result cs Hcs self σ b exts new Hread Hok)
    as (b' & R1 & R2 & R3 & R4).
  destruct (read_csr_builder_inv _ _ _ _ R1) as [Hnew _]. fold σ' in Hnew.
  exists b'. split; [exact R1|]. split; [exact R2|].
  split; [intros Hu; apply unique_oids_app; assumption|].
  unfold CertificateSigningRequestBuilder.sign.
  rewrite bind_unfold, (csr_attrs_lookup _ _ _ Hnew).
  destruct (csr_subject_name b'); cbn [is_set negb]; split.
  - reflexivity.
  - discriminate.
  - intros H. destruct (H eq_refl).
  - intros _. eexists. reflexivity.
Qed.

(** ** The chain theorems at sample chains *)

Lemma sample_chain_calls : Forall is_certificate_call sample_chain.
Proof. repeat constructor. Qed.

Lemma sample_csr_chain_calls : Forall is_csr_call sample_csr_chain.
Proof. repeat constructor. Qed.

Lemma certificate_chain_fields_witness :
  exists b',
    read_certificate_builder
      (call_setters sample_chain 3%positive empty_certificate_builder).2
      13%positive
    = Some (b', [] ++ added_extensions sample_chain) /\
    (forall f,
        get_field f b' =
        match get_field f empty_attrs with
        | Some v => Some v
        | None => first_arg f sample_chain
        end).
Proof.
  apply (certificate_chain_fields sample_chain 3%positive
           empty_certificate_builder empty_attrs [] 13%positive
           sample_chain_calls); reflexivity.
Defined.

Lemma certificate_fields_set_once_witness :
  (assignments SerialNumberField sample_chain <= 1)%nat /\
  (get_field SerialNumberField empty_attrs <> None ->
   assignments SerialNumberField sample_chain = O).
Proof.
  apply (certificate_fields_set_once sample_chain 3%positive
           empty_certificate_builder empty_attrs [] 13%positive
           sample_chain_calls); reflexivity.
Defined.

Lemma certificate_chain_unique_oids_witness :
  unique_oids ([] ++ added_extensions sample_chain).
Proof.
  apply (proj2 (proj2 (certificate_chain_unique_oids sample_chain 3%positive
                         empty_certificate_builder empty_attrs [] 13%positive
                         sample_chain_calls eq_refl eq_refl))).
  apply NoDup_nil_2.
Defined.

Lemma certificate_chain_lookup_witness :
  Extensions.get_extension_for_oid
    (Extensions.__init__ ([] ++ added_extensions sample_chain))
    ExtensionOID.KEY_USAGE
  = Ok (extension_of (KeyUsageValue sample_key_usage) false).
Proof.
  apply (certificate_chain_lookup sample_chain 3%positive
           empty_certificate_builder empty_attrs [] 13%positive
           sample_chain_calls eq_refl eq_refl
           (extension_of (KeyUsageValue sample_key_usage) false)).
  right. left. reflexivity.
Defined.

Lemma certificate_chain_sign_witness :
  CertificateBuilder.sign 13%positive sample_private_key sample_algorithm
    sample_backend
    (call_setters sample_chain 3%positive empty_certificate_builder).2
  = call_backend
      (create_x509_certificate_call 13%positive sample_private_key
         sample_algorithm)
      (create_x509_certificate sample_backend 13%positive sample_private_key
         sample_algorithm)
      (call_setters sample_chain 3%positive empty_certificate_builder).2.
Proof.
  apply (proj1 (certificate_chain_sign sample_chain 3%positive
                  empty_certificate_builder empty_attrs [] 13%positive
                  sample_private_key sample_algorithm sample_backend
                  sample_chain_calls eq_refl eq_refl)).
  intros f. right. destruct f; discriminate.
Defined.

Lemma setter_that_raises_changes_nothing_witness :
  (call_setter (Certificate_serial_number (-1)) 3%positive
     empty_certificate_builder).2 = empty_certificate_builder.
Proof.
  apply (setter_that_raises_changes_nothing (Certificate_serial_number (-1))
           3%positive empty_certificate_builder
           (ValueError "The serial number should be non-negative.")).
  reflexivity.
Defined.

Lemma csr_chain_subject_and_extensions_witness :
  exists b',
    read_csr_builder
      (call_setters sample_csr_chain 3%positive empty_csr_builder).2
      8%positive
    = Some (b', [] ++ added_extensions sample_csr_chain) /\
    csr_subject_name b' = Some sample_name.
Proof.
  destruct (csr_chain_subject_and_extensions sample_csr_chain 3%positive
              empty_csr_builder
              {| csr_subject_name := None;
                 csr_extensions :=
                   CertificateSigningRequestBuilder.default_extensions |}
              [] 8%positive sample_private_key sample_algorithm
              sample_backend sample_csr_chain_calls eq_refl eq_refl)
    as (b' & H1 & H2 & _).
  exists b'. split; [exact H1|exact H2].
Defined.

(** ** Construction of GeneralNames *)

Lemma general_names_of_all (items : list PyObject) :
  forallb isinstance_GeneralName items = true ->
  map PyGeneralName (general_names_of items) = items.
Proof.
  induction items as [|x items IH]; [reflexivity|].
  cbn [forallb]. intros H. apply andb_prop in H as [Hx Hrest].
  destruct x; try discriminate Hx. unfold general_names_of in *.
  cbn. rewrite (IH Hrest). reflexivity.
Qed.

(** X17: [GeneralNames], [SubjectAlternativeName] and
    [IssuerAlternativeName] are constructed exactly from lists whose
    items are all general names, the empty list included, and keep the
    names in the order given; any other item raises a type error. *)
Theorem GeneralNames_init_spec (general_names : list PyObject) :
  ((exists self, GeneralNames.__init__ general_names = Ok self) <->
   (forall x, In x general_names -> exists g, x = PyGeneralName g)) /\
  (forall self, GeneralNames.__init__ general_names = Ok self ->
     map PyGeneralName (_general_names self) = general_names /\
     GeneralNames.__len__ self = length general_names /\
     SubjectAlternativeName.__init__ general_names
     = Ok (SubjectAlternativeNameValue (_general_names self)) /\
     IssuerAlternativeName.__init__ general_names
     = Ok (IssuerAlternativeNameValue (_general_names self))) /\
  (forall e, GeneralNames.__init__ general_names = Raise e ->
     (exists msg, e = TypeError msg) /\
     SubjectAlternativeName.__init__ general_names = Raise e /\
     IssuerAlternativeName.__init__ general_names = Raise e).
Proof.
  unfold SubjectAlternativeName.__init__, IssuerAlternativeName.__init__,
    GeneralNames.__init__, GeneralNames.__len__.
  destruct (forallb isinstance_GeneralName general_names) eqn:E;
    cbn [negb].
  - split; [|split].
    + split; [|intros _; eexists; reflexivity]. intros _ x Hin.
      rewrite forallb_forall in E. specialize (E x Hin).
      destruct x; try discriminate E. eexists. reflexivity.
    + intros self H. inversion H; subst self. cbn.
      pose proof (general_names_of_all _ E) as Hm. split; [exact Hm|].
      split; [|split; reflexivity].
      rewrite <- Hm at 2. rewrite length_map. reflexivity.
    + intros e H. discriminate H.
  - split; [|split].
    + split; [intros [self H]; discriminate H|]. intros H.
      assert (forallb isinstance_GeneralName general_names = true) as Hc.
      { apply forallb_forall. intros x Hin.
        destruct (H x Hin) as [g ->]. reflexivity. }
      rewrite Hc in E. discriminate E.
    + intros self H. discriminate H.
    + intros e H. inversion H; subst e.
      split; [eexists; reflexivity|]. split; reflexivity.
Qed.

Lemma GeneralNames_init_spec_witness :
  exists self,
    GeneralNames.__init__
      [PyGeneralName (DNSName "example.com");
       PyGeneralName (IPAddress (IPv4Address 0x7F000001))] = Ok self.
Proof.
  apply (proj2 (proj1 (GeneralNames_init_spec
                         [PyGeneralName (DNSName "example.com");
                          PyGeneralName (IPAddress (IPv4Address 0x7F000001))]))).
  intros x [<-|[<-|[]]]; eexists; reflexivity.
Defined.
